(** * Automation rules: storage, scheduling arithmetic and manual invocation

    A shallow embedding of the PostgreSQL storage of execution rules
    ([executionRulesStorage], [mapRuleRow], [calculateNextRunTime]), of the
    storage of execution logs ([executionLogStorage]), of the manual
    invocation route ([POST /api/automations/invoke]) and of the route of
    the logs of a rule ([GET /api/automations/[id]/logs]).

    Conventions.
    - A JavaScript value is a [JSVal]; the numbers stored and compared here
      are integers (counters, priorities, time values), so such a number
      is a [Z]. The one number computed by division, the success rate, is
      a double ([JSNumber], with the rounding of IEEE 754 binary64).
    - A [Date] is its time value, the milliseconds since the epoch, a [Z];
      an Invalid Date (time value NaN) is [None].
    - A table is the list of its rows in scan order; a rule row maps each
      column to the JavaScript view of the stored SQL value ([JNull] for
      NULL). [ORDER BY] sorts the selected rows; PostgreSQL puts NULL above
      every value.
    - [await] is sequential composition; a rejected promise is [None]. *)

From Stdlib Require Import ZArith QArith Qround Qpower Qabs Lia Lqa.
From Stdlib Require PrimFloat FloatOps SpecFloat Uint63.
From stdpp Require Import base decidable option list sorting strings gmap pretty.

Local Open Scope string_scope.
Local Open Scope list_scope.
Local Open Scope Z_scope.

(* ===================================================================== *)
(** ** JavaScript values *)
(* ===================================================================== *)

#[warnings="-register-all"]
Inductive JSVal : Type :=
| JUndefined
| JNull
| JBool (b : bool)
| JNum (n : Z)
| JStr (s : string)
| JDate (t : Z)
| JArr (xs : list JSVal)
| JObj (kvs : list (string * JSVal)).

(** ToBoolean: [undefined], [null], [false], [0] and the empty string are
    falsy; objects (dates, arrays, records) are truthy. *)
Definition truthy (v : JSVal) : bool :=
  match v with
  | JUndefined | JNull => false
  | JBool b => b
  | JNum n => negb (n =? 0)
  | JStr s => negb (String.eqb s "")
  | JDate _ | JArr _ | JObj _ => true
  end.

(** [a || b] *)
Definition js_or (a b : JSVal) : JSVal := if truthy a then a else b.

(** [a ?? b] *)
Definition js_nullish (a b : JSVal) : JSVal :=
  match a with
  | JUndefined | JNull => b
  | _ => a
  end.

(** [Boolean(v)] *)
Definition Boolean (v : JSVal) : bool := truthy v.

(** [v instanceof Date] *)
Definition instanceofDate (v : JSVal) : bool :=
  match v with JDate _ => true | _ => false end.

(** Property read [o.k] on a plain object: a missing key reads [undefined]. *)
Definition prop (o : gmap string JSVal) (k : string) : JSVal :=
  default JUndefined (o !! k).

(* ===================================================================== *)
(** ** ECMAScript dates (ECMA-262, Date objects)

    The abstract operations the [Date] setters and getters are made of.
    [LocalTZA t isUTC] is the offset of the host's local time zone, in
    milliseconds: at the UTC instant [t] when [isUTC], for the local time
    value [t] otherwise. *)
(* ===================================================================== *)

Module JSDate.

Definition msPerSecond : Z := 1000.
Definition msPerMinute : Z := 60000.
Definition msPerHour : Z := 3600000.
Definition msPerDay : Z := 86400000.

(** Largest magnitude of a time value; beyond it a date is invalid. *)
Definition maxTime : Z := 8640000000000000.

Definition Day (t : Z) : Z := t / msPerDay.
Definition TimeWithinDay (t : Z) : Z := t mod msPerDay.

Definition isLeapYear (y : Z) : bool :=
if negb (y mod 4 =? 0) then false
else if negb (y mod 100 =? 0) then true
else if negb (y mod 400 =? 0) then false
else true.

Definition DaysInYear (y : Z) : Z := if isLeapYear y then 366 else 365.

Definition DayFromYear (y : Z) : Z :=
365 * (y - 1970) + (y - 1969) / 4 - (y - 1901) / 100 + (y - 1601) / 400.

Definition TimeFromYear (y : Z) : Z := msPerDay * DayFromYear y.

(** The largest [y] with [TimeFromYear y <= t]: a year of 365.2425 days on
  average gives an estimate that is off by at most one. *)
Definition YearFromTime (t : Z) : Z :=
let d := Day t in
let y0 := 1970 + (d * 400) / 146097 in
if d <? DayFromYear y0 then y0 - 1
else if DayFromYear (y0 + 1) <=? d then y0 + 1
else y0.

Definition InLeapYear (t : Z) : Z :=
if isLeapYear (YearFromTime t) then 1 else 0.

Definition DayWithinYear (t : Z) : Z := Day t - DayFromYear (YearFromTime t).

(** Number of days of the year before month [m] (0 = January). *)
Definition monthStart (m leap : Z) : Z :=
if m =? 0 then 0
else if m =? 1 then 31
else if m =? 2 then 59 + leap
else if m =? 3 then 90 + leap
else if m =? 4 then 120 + leap
else if m =? 5 then 151 + leap
else if m =? 6 then 181 + leap
else if m =? 7 then 212 + leap
else if m =? 8 then 243 + leap
else if m =? 9 then 273 + leap
else if m =? 10 then 304 + leap
else 334 + leap.

Definition MonthFromTime (t : Z) : Z :=
let d := DayWithinYear t in
let leap := InLeapYear t in
if d <? 31 then 0
else if d <? 59 + leap then 1
else if d <? 90 + leap then 2
else if d <? 120 + leap then 3
else if d <? 151 + leap then 4
else if d <? 181 + leap then 5
else if d <? 212 + leap then 6
else if d <? 243 + leap then 7
else if d <? 273 + leap then 8
else if d <? 304 + leap then 9
else if d <? 334 + leap then 10
else 11.

Definition DateFromTime (t : Z) : Z :=
DayWithinYear t - monthStart (MonthFromTime t) (InLeapYear t) + 1.

Definition HourFromTime (t : Z) : Z := (t / msPerHour) mod 24.
Definition MinFromTime (t : Z) : Z := (t / msPerMinute) mod 60.
Definition SecFromTime (t : Z) : Z := (t / msPerSecond) mod 60.
Definition msFromTime (t : Z) : Z := t mod msPerSecond.

Definition MakeTime (hour min sec ms : Z) : Z :=
hour * msPerHour + min * msPerMinute + sec * msPerSecond + ms.

(** Day number of [date] in month [month] of [year]; months outside 0..11
  carry into the year. *)
Definition MakeDay (year month date : Z) : Z :=
let ym := year + month / 12 in
let mn := month mod 12 in
DayFromYear ym + monthStart mn (if isLeapYear ym then 1 else 0) + date - 1.

Definition MakeDate (day time : Z) : Z := day * msPerDay + time.

Definition TimeClip (time : Z) : option Z :=
if maxTime <? Z.abs time then None else Some time.

(** Decimal digits of [n], left-padded with zeros to [width] characters. *)
Definition pad (width : nat) (n : Z) : string :=
let s := pretty (Z.to_N n) in
String.concat "" (replicate (width - String.length s) "0") +:+ s.

Definition WeekDay (t : Z) : Z := (Day t + 4) mod 7.

Definition weekDayName (d : Z) : string :=
nth (Z.to_nat d) ["Sun"; "Mon"; "Tue"; "Wed"; "Thu"; "Fri"; "Sat"] "".

Definition monthName (m : Z) : string :=
nth (Z.to_nat m)
  ["Jan"; "Feb"; "Mar"; "Apr"; "May"; "Jun"; "Jul"; "Aug"; "Sep"; "Oct"; "Nov"; "Dec"] "".

Section LocalTime.

Variable LocalTZA : Z -> bool -> Z.

Definition LocalTime (t : Z) : Z := t + LocalTZA t true.
Definition UTC (t : Z) : Z := t - LocalTZA t false.

(** [d.getMinutes()], [d.getHours()], [d.getDate()] on a valid date. *)
Definition getMinutes (tv : Z) : Z := MinFromTime (LocalTime tv).
Definition getHours (tv : Z) : Z := HourFromTime (LocalTime tv).
Definition getDate (tv : Z) : Z := DateFromTime (LocalTime tv).

(** [d.setMinutes(min)]: the new time value of [d]. *)
Definition setMinutes (tv : Z) (min : Z) : option Z :=
  let t := LocalTime tv in
  let date :=
    MakeDate (Day t) (MakeTime (HourFromTime t) min (SecFromTime t) (msFromTime t)) in
  TimeClip (UTC date).

(** [d.setHours(hour)] *)
Definition setHours (tv : Z) (hour : Z) : option Z :=
  let t := LocalTime tv in
  let date :=
    MakeDate (Day t) (MakeTime hour (MinFromTime t) (SecFromTime t) (msFromTime t)) in
  TimeClip (UTC date).

(** [d.setDate(date)] *)
Definition setDate (tv : Z) (dt : Z) : option Z :=
  let t := LocalTime tv in
  let newDate :=
    MakeDate (MakeDay (YearFromTime t) (MonthFromTime t) dt) (TimeWithinDay t) in
  TimeClip (UTC newDate).

(** [d.toString()] on a valid date, in local time:
    [Www Mmm DD YYYY HH:mm:ss GMT+hhmm]; the implementation-defined time
    zone name that may follow is left out. *)
Definition toString (tv : Z) : string :=
  let t := LocalTime tv in
  let y := YearFromTime t in
  let offset := LocalTZA tv true in
  let offsetMin := Z.abs offset / msPerMinute in
  weekDayName (WeekDay t) +:+ " " +:+ monthName (MonthFromTime t) +:+ " "
    +:+ pad 2 (DateFromTime t) +:+ " "
    +:+ (if y <? 0 then "-" else "") +:+ pad 4 (Z.abs y) +:+ " "
    +:+ pad 2 (HourFromTime t) +:+ ":" +:+ pad 2 (MinFromTime t) +:+ ":"
    +:+ pad 2 (SecFromTime t) +:+ " GMT"
    +:+ (if 0 <=? offset then "+" else "-")
    +:+ pad 2 (offsetMin / 60) +:+ pad 2 (offsetMin mod 60).

End LocalTime.

(** [d.toISOString()] on a valid date: UTC fields, [YYYY-MM-DDTHH:mm:ss.sssZ],
  with a signed six-digit year outside 0..9999. *)
Definition toISOString (t : Z) : string :=
let y := YearFromTime t in
let year :=
  if (0 <=? y) && (y <=? 9999) then pad 4 y
  else (if y <? 0 then "-" else "+") +:+ pad 6 (Z.abs y) in
year +:+ "-" +:+ pad 2 (MonthFromTime t + 1) +:+ "-" +:+ pad 2 (DateFromTime t)
  +:+ "T" +:+ pad 2 (HourFromTime t) +:+ ":" +:+ pad 2 (MinFromTime t)
  +:+ ":" +:+ pad 2 (SecFromTime t) +:+ "." +:+ pad 3 (msFromTime t) +:+ "Z".

End JSDate.

(* ===================================================================== *)
(** ** Execution rules: types *)
(* ===================================================================== *)

(** ['trigger' | 'scheduled' | 'manual' | 'all'] *)
Inductive ActivationMode := ModeTrigger | ModeScheduled | ModeManual | ModeAll.

Definition ActivationMode_str (m : ActivationMode) : string :=
  match m with
  | ModeTrigger => "trigger"
  | ModeScheduled => "scheduled"
  | ModeManual => "manual"
  | ModeAll => "all"
  end.

(** ['15min' | 'hourly' | 'daily' | 'weekly'] *)
Inductive ScheduleInterval := Every15min | Hourly | Daily | Weekly.

#[global] Instance ScheduleInterval_eq_dec : EqDecision ScheduleInterval.
Proof. solve_decision. Defined.

Definition ScheduleInterval_str (i : ScheduleInterval) : string :=
  match i with
  | Every15min => "15min"
  | Hourly => "hourly"
  | Daily => "daily"
  | Weekly => "weekly"
  end.

(** [Partial<ExecutionRuleInput>]: an absent ([undefined]) field is [None].
    Steps and the output configuration are JSON values the storage never
    looks into. *)
Module ExecutionRuleInput.
Record t := mk {
  name : option string;
  description : option string;
  isActive : option bool;
  priority : option Z;
  acceptedTriggers : option (list string);
  topicCondition : option string;
  executionSteps : option (list JSVal);
  outputConfig : option JSVal;
  activationMode : option ActivationMode;
  scheduleEnabled : option bool;
  scheduleInterval : option ScheduleInterval;
}.

(** The input that specifies nothing. *)
Definition empty : t :=
  mk None None None None None None None None None None None.
End ExecutionRuleInput.

(** [ExecutionRule], as [mapRuleRow] builds it. The fields that are only
    cast ([as string], [as number]) keep the JavaScript value they hold. *)
Module ExecutionRule.
Record t := mk {
  id : JSVal;
  userId : JSVal;
  name : JSVal;
  description : JSVal;
  isActive : bool;
  priority : JSVal;
  acceptedTriggers : JSVal;
  topicCondition : JSVal;
  executionSteps : JSVal;
  outputConfig : JSVal;
  executionCount : JSVal;
  lastExecutedAt : JSVal;
  createdAt : string;
  updatedAt : string;
  activationMode : JSVal;
  scheduleEnabled : bool;
  scheduleInterval : JSVal;
  scheduleLastRun : JSVal;
  scheduleNextRun : JSVal;
}.
End ExecutionRule.

(** The columns of the rule table. *)
Inductive Column :=
| c_id | c_userId | c_name | c_description | c_isActive | c_priority
| c_acceptedTriggers | c_topicCondition | c_executionSteps | c_outputConfig
| c_executionCount | c_lastExecutedAt | c_createdAt | c_updatedAt
| c_activationMode | c_scheduleEnabled | c_scheduleInterval
| c_scheduleLastRun | c_scheduleNextRun.

#[global] Instance Column_eq_dec : EqDecision Column.
Proof. solve_decision. Defined.

Definition all_columns : list Column :=
  [c_id; c_userId; c_name; c_description; c_isActive; c_priority;
   c_acceptedTriggers; c_topicCondition; c_executionSteps; c_outputConfig;
   c_executionCount; c_lastExecutedAt; c_createdAt; c_updatedAt;
   c_activationMode; c_scheduleEnabled; c_scheduleInterval;
   c_scheduleLastRun; c_scheduleNextRun].

(** A row of the rule table and the table itself, in scan order. *)
Abbreviation RuleRow := (Column -> JSVal).
Abbreviation RuleTable := (list (Column -> JSVal)).

(** [SET c = v] on one row. *)
Definition set_col (c : Column) (v : JSVal) (r : RuleRow) : RuleRow :=
  fun c' => if decide (c' = c) then v else r c'.

(* ===================================================================== *)
(** ** SQL expressions on stored values *)
(* ===================================================================== *)

(** [v = $n] for a text parameter: NULL compares to nothing. *)
Definition sql_eq_text (v : JSVal) (s : string) : bool :=
  match v with JStr x => String.eqb x s | _ => false end.

(** [v = true] *)
Definition sql_is_true (v : JSVal) : bool :=
  match v with JBool b => b | _ => false end.

(** The integer in an integer column, [None] for NULL. *)
Definition sql_int (v : JSVal) : option Z :=
  match v with JNum n => Some n | _ => None end.

(** The instant in a timestamp column, [None] for NULL. *)
Definition sql_timestamp (v : JSVal) : option Z :=
  match v with JDate t => Some t | _ => None end.

(** [v + 1]: NULL stays NULL. *)
Definition sql_incr (v : JSVal) : JSVal :=
  match v with JNum n => JNum (n + 1) | _ => JNull end.

(** [a <= b] in the order PostgreSQL sorts by, where NULL is larger than
    every value (so NULLs come first under DESC, last under ASC). *)
Definition null_leb (a b : option Z) : bool :=
  match a, b with
  | _, None => true
  | None, Some _ => false
  | Some x, Some y => x <=? y
  end.

Definition null_ltb (a b : option Z) : bool := negb (null_leb b a).

(** [ORDER BY priority DESC]: [r1] may precede [r2]. *)
Definition by_priority_desc (r1 r2 : RuleRow) : Prop :=
  null_leb (sql_int (r2 c_priority)) (sql_int (r1 c_priority)) = true.

(** [ORDER BY priority DESC, updatedAt DESC] *)
Definition by_priority_desc_updatedAt_desc (r1 r2 : RuleRow) : Prop :=
  (null_ltb (sql_int (r2 c_priority)) (sql_int (r1 c_priority))
   || (null_leb (sql_int (r2 c_priority)) (sql_int (r1 c_priority))
       && null_leb (sql_timestamp (r2 c_updatedAt)) (sql_timestamp (r1 c_updatedAt))))
  = true.

(** [a <= b] on text columns, NULL largest; strings compare byte by byte
    (the "C" collation). *)
Definition null_text_leb (a b : JSVal) : bool :=
  match a, b with
  | _, (JUndefined | JNull) => true
  | (JUndefined | JNull), _ => false
  | JStr x, JStr y => String.leb x y
  | _, _ => true
  end.

(** [ORDER BY priority DESC, name ASC] *)
Definition by_priority_desc_name_asc (r1 r2 : Column -> JSVal) : Prop :=
  (null_ltb (sql_int (r2 c_priority)) (sql_int (r1 c_priority))
   || (null_leb (sql_int (r2 c_priority)) (sql_int (r1 c_priority))
       && null_text_leb (r1 c_name) (r2 c_name)))
  = true.

(** [ORDER BY scheduleNextRun ASC] *)
Definition by_scheduleNextRun_asc (r1 r2 : RuleRow) : Prop :=
  null_leb (sql_timestamp (r1 c_scheduleNextRun)) (sql_timestamp (r2 c_scheduleNextRun))
  = true.

#[global] Instance by_priority_desc_dec r1 r2 : Decision (by_priority_desc r1 r2).
Proof. unfold by_priority_desc. apply _. Defined.

#[global] Instance by_priority_desc_updatedAt_desc_dec r1 r2 :
  Decision (by_priority_desc_updatedAt_desc r1 r2).
Proof. unfold by_priority_desc_updatedAt_desc. apply _. Defined.

#[global] Instance by_priority_desc_name_asc_dec r1 r2 :
  Decision (by_priority_desc_name_asc r1 r2).
Proof. unfold by_priority_desc_name_asc. apply _. Defined.

#[global] Instance by_scheduleNextRun_asc_dec r1 r2 :
  Decision (by_scheduleNextRun_asc r1 r2).
Proof. unfold by_scheduleNextRun_asc. apply _. Defined.

(** Row predicates of the WHERE clauses. *)

Definition has_id (id : string) (r : RuleRow) : Prop :=
  sql_eq_text (r c_id) id = true.

Definition owned_by (userId : string) (r : RuleRow) : Prop :=
  sql_eq_text (r c_userId) userId = true.

Definition is_active (r : RuleRow) : Prop :=
  sql_is_true (r c_isActive) = true.

(** [activationMode = m1 OR activationMode = m2] *)
Definition mode_in (m1 m2 : string) (r : RuleRow) : Prop :=
  sql_eq_text (r c_activationMode) m1 || sql_eq_text (r c_activationMode) m2 = true.

(** [scheduleNextRun <= NOW()] *)
Definition due_at (dbNow : Z) (r : RuleRow) : Prop :=
  match sql_timestamp (r c_scheduleNextRun) with
  | Some t => t <=? dbNow
  | None => false
  end = true.

#[global] Instance has_id_dec id r : Decision (has_id id r).
Proof. unfold has_id. apply _. Defined.

#[global] Instance owned_by_dec userId r : Decision (owned_by userId r).
Proof. unfold owned_by. apply _. Defined.

#[global] Instance is_active_dec r : Decision (is_active r).
Proof. unfold is_active. apply _. Defined.

#[global] Instance mode_in_dec m1 m2 r : Decision (mode_in m1 m2 r).
Proof. unfold mode_in. apply _. Defined.

#[global] Instance due_at_dec dbNow r : Decision (due_at dbNow r).
Proof. unfold due_at. apply _. Defined.

(* ===================================================================== *)
(** ** Execution rules: rows, rules and next-run times *)
(* ===================================================================== *)

Section RuleMapping.

(** [isSupabase]: whether [DATABASE_URL] is set, which selects the
    snake_case column names. [LocalTZA] is the host's time zone. *)
Variable isSupabase : bool.
Variable LocalTZA : Z -> bool -> Z.

(** The name of a column, as the key of a result row. *)
Definition col (c : Column) : string :=
  match c with
  | c_id => "id"
  | c_name => "name"
  | c_description => "description"
  | c_priority => "priority"
  | c_userId => if isSupabase then "user_id" else "userId"
  | c_isActive => if isSupabase then "is_active" else "isActive"
  | c_acceptedTriggers => if isSupabase then "accepted_triggers" else "acceptedTriggers"
  | c_topicCondition => if isSupabase then "topic_condition" else "topicCondition"
  | c_executionSteps => if isSupabase then "execution_steps" else "executionSteps"
  | c_outputConfig => if isSupabase then "output_config" else "outputConfig"
  | c_executionCount => if isSupabase then "execution_count" else "executionCount"
  | c_lastExecutedAt => if isSupabase then "last_executed_at" else "lastExecutedAt"
  | c_createdAt => if isSupabase then "created_at" else "createdAt"
  | c_updatedAt => if isSupabase then "updated_at" else "updatedAt"
  | c_activationMode => if isSupabase then "activation_mode" else "activationMode"
  | c_scheduleEnabled => if isSupabase then "schedule_enabled" else "scheduleEnabled"
  | c_scheduleInterval => if isSupabase then "schedule_interval" else "scheduleInterval"
  | c_scheduleLastRun => if isSupabase then "schedule_last_run" else "scheduleLastRun"
  | c_scheduleNextRun => if isSupabase then "schedule_next_run" else "scheduleNextRun"
  end.

(** The object the driver returns for a row of [SELECT *]. *)
Definition rowObject (r : RuleRow) : gmap string JSVal :=
  list_to_map (map (fun c => (col c, r c)) all_columns).

(** [String(v)] *)
Fixpoint js_String (v : JSVal) : string :=
  match v with
  | JUndefined => "undefined"
  | JNull => "null"
  | JBool true => "true"
  | JBool false => "false"
  | JNum n => pretty n
  | JStr s => s
  | JDate t => JSDate.toString LocalTZA t
  | JArr xs =>
      String.concat ","
        (map (fun x => match x with
                       | JUndefined | JNull => ""
                       | _ => js_String x
                       end) xs)
  | JObj _ => "[object Object]"
  end.

(** [v instanceof Date ? v.toISOString() : v] *)
Definition isoIfDate (v : JSVal) : JSVal :=
  match v with JDate t => JStr (JSDate.toISOString t) | _ => v end.

(** [v instanceof Date ? v.toISOString() : String(v)] *)
Definition isoOrString (v : JSVal) : string :=
  match v with JDate t => JSDate.toISOString t | _ => js_String v end.

Definition mapRuleRow (row : gmap string JSVal) : ExecutionRule.t :=
  let userId := js_or (prop row "userId") (prop row "user_id") in
  let isActive := js_nullish (prop row "isActive") (prop row "is_active") in
  let acceptedTriggers :=
    js_or (prop row "acceptedTriggers") (prop row "accepted_triggers") in
  let topicCondition := js_or (prop row "topicCondition") (prop row "topic_condition") in
  let executionSteps := js_or (prop row "executionSteps") (prop row "execution_steps") in
  let outputConfig := js_or (prop row "outputConfig") (prop row "output_config") in
  let executionCount :=
    js_nullish (prop row "executionCount") (prop row "execution_count") in
  let lastExecutedAt := js_or (prop row "lastExecutedAt") (prop row "last_executed_at") in
  let createdAt := js_or (prop row "createdAt") (prop row "created_at") in
  let updatedAt := js_or (prop row "updatedAt") (prop row "updated_at") in
  let activationMode := js_or (prop row "activationMode") (prop row "activation_mode") in
  let scheduleEnabled :=
    js_nullish (prop row "scheduleEnabled") (prop row "schedule_enabled") in
  let scheduleInterval :=
    js_or (prop row "scheduleInterval") (prop row "schedule_interval") in
  let scheduleLastRun :=
    js_or (prop row "scheduleLastRun") (prop row "schedule_last_run") in
  let scheduleNextRun :=
    js_or (prop row "scheduleNextRun") (prop row "schedule_next_run") in
  {| ExecutionRule.id := prop row "id";
     ExecutionRule.userId := userId;
     ExecutionRule.name := prop row "name";
     ExecutionRule.description := prop row "description";
     ExecutionRule.isActive := Boolean isActive;
     ExecutionRule.priority := js_or (prop row "priority") (JNum 0);
     ExecutionRule.acceptedTriggers := js_or acceptedTriggers (JArr []);
     ExecutionRule.topicCondition := topicCondition;
     ExecutionRule.executionSteps := js_or executionSteps (JArr []);
     ExecutionRule.outputConfig :=
       js_or outputConfig (JObj [("platform", JStr "none"); ("format", JStr "summary")]);
     ExecutionRule.executionCount := js_or executionCount (JNum 0);
     ExecutionRule.lastExecutedAt := isoIfDate lastExecutedAt;
     ExecutionRule.createdAt := isoOrString createdAt;
     ExecutionRule.updatedAt := isoOrString updatedAt;
     ExecutionRule.activationMode := js_or activationMode (JStr "trigger");
     ExecutionRule.scheduleEnabled := Boolean scheduleEnabled;
     ExecutionRule.scheduleInterval := scheduleInterval;
     ExecutionRule.scheduleLastRun := isoIfDate scheduleLastRun;
     ExecutionRule.scheduleNextRun := isoIfDate scheduleNextRun |}.

(** [result.rows.map(mapRuleRow)] *)
Definition mapRows (rows : list RuleRow) : list ExecutionRule.t :=
  map (fun r => mapRuleRow (rowObject r)) rows.

(** [calculateNextRunTime(interval, fromDate?)]; [clock] is what
    [new Date()] reads. The result is the time value of [next], [None]
    when [next] has become an Invalid Date. *)
Definition calculateNextRunTime
    (interval : ScheduleInterval) (fromDate : option Z) (clock : Z) : option Z :=
  let now := default clock fromDate in
  let next := now in
  match interval with
  | Every15min => JSDate.setMinutes LocalTZA next (JSDate.getMinutes LocalTZA next + 15)
  | Hourly => JSDate.setHours LocalTZA next (JSDate.getHours LocalTZA next + 1)
  | Daily => JSDate.setDate LocalTZA next (JSDate.getDate LocalTZA next + 1)
  | Weekly => JSDate.setDate LocalTZA next (JSDate.getDate LocalTZA next + 7)
  end.

(** *** Parameters and clauses of the writes *)

(** A query parameter that is a [Date]: an Invalid Date is not a
    timestamp and the query is rejected. *)
Definition dateParam (d : option Z) : option JSVal := JDate <$> d.

(** A text parameter; [undefined] is sent as NULL. *)
Definition textParam (s : option string) : JSVal :=
  match s with Some x => JStr x | None => JNull end.

(** The row of the INSERT in [create]. [lastExecutedAt] and
    [scheduleLastRun] are not among the inserted columns and stay NULL. *)
Definition insertedRow (id userId : string) (input : ExecutionRuleInput.t)
    (scheduleNextRun : JSVal) (dbNow : Z) : RuleRow :=
  fun c =>
    match c with
    | c_id => JStr id
    | c_userId => JStr userId
    | c_name => textParam (ExecutionRuleInput.name input)
    | c_description =>
        (* input.description || null *)
        match ExecutionRuleInput.description input with
        | Some s => if String.eqb s "" then JNull else JStr s
        | None => JNull
        end
    | c_isActive => JBool (default true (ExecutionRuleInput.isActive input))
    | c_priority => JNum (default 0 (ExecutionRuleInput.priority input))
    | c_acceptedTriggers =>
        JArr (map JStr (default [] (ExecutionRuleInput.acceptedTriggers input)))
    | c_topicCondition => textParam (ExecutionRuleInput.topicCondition input)
    | c_executionSteps =>
        match ExecutionRuleInput.executionSteps input with
        | Some steps => JArr steps
        | None => JNull
        end
    | c_outputConfig => default JNull (ExecutionRuleInput.outputConfig input)
    | c_executionCount => JNum 0
    | c_createdAt => JDate dbNow
    | c_updatedAt => JDate dbNow
    | c_activationMode =>
        JStr (ActivationMode_str
                (default ModeTrigger (ExecutionRuleInput.activationMode input)))
    | c_scheduleEnabled =>
        JBool (default false (ExecutionRuleInput.scheduleEnabled input))
    | c_scheduleInterval =>
        match ExecutionRuleInput.scheduleInterval input with
        | Some i => JStr (ScheduleInterval_str i)
        | None => JNull
        end
    | c_scheduleNextRun => scheduleNextRun
    | c_lastExecutedAt => JNull
    | c_scheduleLastRun => JNull
    end.

(** One [setClauses.push] with its [values.push], when the field is given. *)
Definition pushField {A} (field : option A) (c : Column) (value : A -> JSVal)
    (setClauses : list (Column * JSVal)) : list (Column * JSVal) :=
  match field with
  | Some v => setClauses ++ [(c, value v)]
  | None => setClauses
  end.

(** The SET clauses [update] builds, each with its value; [None] when a
    value is an Invalid Date. *)
Definition setClausesOf (input : ExecutionRuleInput.t) (clock : Z)
    : option (list (Column * JSVal)) :=
  let s := [] in
  let s := pushField (ExecutionRuleInput.name input) c_name JStr s in
  let s := pushField (ExecutionRuleInput.description input) c_description JStr s in
  let s := pushField (ExecutionRuleInput.isActive input) c_isActive JBool s in
  let s := pushField (ExecutionRuleInput.priority input) c_priority JNum s in
  let s := pushField (ExecutionRuleInput.acceptedTriggers input) c_acceptedTriggers
             (fun l => JArr (map JStr l)) s in
  let s := pushField (ExecutionRuleInput.topicCondition input) c_topicCondition JStr s in
  let s := pushField (ExecutionRuleInput.executionSteps input) c_executionSteps JArr s in
  let s := pushField (ExecutionRuleInput.outputConfig input) c_outputConfig
             (fun config => config) s in
  let s := pushField (ExecutionRuleInput.activationMode input) c_activationMode
             (fun m => JStr (ActivationMode_str m)) s in
  let s := pushField (ExecutionRuleInput.scheduleEnabled input) c_scheduleEnabled
             JBool s in
  match ExecutionRuleInput.scheduleInterval input with
  | Some interval =>
      let s := s ++ [(c_scheduleInterval, JStr (ScheduleInterval_str interval))] in
      (* Recalculate next run time when interval changes *)
      if negb (bool_decide (ExecutionRuleInput.scheduleEnabled input = Some false)) then
        nextRun ← dateParam (calculateNextRunTime interval None clock);
        Some (s ++ [(c_scheduleNextRun, nextRun)])
      else Some s
  | None => Some s
  end.

(** [SET c1 = v1, c2 = v2, ...] on one row. *)
Definition applySet (setClauses : list (Column * JSVal)) (r : RuleRow) : RuleRow :=
  foldl (fun r cv => set_col cv.1 cv.2 r) r setClauses.

(** [UPDATE ... SET ... WHERE id = $n] *)
Definition updateWhereId (id : string) (f : RuleRow -> RuleRow) (tbl : RuleTable)
    : RuleTable :=
  map (fun r => if decide (has_id id r) then f r else r) tbl.

End RuleMapping.

(* ===================================================================== *)
(** ** Execution rules: storage *)
(* ===================================================================== *)

(** The operations of [executionRulesStorage]. The order SQL leaves open
    among rows whose sort keys are equal is, in this model, the one a merge
    sort of the rows in scan order gives. *)
Module executionRulesStorage.

Section Operations.

Variable isSupabase : bool.
Variable LocalTZA : Z -> bool -> Z.

(** *** Reads *)

(** The rows of [getByUserId], before [mapRuleRow]. *)
Definition getByUserId_rows (userId : string) (tbl : RuleTable) : list RuleRow :=
  merge_sort by_priority_desc_updatedAt_desc (filter (owned_by userId) tbl).

Definition getByUserId (userId : string) (tbl : RuleTable) : list ExecutionRule.t :=
  mapRows isSupabase LocalTZA (getByUserId_rows userId tbl).

(** The rows of [getActiveByUserId], before [mapRuleRow]. *)
Definition getActiveByUserId_rows (userId : string) (tbl : RuleTable) : list RuleRow :=
  merge_sort by_priority_desc
    (filter (fun r => owned_by userId r /\ is_active r) tbl).

Definition getActiveByUserId (userId : string) (tbl : RuleTable) : list ExecutionRule.t :=
  mapRows isSupabase LocalTZA (getActiveByUserId_rows userId tbl).

(** [get(id)]: [rows[0]] of the rows with this id, if any. *)
Definition get (id : string) (tbl : RuleTable) : option ExecutionRule.t :=
  match filter (has_id id) tbl with
  | [] => None
  | r :: _ => Some (mapRuleRow LocalTZA (rowObject isSupabase r))
  end.

Definition getByIdAndUser (id userId : string) (tbl : RuleTable)
    : option ExecutionRule.t :=
  match filter (fun r => has_id id r /\ owned_by userId r) tbl with
  | [] => None
  | r :: _ => Some (mapRuleRow LocalTZA (rowObject isSupabase r))
  end.

Definition hasActiveRules (userId : string) (tbl : RuleTable) : bool :=
  match filter (fun r => owned_by userId r /\ is_active r) tbl with
  | [] => false
  | _ :: _ => true
  end.

(** The rows of [getManualRules], before [mapRuleRow]. *)
Definition getManualRules_rows (userId : string) (tbl : RuleTable) : list RuleRow :=
  merge_sort by_priority_desc_name_asc
    (filter (fun r => owned_by userId r /\ is_active r /\ mode_in "manual" "all" r) tbl).

Definition getManualRules (userId : string) (tbl : RuleTable) : list ExecutionRule.t :=
  mapRows isSupabase LocalTZA (getManualRules_rows userId tbl).

(** The rows of [getScheduledRulesDue], before [mapRuleRow]; [dbNow] is
    what [NOW()] reads. *)
Definition getScheduledRulesDue_rows (dbNow : Z) (tbl : RuleTable) : list RuleRow :=
  merge_sort by_scheduleNextRun_asc
    (filter (fun r => sql_is_true (r c_scheduleEnabled) = true
                      /\ due_at dbNow r
                      /\ is_active r
                      /\ mode_in "scheduled" "all" r) tbl).

Definition getScheduledRulesDue (dbNow : Z) (tbl : RuleTable) : list ExecutionRule.t :=
  mapRows isSupabase LocalTZA (getScheduledRulesDue_rows dbNow tbl).

(** *** Writes *)

(** [create(userId, input)]; [id] is what [generateId('rule')] returns,
    [clock] what [new Date()] reads and [dbNow] what [NOW()] reads. *)
Definition create (id userId : string) (input : ExecutionRuleInput.t)
    (clock dbNow : Z) (tbl : RuleTable) : option (RuleTable * ExecutionRule.t) :=
  scheduleNextRun ←
    match ExecutionRuleInput.scheduleEnabled input,
          ExecutionRuleInput.scheduleInterval input with
    | Some true, Some interval =>
        dateParam (calculateNextRunTime LocalTZA interval None clock)
    | _, _ => Some JNull
    end;
  let tbl' := tbl ++ [insertedRow id userId input scheduleNextRun dbNow] in
  created ← get id tbl';
  Some (tbl', created).

(** [update(id, input)] *)
Definition update (id : string) (input : ExecutionRuleInput.t) (clock : Z)
    (tbl : RuleTable) : option (RuleTable * option ExecutionRule.t) :=
  setClauses ← setClausesOf LocalTZA input clock;
  match setClauses with
  | [] => Some (tbl, get id tbl)
  | _ :: _ =>
      let tbl' := updateWhereId id (applySet setClauses) tbl in
      Some (tbl', get id tbl')
  end.

(** [delete(id)]: the table without the rows of this id, and whether a row
    was deleted. *)
Definition delete (id : string) (tbl : RuleTable) : RuleTable * bool :=
  (filter (fun r => ~ has_id id r) tbl,
   bool_decide (filter (has_id id) tbl <> [])).

(** [incrementExecutionCount(id)] *)
Definition incrementExecutionCount (id : string) (dbNow : Z) (tbl : RuleTable)
    : RuleTable :=
  updateWhereId id
    (fun r => set_col c_lastExecutedAt (JDate dbNow)
                (set_col c_executionCount (sql_incr (r c_executionCount)) r))
    tbl.

(** [updateScheduleRun(id, interval)] *)
Definition updateScheduleRun (id : string) (interval : ScheduleInterval)
    (clock dbNow : Z) (tbl : RuleTable) : option RuleTable :=
  nextRun ← dateParam (calculateNextRunTime LocalTZA interval None clock);
  Some (updateWhereId id
          (fun r => set_col c_lastExecutedAt (JDate dbNow)
                      (set_col c_executionCount (sql_incr (r c_executionCount))
                         (set_col c_scheduleNextRun nextRun
                            (set_col c_scheduleLastRun (JDate dbNow) r))))
          tbl).

End Operations.

End executionRulesStorage.

(* ===================================================================== *)
(** ** Execution logs: storage *)
(* ===================================================================== *)

(** [status IN ('success', 'failure', 'partial')] *)
Inductive LogStatus := StatusSuccess | StatusFailure | StatusPartial.

#[global] Instance LogStatus_eq_dec : EqDecision LogStatus.
Proof. solve_decision. Defined.

(** A row of the log table, with the nullability of the documented
    migration: [stepsJson], [outputText], [errorText] and [durationMs] may
    be NULL. *)
Record LogRow := mkLogRow {
  log_id : string;
  log_ruleId : string;
  log_ruleName : string;
  log_userId : string;
  log_triggerSlug : string;
  log_status : LogStatus;
  log_stepsJson : option JSVal;
  log_outputText : option string;
  log_errorText : option string;
  log_durationMs : option Z;
  log_createdAt : Z;
}.

Abbreviation LogTable := (list LogRow).

(** [Omit<ExecutionLogEntry, 'id' | 'createdAt'>], the argument of
    [executionLogStorage.create]. *)
Module NewLog.
Record t := mk {
  ruleId : string;
  ruleName : string;
  userId : string;
  triggerSlug : string;
  status : LogStatus;
  stepsJson : option (list JSVal);
  outputText : option string;
  errorText : option string;
  durationMs : option Z;
}.
End NewLog.

(** [s || null] for an optional string: the empty string is stored as NULL. *)
Definition textOrNull (s : option string) : option string :=
  match s with
  | Some x => if String.eqb x "" then None else Some x
  | None => None
  end.

(** [n || null] for an optional number: [0] is stored as NULL. *)
Definition numberOrNull (n : option Z) : option Z :=
  match n with
  | Some x => if x =? 0 then None else Some x
  | None => None
  end.

(** A JavaScript number that results from arithmetic: a double, given by
    its value when it is finite, NaN or an infinity. The sign of zero is
    not kept: [Finite 0] is [0] and [-0]. *)
Inductive JSNumber :=
| Finite (q : Q)
| NaN
| Infinity (negative : bool).

(** IEEE 754 binary64, the arithmetic of JavaScript numbers: the result of
    an operation is the exact result rounded to the nearest double, a tie
    to the one with an even significand, and an infinity from 2^1024 on. *)
Module Double.

Definition pow2 (e : Z) : Q := (inject_Z 2 ^ e)%Q.

(** The exponent of a positive number: [2^e <= x < 2^(e+1)]. *)
Definition ilog2 (x : Q) : Z :=
  let e := Z.log2 (Qnum x) - Z.log2 (Zpos (Qden x)) in
  if Qle_bool (pow2 e) x then e else e - 1.

(** The nearest integer, a tie to the even one. *)
Definition nearest_even (x : Q) : Z :=
  let f := Qfloor x in
  match (x - inject_Z f ?= 1 # 2)%Q with
  | Lt => f
  | Gt => f + 1
  | Eq => if Z.even f then f else f + 1
  end.

(** The exponent of the unit in the last place of the 53 bits of the
    significand; subnormal numbers share the exponent -1074. *)
Definition ulp_exponent (x : Q) : Z := Z.max (ilog2 x - 52) (-1074).

(** The nearest double of a positive number, were the exponent unbounded
    above. *)
Definition nearest_pos (x : Q) : Q :=
  let u := ulp_exponent x in
  (inject_Z (nearest_even (x / pow2 u)) * pow2 u)%Q.

Definition nearest (x : Q) : Q :=
  match (x ?= 0)%Q with
  | Eq => 0%Q
  | Gt => nearest_pos x
  | Lt => (- nearest_pos (- x))%Q
  end.

(** The double an exact result is rounded to. *)
Definition round (x : Q) : JSNumber :=
  let r := nearest x in
  if Qle_bool (pow2 1024) (Qabs r) then Infinity (Qle_bool r 0)
  else Finite (Qred r).

End Double.

(** The number an integer literal or [parseInt] of decimal digits gives. *)
Definition js_number (n : Z) : JSNumber := Double.round (inject_Z n).

Definition Qnegative (q : Q) : bool := negb (Qle_bool 0 q).

(** [a / b] *)
Definition js_div (a b : JSNumber) : JSNumber :=
  match a, b with
  | NaN, _ | _, NaN => NaN
  | Infinity _, Infinity _ => NaN
  | Infinity s, Finite y => Infinity (xorb s (Qnegative y))
  | Finite _, Infinity _ => Finite 0
  | Finite x, Finite y =>
      if Qeq_bool y 0 then
        if Qeq_bool x 0 then NaN else Infinity (Qnegative x)
      else Double.round (x / y)
  end.

(** [a * b] *)
Definition js_mul (a b : JSNumber) : JSNumber :=
  match a, b with
  | NaN, _ | _, NaN => NaN
  | Infinity s, Infinity s' => Infinity (xorb s s')
  | Infinity s, Finite y | Finite y, Infinity s =>
      if Qeq_bool y 0 then NaN else Infinity (xorb s (Qnegative y))
  | Finite x, Finite y => Double.round (x * y)
  end.

(** [Math.round(x)]: the nearest integer, halves towards plus infinity. *)
Definition Math_round (q : Q) : Z := Qfloor (q + (1 # 2))%Q.

(** [AVG(c)] over the non-NULL values of a column: NULL when there is none. *)
Definition sql_avg (values : list Z) : option Q :=
  match values with
  | [] => None
  | _ :: _ => Some (Qdiv (inject_Z (foldr Z.add 0 values)) (inject_Z (Z.of_nat (length
      values))))
  end.

(** [ExecutionLogStats] *)
Record ExecutionLogStats := mkStats {
  totalRuns : Z;
  successRate : JSNumber;
  avgDurationMs : Z;
}.

(** The aggregate both statistics queries compute over the rows in scope:
    [COUNT( * )], [COUNT( * ) FILTER (WHERE status = 'success')] and
    [AVG(durationMs)], then the arithmetic of the caller. *)
Definition statsOf (rows : list LogRow) : ExecutionLogStats :=
  let total_runs := Z.of_nat (length rows) in
  let success_count :=
    Z.of_nat (length (filter (fun r => log_status r = StatusSuccess) rows)) in
  let avg_duration_ms := sql_avg (omap log_durationMs rows) in
  let totalRuns := total_runs in
  let successCount := success_count in
  {| totalRuns := totalRuns;
     successRate :=
       if 0 <? totalRuns
       then js_mul (js_div (js_number successCount) (js_number totalRuns))
              (js_number 100)
       else Finite 0%Q;
     avgDurationMs :=
       match avg_duration_ms with
       | Some avg => Math_round avg
       | None => 0
       end |}.

(** The text of a status. *)
Definition LogStatus_str (s : LogStatus) : string :=
  match s with
  | StatusSuccess => "success"
  | StatusFailure => "failure"
  | StatusPartial => "partial"
  end.

(** [ExecutionLogEntry], as [mapLogRow] builds it. The fields that are only
    cast keep the JavaScript value they hold. *)
Module ExecutionLogEntry.
Record t := mk {
  id : JSVal;
  ruleId : JSVal;
  ruleName : JSVal;
  userId : JSVal;
  triggerSlug : JSVal;
  status : JSVal;
  stepsJson : JSVal;
  outputText : JSVal;
  errorText : JSVal;
  durationMs : JSVal;
  createdAt : string;
}.
End ExecutionLogEntry.

(** [ORDER BY createdAt DESC] on the log table: [r1] may precede [r2]. *)
Definition by_createdAt_desc (r1 r2 : LogRow) : Prop :=
  log_createdAt r2 <= log_createdAt r1.

#[global] Instance by_createdAt_desc_dec r1 r2 : Decision (by_createdAt_desc r1 r2).
Proof. unfold by_createdAt_desc. apply _. Defined.

(** What PostgreSQL promises of the order of the rows of a query with
    [ORDER BY createdAt DESC]: all the rows, none before a newer one. *)
Definition newest_first (order : list LogRow -> list LogRow) : Prop :=
  forall rows,
    order rows ≡ₚ rows /\ StronglySorted by_createdAt_desc (order rows).

Section LogMapping.

Variable isSupabase : bool.
Variable LocalTZA : Z -> bool -> Z.

(** The object the driver returns for a row of the log table, with the key
    names of the naming convention in use. *)
Definition logRowObject (r : LogRow) : gmap string JSVal :=
  list_to_map
    [ ("id", JStr (log_id r));
      (if isSupabase then "rule_id" else "ruleId", JStr (log_ruleId r));
      (if isSupabase then "rule_name" else "ruleName", JStr (log_ruleName r));
      (if isSupabase then "user_id" else "userId", JStr (log_userId r));
      (if isSupabase then "trigger_slug" else "triggerSlug", JStr (log_triggerSlug r));
      ("status", JStr (LogStatus_str (log_status r)));
      (if isSupabase then "steps_json" else "stepsJson", default JNull (log_stepsJson r));
      (if isSupabase then "output_text" else "outputText",
       textParam (log_outputText r));
      (if isSupabase then "error_text" else "errorText", textParam (log_errorText r));
      (if isSupabase then "duration_ms" else "durationMs",
       match log_durationMs r with Some n => JNum n | None => JNull end);
      (if isSupabase then "created_at" else "createdAt", JDate (log_createdAt r)) ].

Definition mapLogRow (row : gmap string JSVal) : ExecutionLogEntry.t :=
  let ruleId := js_or (prop row "ruleId") (prop row "rule_id") in
  let ruleName := js_or (prop row "ruleName") (prop row "rule_name") in
  let userId := js_or (prop row "userId") (prop row "user_id") in
  let triggerSlug := js_or (prop row "triggerSlug") (prop row "trigger_slug") in
  let stepsJson := js_or (prop row "stepsJson") (prop row "steps_json") in
  let outputText := js_or (prop row "outputText") (prop row "output_text") in
  let errorText := js_or (prop row "errorText") (prop row "error_text") in
  let durationMs := js_nullish (prop row "durationMs") (prop row "duration_ms") in
  let createdAt := js_or (prop row "createdAt") (prop row "created_at") in
  {| ExecutionLogEntry.id := prop row "id";
     ExecutionLogEntry.ruleId := ruleId;
     ExecutionLogEntry.ruleName := ruleName;
     ExecutionLogEntry.userId := userId;
     ExecutionLogEntry.triggerSlug := triggerSlug;
     ExecutionLogEntry.status := prop row "status";
     ExecutionLogEntry.stepsJson := js_or stepsJson (JArr []);
     ExecutionLogEntry.outputText := js_or outputText JUndefined;
     ExecutionLogEntry.errorText := js_or errorText JUndefined;
     ExecutionLogEntry.durationMs := js_or durationMs JUndefined;
     ExecutionLogEntry.createdAt := isoOrString LocalTZA createdAt |}.

(** [result.rows.map(mapLogRow)] *)
Definition mapLogRows (rows : list LogRow) : list ExecutionLogEntry.t :=
  map (fun r => mapLogRow (logRowObject r)) rows.

End LogMapping.

(** The largest [bigint], the type of LIMIT and OFFSET. *)
Definition bigint_max : Z := 9223372036854775807.

(** [v] is a parameter PostgreSQL accepts for LIMIT or OFFSET: a [bigint]
    that is not negative. *)
Definition row_count (v : Z) : bool := (0 <=? v) && (v <=? bigint_max).

(** The range of [INTEGER], the type of the duration column. *)
Definition int4_min : Z := -2147483648.
Definition int4_max : Z := 2147483647.

(** [v] can be stored in a nullable [INTEGER] column. *)
Definition is_int4 (v : option Z) : bool :=
  match v with
  | Some n => (int4_min <=? n) && (n <=? int4_max)
  | None => true
  end.

(** The row the INSERT of [create(log)] writes; [id] is what
    [generateId()] returns and [dbNow] what [NOW()] reads. *)
Definition insertedLog (id : string) (log : NewLog.t) (dbNow : Z) : LogRow :=
  {| log_id := id;
     log_ruleId := NewLog.ruleId log;
     log_ruleName := NewLog.ruleName log;
     log_userId := NewLog.userId log;
     log_triggerSlug := NewLog.triggerSlug log;
     log_status := NewLog.status log;
     log_stepsJson := Some (JArr (default [] (NewLog.stepsJson log)));
     log_outputText := textOrNull (NewLog.outputText log);
     log_errorText := textOrNull (NewLog.errorText log);
     log_durationMs := numberOrNull (NewLog.durationMs log);
     log_createdAt := dbNow |}.

(** The operations of [executionLogStorage]. *)
Module executionLogStorage.

(** The INSERT of [create(log)] on the table of the migration: it fails,
    and [create] throws ([None]) with nothing stored, when a row of the id
    exists ([id] is the PRIMARY KEY) or the duration is no [INTEGER]. *)
Definition create (id : string) (log : NewLog.t) (dbNow : Z) (tbl : LogTable)
    : option LogTable :=
  if decide (Exists (fun r => log_id r = id) tbl) then None
  else if is_int4 (numberOrNull (NewLog.durationMs log))
  then Some (tbl ++ [insertedLog id log dbNow])
  else None.

(** [getStats(userId)] *)
Definition getStats (userId : string) (tbl : LogTable) : ExecutionLogStats :=
  statsOf (filter (fun r => log_userId r = userId) tbl).

(** [getStatsByRuleId(ruleId)] *)
Definition getStatsByRuleId (ruleId : string) (tbl : LogTable) : ExecutionLogStats :=
  statsOf (filter (fun r => log_ruleId r = ruleId) tbl).

Section Reads.

Variable isSupabase : bool.
Variable LocalTZA : Z -> bool -> Z.

(** What [create(log)] returns: [mapLogRow] of [rows[0]] of the rows with
    the new id, read after the INSERT. A failed INSERT and reading a field
    of a missing row throw ([None]). *)
Definition create_returns (id : string) (log : NewLog.t) (dbNow : Z) (tbl : LogTable)
    : option ExecutionLogEntry.t :=
  tbl' ← create id log dbNow tbl;
  match filter (fun r => log_id r = id) tbl' with
  | [] => None
  | r :: _ => Some (mapLogRow LocalTZA (logRowObject isSupabase r))
  end.

(** The order in which the executor returns the rows of the query at hand
    for [ORDER BY createdAt DESC]. PostgreSQL promises no more than
    [newest_first]: rows of equal [createdAt] come in any order, which may
    differ from one query to the next, so every query has an order of its
    own. *)
Variable order : list LogRow -> list LogRow.

(** [ORDER BY createdAt DESC LIMIT limit OFFSET offset] over the rows that
    satisfy [P]; the query fails ([None]) on a LIMIT or OFFSET that is
    negative or no [bigint]. *)
Definition page_rows (P : LogRow -> Prop) `{!forall r, Decision (P r)}
    (limit offset : Z) (tbl : LogTable) : option (list LogRow) :=
  if row_count limit && row_count offset then
    Some (take (Z.to_nat limit) (drop (Z.to_nat offset) (order (filter P tbl))))
  else None.

(** [getByRuleId(ruleId, limit = 50, offset = 0)]; an argument left out is
    [None]. *)
Definition getByRuleId (ruleId : string) (limit offset : option Z) (tbl : LogTable)
    : option (list ExecutionLogEntry.t * Z) :=
  let total := Z.of_nat (length (filter (fun r => log_ruleId r = ruleId) tbl)) in
  rows ← page_rows (fun r => log_ruleId r = ruleId) (default 50 limit) (default 0 offset)
           tbl;
  Some (mapLogRows isSupabase LocalTZA rows, total).

(** [getByUserId(userId, limit = 50, offset = 0)] *)
Definition getByUserId (userId : string) (limit offset : option Z) (tbl : LogTable)
    : option (list ExecutionLogEntry.t * Z) :=
  let total := Z.of_nat (length (filter (fun r => log_userId r = userId) tbl)) in
  rows ← page_rows (fun r => log_userId r = userId) (default 50 limit) (default 0 offset)
           tbl;
  Some (mapLogRows isSupabase LocalTZA rows, total).

(** [getRecent(userId, limit = 10)] *)
Definition getRecent (userId : string) (limit : option Z) (tbl : LogTable)
    : option (list ExecutionLogEntry.t) :=
  rows ← page_rows (fun r => log_userId r = userId) (default 10 limit) 0 tbl;
  Some (mapLogRows isSupabase LocalTZA rows).

End Reads.

End executionLogStorage.

(** The database: the rule table and the log table. No foreign key links
    them (the log migration declares none). *)
Record DB := mkDB {
  rules : RuleTable;
  logs : LogTable;
}.

(** [executionRulesStorage.delete(id)] on the database. *)
Definition deleteRule (id : string) (db : DB) : DB * bool :=
  let '(rules', deleted) := executionRulesStorage.delete id (rules db) in
  ({| rules := rules'; logs := logs db |}, deleted).

(* ===================================================================== *)
(** ** Manual invocation: [POST /api/automations/invoke] *)
(* ===================================================================== *)

(** The session of the authenticated user: [session.user.id]. *)
Record Session := mkSession { session_userId : string }.

(** [InvokeRequest], the properties the handler reads of the body. [ruleId]
    is whatever the client sent. *)
Module InvokeRequest.
Record t := mk {
  ruleId : JSVal;
  context : option string;
  conversationHistory : option (list (string * string));
}.
End InvokeRequest.

(** What becomes of [await request.json()]: the promise rejects when the
    body is no JSON text; it resolves to [null] for the JSON text [null];
    otherwise it resolves to a value of which the handler reads the
    properties [ruleId], [context] and [conversationHistory], each
    [undefined] or absent on a value that has none. *)
Inductive RequestBody :=
| BodyNotJson
| BodyNull
| BodyValue (request : InvokeRequest.t).

(** What the route reads of the result of [processManual]. *)
Module ProcessResult.
Record t := mk {
  success : bool;
  output : option string;
  error : option string;
}.
End ProcessResult.

(** [ManualInvocationResult] *)
Module ManualInvocationResult.
Record t := mk {
  success : bool;
  ruleId : JSVal;
  ruleName : JSVal;
  output : option string;
  error : option string;
  executedAt : string;
}.
End ManualInvocationResult.

(** The JSON body of a response: [{ error }] or [{ success: true, result }]. *)
Inductive ResponseBody :=
| ErrorBody (error : string)
| InvokedBody (result : ManualInvocationResult.t).

Record Response := mkResponse {
  status : Z;
  body : ResponseBody;
}.

(** One call of [triggerProcessingService.processManual] with its arguments. *)
Record Invocation := mkInvocation {
  inv_userId : string;
  inv_rule : ExecutionRule.t;
  inv_context : string;
  inv_conversationHistory : option (list (string * string));
}.

(** What a request leaves behind: the response, the database, and the calls
    of [processManual] it made. *)
Record Outcome := mkOutcome {
  response : Response;
  db_after : DB;
  invocations : list Invocation;
}.

(** [typeof v !== 'string'] *)
Definition not_a_string (v : JSVal) : bool :=
  match v with JStr _ => false | _ => true end.

(** [v !== s] for a string literal [s] *)
Definition js_strict_ne (v : JSVal) (s : string) : bool :=
  match v with JStr x => negb (String.eqb x s) | _ => true end.

Section InvokeRoute.

Variable isSupabase : bool.
Variable LocalTZA : Z -> bool -> Z.

(** [triggerProcessingService.processManual]: runs the steps of the rule
    and records the run; it changes the database and resolves to a
    result, or rejects ([None]). Its code is outside these sources. *)
Variable processManual :
  string -> ExecutionRule.t -> string -> option (list (string * string)) ->
  DB -> option ProcessResult.t * DB.

(** [POST(request)]; [session] is what [auth.api.getSession] resolves to,
    [body] what becomes of [await request.json()] and [clock] what
    [new Date()] reads. Whatever throws inside the handler is caught and
    answered 500. *)
Definition POST (session : option Session) (body : RequestBody)
    (clock : Z) (db : DB) : Outcome :=
  match session with
  | None => mkOutcome (mkResponse 401 (ErrorBody "Unauthorized")) db []
  | Some session =>
      match body with
      | BodyNotJson =>
          (* request.json() rejects *)
          mkOutcome (mkResponse 500 (ErrorBody "Failed to invoke execution rule")) db []
      | BodyNull =>
          (* body.ruleId throws a TypeError *)
          mkOutcome (mkResponse 500 (ErrorBody "Failed to invoke execution rule")) db []
      | BodyValue request =>
          (* Validate required fields *)
          if negb (truthy (InvokeRequest.ruleId request))
             || not_a_string (InvokeRequest.ruleId request)
          then mkOutcome (mkResponse 400 (ErrorBody "Rule ID is required")) db []
          else
            let ruleId :=
              match InvokeRequest.ruleId request with JStr s => s | _ => "" end in
            (* Get the rule and verify ownership *)
            match executionRulesStorage.getByIdAndUser isSupabase LocalTZA ruleId
                    (session_userId session) (rules db) with
            | None => mkOutcome (mkResponse 404 (ErrorBody "Rule not found")) db []
            | Some rule =>
                (* Check if rule is active *)
                if negb (ExecutionRule.isActive rule)
                then mkOutcome (mkResponse 400 (ErrorBody "Rule is not active")) db []
                (* Check if rule supports manual invocation *)
                else if js_strict_ne (ExecutionRule.activationMode rule) "manual"
                        && js_strict_ne (ExecutionRule.activationMode rule) "all"
                then
                  mkOutcome
                    (mkResponse 400 (ErrorBody "Rule does not support manual invocation"))
                    db []
                else
                  (* Execute the rule with manual context + conversation history *)
                  let context := default "" (InvokeRequest.context request) in
                  let history := InvokeRequest.conversationHistory request in
                  let userId := session_userId session in
                  let call := mkInvocation userId rule context history in
                  match processManual userId rule context history db with
                  | (Some result, db') =>
                      let response :=
                        {| ManualInvocationResult.success := ProcessResult.success result;
                           ManualInvocationResult.ruleId := ExecutionRule.id rule;
                           ManualInvocationResult.ruleName := ExecutionRule.name rule;
                           ManualInvocationResult.output := ProcessResult.output result;
                           ManualInvocationResult.error := ProcessResult.error result;
                           ManualInvocationResult.executedAt :=
                             JSDate.toISOString clock |} in
                      mkOutcome (mkResponse 200 (InvokedBody response)) db' [call]
                  | (None, db') =>
                      mkOutcome
                        (mkResponse 500 (ErrorBody "Failed to invoke execution rule"))
                        db' [call]
                  end
            end
      end
  end.

End InvokeRoute.

(* ===================================================================== *)
(** ** Logs of a rule: [GET /api/automations/[id]/logs] *)
(* ===================================================================== *)

(** The query of the request: what [searchParams.get] returns for ['limit']
    and ['offset'], [None] for a parameter that is absent. *)
Module LogsQuery.
Record t := mk {
  limit : option string;
  offset : option string;
}.
End LogsQuery.

(** The JSON body of the answer: [{ error }] or [{ logs, total, stats }]. *)
Inductive LogsBody :=
| LogsError (error : string)
| LogsPage (logs : list ExecutionLogEntry.t) (total : Z) (stats : ExecutionLogStats).

Record LogsResponse := mkLogsResponse {
  logs_status : Z;
  logs_body : LogsBody;
}.

Section LogsRoute.

Variable isSupabase : bool.
Variable LocalTZA : Z -> bool -> Z.

(** [parseInt(s, 10)] of the JavaScript host; NaN is [None]. *)
Variable parseInt : string -> option Z.

(** The order in which the executor returns the rows of the query of this
    request. *)
Variable order : list LogRow -> list LogRow.

(** [searchParams.get(name) || fallback] *)
Definition paramOr (value : option string) (fallback : string) : string :=
  match value with
  | Some s => if String.eqb s "" then fallback else s
  | None => fallback
  end.

(** [GET(request, { params })]; [id] is the [id] of the path. A NaN among
    the query parameters is no bigint: the query is rejected, as for a
    negative number, and the handler answers 500. *)
Definition GET (session : option Session) (id : string) (query : LogsQuery.t)
    (db : DB) : LogsResponse :=
  match session with
  | None => mkLogsResponse 401 (LogsError "Unauthorized")
  | Some session =>
      (* Verify rule belongs to user *)
      match executionRulesStorage.getByIdAndUser isSupabase LocalTZA id
              (session_userId session) (rules db) with
      | None => mkLogsResponse 404 (LogsError "Rule not found")
      | Some rule =>
          let limit := parseInt (paramOr (LogsQuery.limit query) "50") in
          let offset := parseInt (paramOr (LogsQuery.offset query) "0") in
          let page :=
            match limit, offset with
            | Some l, Some o =>
                executionLogStorage.getByRuleId isSupabase LocalTZA order id (Some l)
                  (Some o) (logs db)
            | _, _ => None
            end in
          match page with
          | Some (entries, total) =>
              let stats := executionLogStorage.getStatsByRuleId id (logs db) in
              mkLogsResponse 200 (LogsPage entries total stats)
          | None => mkLogsResponse 500 (LogsError "Failed to fetch execution logs")
          end
      end
  end.

End LogsRoute.

(* ===================================================================== *)
(** ** Vocabulary of the properties *)
(* ===================================================================== *)

(** The length of a schedule interval in milliseconds. *)
Definition intervalMs (interval : ScheduleInterval) : Z :=
  match interval with
  | Every15min => 15 * JSDate.msPerMinute
  | Hourly => JSDate.msPerHour
  | Daily => 24 * JSDate.msPerHour
  | Weekly => 7 * 24 * JSDate.msPerHour
  end.

(** A host whose local time is UTC. *)
Definition zone_utc : Z -> bool -> Z := fun _ _ => 0.

(** A host on New York time around 10 March 2024: UTC-5 until the clocks go
    forward at 07:00 UTC (02:00 local), UTC-4 after. A local time the
    change skips is read with the offset before the change. *)
Definition zone_spring_forward : Z -> bool -> Z :=
  fun t isUTC =>
    if isUTC then
      if t <? 1710054000000 then -5 * JSDate.msPerHour else -4 * JSDate.msPerHour
    else
      if t <? 1710054000000 - 4 * JSDate.msPerHour
      then -5 * JSDate.msPerHour else -4 * JSDate.msPerHour.

(** A host on New York time around 3 November 2024: UTC-4 until the clocks
    go back at 06:00 UTC (02:00 local), UTC-5 after. A local time that
    occurs twice is read with the offset before the change. *)
Definition zone_fall_back : Z -> bool -> Z :=
  fun t isUTC =>
    if isUTC then
      if t <? 1730613600000 then -4 * JSDate.msPerHour else -5 * JSDate.msPerHour
    else
      if t <? 1730613600000 - 4 * JSDate.msPerHour
      then -4 * JSDate.msPerHour else -5 * JSDate.msPerHour.

(** [null] or [undefined]. *)
Definition nullish (v : JSVal) : Prop := v = JNull \/ v = JUndefined.

(** [{ platform: 'none', format: 'summary' }] *)
Definition defaultOutputConfig : JSVal :=
  JObj [("platform", JStr "none"); ("format", JStr "summary")].

Section ReadVocabulary.

Variable isSupabase : bool.
Variable LocalTZA : Z -> bool -> Z.

(** [rule] is what one of the read operations of the rule storage returns
    on the table [tbl] ([create] and [update] return what [get] reads). *)
Definition returned_by_read (tbl : RuleTable) (rule : ExecutionRule.t) : Prop :=
  (exists userId,
     rule ∈ executionRulesStorage.getByUserId isSupabase LocalTZA userId tbl)
  \/ (exists userId,
        rule ∈ executionRulesStorage.getActiveByUserId isSupabase LocalTZA userId tbl)
  \/ (exists id, executionRulesStorage.get isSupabase LocalTZA id tbl = Some rule)
  \/ (exists userId,
        rule ∈ executionRulesStorage.getManualRules isSupabase LocalTZA userId tbl)
  \/ (exists dbNow,
        rule ∈ executionRulesStorage.getScheduledRulesDue isSupabase LocalTZA dbNow tbl)
  \/ (exists id userId,
        executionRulesStorage.getByIdAndUser isSupabase LocalTZA id userId tbl
        = Some rule).

End ReadVocabulary.

(** A stored rule with the given id, owner, priority, activity, activation
    mode and time of last update; the other columns as [create] leaves them
    for an input without schedule. *)
Definition sample_row (id userId : string) (priority : Z) (active : bool)
    (mode : string) (updatedAt : Z) : RuleRow :=
  fun c =>
    match c with
    | c_id => JStr id
    | c_userId => JStr userId
    | c_name => JStr ("rule " +:+ id)
    | c_description => JNull
    | c_isActive => JBool active
    | c_priority => JNum priority
    | c_acceptedTriggers => JArr [JStr "gmail_new_email"]
    | c_topicCondition => JStr "When I get an email from boss"
    | c_executionSteps =>
        JArr [JObj [("type", JStr "instruction"); ("content", JStr "Forward to Slack")]]
    | c_outputConfig => JObj [("platform", JStr "slack"); ("format", JStr "summary")]
    | c_executionCount => JNum 0
    | c_lastExecutedAt => JNull
    | c_createdAt => JDate 1700000000000
    | c_updatedAt => JDate updatedAt
    | c_activationMode => JStr mode
    | c_scheduleEnabled => JBool false
    | c_scheduleInterval => JNull
    | c_scheduleLastRun => JNull
    | c_scheduleNextRun => JNull
    end.

(** A row whose nullable columns are all NULL. *)
Definition null_row (id userId : string) : RuleRow :=
  fun c =>
    match c with
    | c_id => JStr id
    | c_userId => JStr userId
    | _ => JNull
    end.

(** The priority of a returned rule is at least that of another. *)
Definition rule_priority_ge (a b : ExecutionRule.t) : Prop :=
  match ExecutionRule.priority a, ExecutionRule.priority b with
  | JNum x, JNum y => y <= x
  | _, _ => False
  end.

(** A returned rule may be selected on the trigger path. *)
Definition trigger_eligible (rule : ExecutionRule.t) : Prop :=
  ExecutionRule.isActive rule = true
  /\ (ExecutionRule.activationMode rule = JStr "trigger"
      \/ ExecutionRule.activationMode rule = JStr "all").

(** Five stored rules: four of user_1 (two that tie on priority 5, one for
    manual invocation only, one inactive) and one of user_2. *)
Definition sample_rules : RuleTable :=
  [ sample_row "r_old" "user_1" 5 true "trigger" 1700000100000;
    sample_row "r_new" "user_1" 5 true "trigger" 1700000200000;
    sample_row "r_manual" "user_1" 9 true "manual" 1700000150000;
    sample_row "r_off" "user_1" 7 false "trigger" 1700000120000;
    sample_row "r_other" "user_2" 8 true "all" 1700000010000 ].

(** A rule on a daily schedule whose next run was due at [nextRun]. *)
Definition due_row (id userId : string) (nextRun : Z) : RuleRow :=
  fun c =>
    match c with
    | c_activationMode => JStr "scheduled"
    | c_scheduleEnabled => JBool true
    | c_scheduleInterval => JStr "daily"
    | c_scheduleNextRun => JDate nextRun
    | c_priority => JNum 0
    | c_isActive => JBool true
    | c_updatedAt => JDate 1700000000000
    | _ => sample_row id userId 0 true "scheduled" 1700000000000 c
    end.

(** What [updateScheduleRun] leaves of a row [r] it applies to, for the next
    run [next] and the database time [dbNow]. *)
Definition schedule_advanced (next dbNow : Z) (r r' : RuleRow) : Prop :=
  r' c_scheduleNextRun = JDate next
  /\ r' c_scheduleLastRun = JDate dbNow
  /\ r' c_lastExecutedAt = JDate dbNow
  /\ r' c_executionCount = sql_incr (r c_executionCount)
  /\ forall c, c <> c_scheduleNextRun -> c <> c_scheduleLastRun ->
               c <> c_lastExecutedAt -> c <> c_executionCount -> r' c = r c.

(** The column of a field the input gives, none when it is absent. *)
Definition given {A} (field : option A) (c : Column) : list Column :=
  match field with Some _ => [c] | None => [] end.

(** The columns an update input specifies. *)
Definition specified (input : ExecutionRuleInput.t) : list Column :=
  given (ExecutionRuleInput.name input) c_name
  ++ given (ExecutionRuleInput.description input) c_description
  ++ given (ExecutionRuleInput.isActive input) c_isActive
  ++ given (ExecutionRuleInput.priority input) c_priority
  ++ given (ExecutionRuleInput.acceptedTriggers input) c_acceptedTriggers
  ++ given (ExecutionRuleInput.topicCondition input) c_topicCondition
  ++ given (ExecutionRuleInput.executionSteps input) c_executionSteps
  ++ given (ExecutionRuleInput.outputConfig input) c_outputConfig
  ++ given (ExecutionRuleInput.activationMode input) c_activationMode
  ++ given (ExecutionRuleInput.scheduleEnabled input) c_scheduleEnabled
  ++ given (ExecutionRuleInput.scheduleInterval input) c_scheduleInterval.

(** The input makes [update] recalculate the next run: it gives an interval
    and does not switch the schedule off. *)
Definition recalculates (input : ExecutionRuleInput.t) : Prop :=
  ExecutionRuleInput.scheduleInterval input <> None
  /\ ExecutionRuleInput.scheduleEnabled input <> Some false.

#[global] Instance recalculates_dec input : Decision (recalculates input).
Proof. unfold recalculates. apply _. Defined.

(** A row with its schedule enabled has a next run. *)
Definition schedule_set (r : RuleRow) : Prop :=
  r c_scheduleEnabled = JBool true -> exists t, r c_scheduleNextRun = JDate t.

(** An input that enables the schedule also names the interval. *)
Definition enables_with_interval (input : ExecutionRuleInput.t) : Prop :=
  ExecutionRuleInput.scheduleEnabled input = Some true ->
  ExecutionRuleInput.scheduleInterval input <> None.

(** The tables [create] and [update] lead to from the empty table, with
    inputs that satisfy [ok]. *)
Inductive reachable_with (isSupabase : bool) (LocalTZA : Z -> bool -> Z)
    (ok : ExecutionRuleInput.t -> Prop) : RuleTable -> Prop :=
| reach_empty : reachable_with isSupabase LocalTZA ok []
| reach_create tbl id userId input clock dbNow tbl' created :
    reachable_with isSupabase LocalTZA ok tbl ->
    ok input ->
    executionRulesStorage.create isSupabase LocalTZA id userId input clock dbNow tbl
    = Some (tbl', created) ->
    reachable_with isSupabase LocalTZA ok tbl'
| reach_update tbl id input clock tbl' updated :
    reachable_with isSupabase LocalTZA ok tbl ->
    ok input ->
    executionRulesStorage.update isSupabase LocalTZA id input clock tbl
    = Some (tbl', updated) ->
    reachable_with isSupabase LocalTZA ok tbl'.

(** An input that only enables the schedule. *)
Definition input_enable_only : ExecutionRuleInput.t :=
  ExecutionRuleInput.mk None None None None None None None None None (Some true) None.

(** An input that only sets the interval to [daily]. *)
Definition input_daily_only : ExecutionRuleInput.t :=
  ExecutionRuleInput.mk None None None None None None None None None None (Some Daily).

(** A complete input for a rule on a daily schedule. *)
Definition input_daily_rule : ExecutionRuleInput.t :=
  ExecutionRuleInput.mk (Some "Daily Email Digest")
    (Some "Summarize unread emails every morning") (Some true) (Some 10)
    (Some ["gmail_new_email"]) (Some "When emails pile up")
    (Some [JObj [("type", JStr "instruction"); ("content", JStr "Fetch unread emails")]])
    (Some (JObj [("platform", JStr "slack"); ("format", JStr "summary")]))
    (Some ModeScheduled) (Some true) (Some Daily).

(** A complete input for a rule whose schedule is off but has an interval. *)
Definition input_schedule_off : ExecutionRuleInput.t :=
  ExecutionRuleInput.mk (Some "Weekly report") None (Some true) (Some 1)
    (Some []) (Some "Every Monday")
    (Some [JObj [("type", JStr "instruction"); ("content", JStr "Write the report")]])
    (Some (JObj [("platform", JStr "none"); ("format", JStr "summary")]))
    (Some ModeScheduled) (Some false) (Some Weekly).

(** A database with the sample rules and no log entry. *)
Definition sample_db : DB := {| rules := sample_rules; logs := [] |}.

(** A [processManual] that reports success and records nothing. *)
Definition processManual_stub (userId : string) (rule : ExecutionRule.t)
    (context : string) (history : option (list (string * string))) (db : DB)
    : option ProcessResult.t * DB :=
  (Some (ProcessResult.mk true (Some "done") None), db).

(** A log entry to write for a run of rule r_1 of user_1. *)
Definition sample_log (status : LogStatus) (durationMs : Z) : NewLog.t :=
  NewLog.mk "r_1" "Daily Email Digest" "user_1" "scheduled" status
    (Some [JObj [("stepIndex", JNum 0); ("type", JStr "instruction");
                 ("success", JBool true); ("result", JStr "Fetched 12 emails")]])
    (Some "Morning digest") None (Some durationMs).

(** The log after runs of the given durations, all successful, in order;
    a run whose entry cannot be written leaves the log as it is. *)
Fixpoint logged_runs (n : nat) (durations : list Z) (tbl : LogTable) : LogTable :=
  match durations with
  | [] => tbl
  | d :: rest =>
      logged_runs (S n) rest
        (default tbl
           (executionLogStorage.create ("log_" +:+ pretty n)
              (sample_log StatusSuccess d) (1700000000000 + d) tbl))
  end.


(** The value an update input gives for a column, [None] for a column it
    does not specify. *)
Definition input_value (input : ExecutionRuleInput.t) (c : Column) : option JSVal :=
  match c with
  | c_name => JStr <$> ExecutionRuleInput.name input
  | c_description => JStr <$> ExecutionRuleInput.description input
  | c_isActive => JBool <$> ExecutionRuleInput.isActive input
  | c_priority => JNum <$> ExecutionRuleInput.priority input
  | c_acceptedTriggers =>
      (fun l => JArr (map JStr l)) <$> ExecutionRuleInput.acceptedTriggers input
  | c_topicCondition => JStr <$> ExecutionRuleInput.topicCondition input
  | c_executionSteps => JArr <$> ExecutionRuleInput.executionSteps input
  | c_outputConfig => ExecutionRuleInput.outputConfig input
  | c_activationMode =>
      (fun m => JStr (ActivationMode_str m)) <$> ExecutionRuleInput.activationMode input
  | c_scheduleEnabled => JBool <$> ExecutionRuleInput.scheduleEnabled input
  | c_scheduleInterval =>
      (fun i => JStr (ScheduleInterval_str i))
        <$> ExecutionRuleInput.scheduleInterval input
  | _ => None
  end.

(** The value of a decimal digit. *)
Definition digit_of (a : Ascii.ascii) : option Z :=
  let n := Z.of_N (Ascii.N_of_ascii a) in
  if (48 <=? n) && (n <=? 57) then Some (n - 48) else None.

(** The number the leading decimal digits of [s] spell after [acc], [acc]
    when there is none. *)
Fixpoint leading_digits (s : string) (acc : option Z) : option Z :=
  match s with
  | EmptyString => acc
  | String a rest =>
      match digit_of a with
      | Some d => leading_digits rest (Some (10 * default 0 acc + d))
      | None => acc
      end
  end.

(** [parseInt(s, 10)] for a string that starts without white space and
    spells a number the doubles hold exactly: an optional sign and the
    leading digits, NaN ([None]) without a digit. *)
Definition parseInt_decimal (s : string) : option Z :=
  match s with
  | String a rest =>
      let sign := Z.of_N (Ascii.N_of_ascii a) in
      if sign =? 45 then Z.opp <$> leading_digits rest None       (* - *)
      else if sign =? 43 then leading_digits rest None            (* + *)
      else leading_digits s None
  | EmptyString => None
  end.

(** A database with the sample rules and the log of three runs of rule
    r_manual. *)
Definition sample_db_logged : DB :=
  {| rules := sample_rules;
     logs :=
       [ mkLogRow "log_1" "r_manual" "rule r_manual" "user_1" "manual" StatusSuccess
           (Some (JArr [])) (Some "done") None (Some 1200) 1700000300000;
         mkLogRow "log_2" "r_manual" "rule r_manual" "user_1" "manual" StatusFailure
           (Some (JArr [])) None (Some "timeout") None 1700000500000;
         mkLogRow "log_3" "r_old" "rule r_old" "user_1" "gmail_new_email" StatusSuccess
           (Some (JArr [])) None None (Some 800) 1700000400000 ] |}.

(** An executor that leaves rows of equal [createdAt] in the order of the
    table, and one that returns them in the opposite order. *)
Definition ties_in_table_order : list LogRow -> list LogRow :=
  merge_sort by_createdAt_desc.

Definition ties_reversed (rows : list LogRow) : list LogRow :=
  merge_sort by_createdAt_desc (reverse rows).

(** No two entries of the table were written at the same time. *)
Definition distinct_createdAt (tbl : LogTable) : Prop :=
  forall r1 r2,
    r1 ∈ tbl -> r2 ∈ tbl -> log_createdAt r1 = log_createdAt r2 -> r1 = r2.

(** The value of a binary64 float of the kernel, [None] for NaN and the
    infinities. *)
Definition float_value (f : PrimFloat.float) : option Q :=
  match FloatOps.Prim2SF f with
  | SpecFloat.S754_zero _ => Some 0%Q
  | SpecFloat.S754_finite negative m e =>
      let v := (inject_Z (Zpos m) * Double.pow2 e)%Q in
      Some (Qred (if negative then - v else v)%Q)
  | _ => None
  end.

(** [s / t * 100] computed by the binary64 operations of the kernel. *)
Definition binary64_percentage (s t : Z) : option Q :=
  let number n := PrimFloat.of_uint63 (Uint63.of_Z n) in
  float_value (PrimFloat.mul (PrimFloat.div (number s) (number t)) (number 100)).

(** The binary64 float [m * 2^e] of the kernel, for [0 <= m < 2^53]. *)
Definition binary64 (m e : Z) : PrimFloat.float :=
  FloatOps.Z.ldexp (PrimFloat.of_uint63 (Uint63.of_Z m)) e.

(** A number of [Double] is the value of a float of the kernel. *)
Definition same_number (a : JSNumber) (f : PrimFloat.float) : bool :=
  match a, float_value f with
  | Finite q, Some q' => Qeq_bool q q'
  | Infinity negative, None =>
      match FloatOps.Prim2SF f with
      | SpecFloat.S754_infinity negative' => Bool.eqb negative negative'
      | _ => false
      end
  | _, _ => false
  end.

(** Operands [(m1, e1, m2, e2)] for [m1 * 2^e1] and [m2 * 2^e2]: ordinary
    ones, ties between two doubles, results that are subnormal, that
    underflow to zero and that overflow. *)
Definition operand_samples : list (Z * Z * Z * Z) :=
  [ (1, 0, 3, 0); (2, 0, 3, 0); (1, 0, 10, 0); (7, 0, 9, 0);
    (6004799503160661, -54, 100, 0);
    (4503599627370497, 0, 4503599627370499, 0);
    (4503599627370496, 0, 4503599627370497, 0);
    (4503599627370499, 0, 3, -2); (9007199254740991, 0, 9007199254740991, 0);
    (3, -1074, 1, -1); (5, -1074, 1, -1); (1, -1074, 1, -1); (3, -1074, 1, -2);
    (4503599627370497, -1074, 3, -2); (6369051672525773, -550, 7, -550);
    (5, -600, 3, -600); (9007199254740991, 971, 2, 0);
    (9007199254740991, 971, 4503599627370497, -52);
    (6369051672525773, 500, 8106479329266893, 500);
    (6369051672525773, 471, 9007199254740991, 500) ].

(** The pairs [(s, t)] with [0 <= s <= t] and [1 <= t <= n]. *)
Definition shares (n : nat) : list (Z * Z) :=
  t ← seqZ 1 (Z.of_nat n);
  (fun s => (s, t)) <$> seqZ 0 (t + 1).
(* ===================================================================== *)
(** * Properties *)
(* ===================================================================== *)

(** ** Dates: sanity checks of the calendar operations *)

Example toISOString_epoch : JSDate.toISOString 0 = "1970-01-01T00:00:00.000Z".
Proof. vm_compute. reflexivity. Qed.

Example toISOString_2024 :
  JSDate.toISOString 1710003600123 = "2024-03-09T17:00:00.123Z".
Proof. vm_compute. reflexivity. Qed.

Example toISOString_leap_day :
  JSDate.toISOString 1709251199999 = "2024-02-29T23:59:59.999Z".
Proof. vm_compute. reflexivity. Qed.

Example toISOString_1969 :
  JSDate.toISOString (-1) = "1969-12-31T23:59:59.999Z".
Proof. vm_compute. reflexivity. Qed.

Example toString_2024_utc :
  JSDate.toString (fun _ _ => 0) 1710003600123 = "Sat Mar 09 2024 17:00:00 GMT+0000".
Proof. vm_compute. reflexivity. Qed.

Example toString_2024_est :
  JSDate.toString (fun _ _ => -18000000) 1710003600123
  = "Sat Mar 09 2024 12:00:00 GMT-0500".
Proof. vm_compute. reflexivity. Qed.

(** ** Dates: the setters add to the time value *)

Section DateArithmetic.

Import JSDate.

(** A time value is its day number and its hour, minute, second and
    millisecond within the day. *)
Lemma time_decomposition (t : Z) :
  MakeDate (Day t)
    (MakeTime (HourFromTime t) (MinFromTime t) (SecFromTime t) (msFromTime t)) = t.
Proof.
  unfold MakeDate, MakeTime, Day, HourFromTime, MinFromTime, SecFromTime,
    msFromTime, msPerDay, msPerHour, msPerMinute, msPerSecond.
  Z.div_mod_to_equations. lia.
Qed.

Lemma day_decomposition (t : Z) : MakeDate (Day t) (TimeWithinDay t) = t.
Proof.
  unfold MakeDate, Day, TimeWithinDay, msPerDay.
  Z.div_mod_to_equations. lia.
Qed.

Lemma MonthFromTime_range (t : Z) : 0 <= MonthFromTime t <= 11.
Proof.
  unfold MonthFromTime.
  repeat match goal with |- context [if ?b then _ else _] => destruct b end; lia.
Qed.

(** The day number of a date of the month [t] lies in: [MakeDay] counts
    from the first of that month. *)
Lemma MakeDay_same_month (t k : Z) :
  MakeDay (YearFromTime t) (MonthFromTime t) (DateFromTime t + k) = Day t + k.
Proof.
  pose proof (MonthFromTime_range t) as Hm.
  unfold MakeDay.
  replace (MonthFromTime t / 12) with 0 by (symmetry; apply Z.div_small; lia).
  rewrite Z.mod_small by lia.
  rewrite Z.add_0_r.
  unfold DateFromTime, DayWithinYear, InLeapYear. lia.
Qed.

Variable LocalTZA : Z -> bool -> Z.
Variable offset : Z.

(** The host's zone keeps one offset from UTC (no daylight saving). *)
Hypothesis fixed : forall t isUTC, LocalTZA t isUTC = offset.

Lemma setMinutes_add (tv k : Z) :
  setMinutes LocalTZA tv (getMinutes LocalTZA tv + k) = TimeClip (tv + k * msPerMinute).
Proof.
  unfold setMinutes, getMinutes, UTC, LocalTime. rewrite !fixed.
  f_equal.
  pose proof (time_decomposition (tv + offset)) as Hd.
  unfold MakeDate, MakeTime in *. lia.
Qed.

Lemma setHours_add (tv k : Z) :
  setHours LocalTZA tv (getHours LocalTZA tv + k) = TimeClip (tv + k * msPerHour).
Proof.
  unfold setHours, getHours, UTC, LocalTime. rewrite !fixed.
  f_equal.
  pose proof (time_decomposition (tv + offset)) as Hd.
  unfold MakeDate, MakeTime in *. lia.
Qed.

Lemma setDate_add (tv k : Z) :
  setDate LocalTZA tv (getDate LocalTZA tv + k) = TimeClip (tv + k * msPerDay).
Proof.
  unfold setDate, getDate, UTC, LocalTime. rewrite !fixed.
  f_equal. rewrite MakeDay_same_month.
  pose proof (day_decomposition (tv + offset)) as Hd.
  unfold MakeDate in *. lia.
Qed.

End DateArithmetic.

(** [YearFromTime t] is the year [t] lies in: the largest [y] with
    [TimeFromYear y <= t]. *)
Lemma YearFromTime_spec (t : Z) :
  JSDate.DayFromYear (JSDate.YearFromTime t) <= JSDate.Day t
  < JSDate.DayFromYear (JSDate.YearFromTime t + 1).
Proof.
  unfold JSDate.YearFromTime.
  set (d := JSDate.Day t). clearbody d.
  set (y0 := 1970 + d * 400 / 146097).
  assert (Hy : y0 = 1970 + d * 400 / 146097) by reflexivity. clearbody y0.
  destruct (Z.ltb_spec d (JSDate.DayFromYear y0)) as [H1 | H1].
  - replace (y0 - 1 + 1) with y0 by lia.
    split; [| exact H1].
    unfold JSDate.DayFromYear in *. Z.div_mod_to_equations. lia.
  - destruct (Z.leb_spec (JSDate.DayFromYear (y0 + 1)) d) as [H2 | H2].
    + split; [exact H2 |].
      unfold JSDate.DayFromYear in *. Z.div_mod_to_equations. lia.
    + split; [exact H1 | exact H2].
Qed.

(* ===================================================================== *)
(** ** Next-run times *)
(* ===================================================================== *)

Lemma intervalMs_pos (interval : ScheduleInterval) : 0 < intervalMs interval.
Proof. destruct interval; vm_compute; reflexivity. Qed.

Lemma TimeClip_in_range (t : Z) :
  Z.abs t <= JSDate.maxTime -> JSDate.TimeClip t = Some t.
Proof.
  intros H. unfold JSDate.TimeClip.
  destruct (Z.ltb_spec JSDate.maxTime (Z.abs t)); [lia | reflexivity].
Qed.

(** With one offset all year, [calculateNextRunTime] adds the length of the
    interval to the time it starts from. *)
Lemma calculateNextRunTime_fixed (LocalTZA : Z -> bool -> Z) (offset : Z)
    (interval : ScheduleInterval) (fromDate : option Z) (clock : Z) :
  (forall t isUTC, LocalTZA t isUTC = offset) ->
  calculateNextRunTime LocalTZA interval fromDate clock
  = JSDate.TimeClip (default clock fromDate + intervalMs interval).
Proof.
  intros Hfixed. unfold calculateNextRunTime.
  destruct interval; cbn [intervalMs].
  - rewrite (setMinutes_add _ _ Hfixed). reflexivity.
  - rewrite (setHours_add _ _ Hfixed). f_equal; lia.
  - rewrite (setDate_add _ _ Hfixed).
    f_equal; unfold JSDate.msPerDay, JSDate.msPerHour; lia.
  - rewrite (setDate_add _ _ Hfixed).
    f_equal; unfold JSDate.msPerDay, JSDate.msPerHour; lia.
Qed.

(** The row [create] inserts is found again by [get]. *)
Lemma get_after_insert (isSupabase : bool) (LocalTZA : Z -> bool -> Z)
    (id userId : string) (input : ExecutionRuleInput.t) (nextRun : JSVal) (dbNow : Z)
    (tbl : RuleTable) :
  exists created,
    executionRulesStorage.get isSupabase LocalTZA id
        (tbl ++ [insertedRow id userId input nextRun dbNow])
    = Some created.
Proof.
  assert (Hin : filter (has_id id) (tbl ++ [insertedRow id userId input nextRun dbNow])
                = filter (has_id id) tbl ++ [insertedRow id userId input nextRun dbNow]).
  { rewrite filter_app. f_equal.
    rewrite filter_cons_True; [reflexivity |].
    unfold has_id. cbn. apply String.eqb_refl. }
  unfold executionRulesStorage.get. rewrite Hin.
  destruct (filter (has_id id) tbl); cbn; eauto.
Qed.

(** C3 (as it holds). On a host whose time zone keeps one UTC offset, and
    as long as the result is a valid date, the next-run time of every
    interval is the base time plus the length of the interval, hence
    strictly later, and for [daily] the base time plus 24 hours exactly; a
    rule created at [clock] with [scheduleEnabled = true] and
    [scheduleInterval = daily] is stored with [scheduleNextRun] 24 hours
    after [clock]. *)
Theorem nextRun_fixed_offset (isSupabase : bool) (LocalTZA : Z -> bool -> Z)
    (offset : Z) :
  (forall t isUTC, LocalTZA t isUTC = offset) ->
  (forall interval fromDate clock,
     Z.abs (default clock fromDate + intervalMs interval) <= JSDate.maxTime ->
     exists next,
       calculateNextRunTime LocalTZA interval fromDate clock = Some next
       /\ default clock fromDate < next
       /\ next = default clock fromDate + intervalMs interval
       /\ (interval = Daily -> next = default clock fromDate + 24 * 3600000))
  /\ (forall id userId input clock dbNow tbl,
        ExecutionRuleInput.scheduleEnabled input = Some true ->
        ExecutionRuleInput.scheduleInterval input = Some Daily ->
        Z.abs (clock + 24 * 3600000) <= JSDate.maxTime ->
        exists row created,
          executionRulesStorage.create isSupabase LocalTZA id userId input clock dbNow tbl
          = Some (tbl ++ [row], created)
          /\ row c_scheduleNextRun = JDate (clock + 24 * 3600000)).
Proof.
  intros Hfixed. split.
  - intros interval fromDate clock Hrange.
    exists (default clock fromDate + intervalMs interval).
    rewrite (calculateNextRunTime_fixed _ _ _ _ _ Hfixed).
    rewrite TimeClip_in_range by exact Hrange.
    pose proof (intervalMs_pos interval).
    repeat split; try lia.
    intros ->. reflexivity.
  - intros id userId input clock dbNow tbl Hen Hint Hrange.
    unfold executionRulesStorage.create. rewrite Hen, Hint.
    rewrite (calculateNextRunTime_fixed _ _ _ _ _ Hfixed).
    cbn [default intervalMs].
    change (24 * JSDate.msPerHour) with (24 * 3600000).
    rewrite TimeClip_in_range by exact Hrange.
    cbn [dateParam fmap option_fmap option_map mbind option_bind].
    destruct (get_after_insert isSupabase LocalTZA id userId input
                (JDate (clock + 24 * 3600000)) dbNow tbl) as [created Hget].
    rewrite Hget. cbn.
    eexists _, created. split; [reflexivity | reflexivity].
Qed.

(** The hypotheses above hold on a UTC host, at the epoch. *)
Lemma nextRun_fixed_offset_witness :
  (forall t isUTC, zone_utc t isUTC = 0)
  /\ calculateNextRunTime zone_utc Daily None 0 = Some 86400000.
Proof.
  split; [reflexivity |].
  destruct (nextRun_fixed_offset false zone_utc 0 (fun _ _ => eq_refl)) as [Hcalc _].
  destruct (Hcalc Daily None 0) as (next & Hnext & _ & Heq & _).
  - vm_compute. discriminate.
  - rewrite Hnext, Heq. reflexivity.
Defined.

(** C3 (as stated) fails where the host's zone has daylight saving: from
    Saturday 9 March 2024 12:00 in New York, [daily] leads to Sunday 12:00,
    which is 23 hours later, not 24. *)
Lemma nextRun_daily_not_24h :
  calculateNextRunTime zone_spring_forward Daily None 1710003600000
  = Some (1710003600000 + 23 * 3600000)
  /\ calculateNextRunTime zone_spring_forward Daily None 1710003600000
     <> Some (1710003600000 + 24 * 3600000).
Proof. split; [vm_compute; reflexivity | vm_compute; discriminate]. Qed.

(** Where a local hour occurs twice, the next run of [15min] can even lie
    before the base time: from 01:20 EST (the second 01:20 of 3 November
    2024) the setter reads 01:35 as the first one, 45 minutes earlier. *)
Lemma nextRun_15min_not_later :
  calculateNextRunTime zone_fall_back Every15min None 1730614800000
  = Some (1730614800000 - 45 * 60000).
Proof. vm_compute. reflexivity. Qed.

(* ===================================================================== *)
(** ** [mapRuleRow]: the rule read from a stored row *)
(* ===================================================================== *)

(** Closes a goal about one field of [mapRuleRow (rowObject r)] whose stored
    value is [v]: evaluate the lookups, then go through the values. *)
Ltac field_of_row v :=
  vm_compute;
  destruct v as [ | | [ | ] | ? | ? | ? | ? | ? ];
  repeat case_match; congruence.

Section MappedFields.

Variable isSupabase : bool.
Variable LocalTZA : Z -> bool -> Z.
Variable r : RuleRow.

Let rule := mapRuleRow LocalTZA (rowObject isSupabase r).

Lemma mapped_id : ExecutionRule.id rule = r c_id.
Proof. subst rule. destruct isSupabase; reflexivity. Qed.

Lemma mapped_name : ExecutionRule.name rule = r c_name.
Proof. subst rule. destruct isSupabase; reflexivity. Qed.

Lemma mapped_isActive : ExecutionRule.isActive rule = Boolean (r c_isActive).
Proof. subst rule. destruct isSupabase; field_of_row (r c_isActive). Qed.

Lemma mapped_scheduleEnabled :
  ExecutionRule.scheduleEnabled rule = Boolean (r c_scheduleEnabled).
Proof. subst rule. destruct isSupabase; field_of_row (r c_scheduleEnabled). Qed.

Lemma mapped_priority : ExecutionRule.priority rule = js_or (r c_priority) (JNum 0).
Proof. subst rule. destruct isSupabase; field_of_row (r c_priority). Qed.

Lemma mapped_executionCount :
  ExecutionRule.executionCount rule = js_or (r c_executionCount) (JNum 0).
Proof. subst rule. destruct isSupabase; field_of_row (r c_executionCount). Qed.

Lemma mapped_acceptedTriggers :
  ExecutionRule.acceptedTriggers rule = js_or (r c_acceptedTriggers) (JArr []).
Proof. subst rule. destruct isSupabase; field_of_row (r c_acceptedTriggers). Qed.

Lemma mapped_executionSteps :
  ExecutionRule.executionSteps rule = js_or (r c_executionSteps) (JArr []).
Proof. subst rule. destruct isSupabase; field_of_row (r c_executionSteps). Qed.

Lemma mapped_outputConfig :
  ExecutionRule.outputConfig rule = js_or (r c_outputConfig) defaultOutputConfig.
Proof. subst rule. destruct isSupabase; field_of_row (r c_outputConfig). Qed.

Lemma mapped_activationMode :
  ExecutionRule.activationMode rule = js_or (r c_activationMode) (JStr "trigger").
Proof. subst rule. destruct isSupabase; field_of_row (r c_activationMode). Qed.

End MappedFields.

(** [a || d] is [d] when [a] is null, and never null when [d] is not. *)
Lemma js_or_nullish (a d : JSVal) : nullish a -> js_or a d = d.
Proof. intros [-> | ->]; reflexivity. Qed.

Lemma js_or_not_nullish (a d : JSVal) : ~ nullish d -> ~ nullish (js_or a d).
Proof.
  intros Hd. unfold js_or. destruct (truthy a) eqn:Ht; [| exact Hd].
  intros [-> | ->]; discriminate.
Qed.

(** Every rule a read returns is [mapRuleRow] of a row of the table. *)
Lemma read_is_mapped (isSupabase : bool) (LocalTZA : Z -> bool -> Z)
    (tbl : RuleTable) (rule : ExecutionRule.t) :
  returned_by_read isSupabase LocalTZA tbl rule ->
  exists r, r ∈ tbl /\ rule = mapRuleRow LocalTZA (rowObject isSupabase r).
Proof.
  assert (Hsorted : forall (R : relation RuleRow) `{!forall x y, Decision (R x y)}
                      (P : RuleRow -> Prop) `{!forall x, Decision (P x)},
             rule ∈ mapRows isSupabase LocalTZA (merge_sort R (filter P tbl)) ->
             exists r, r ∈ tbl /\ rule = mapRuleRow LocalTZA (rowObject isSupabase r)).
  { intros R HR P HP Hin. unfold mapRows in Hin.
    apply list_elem_of_fmap in Hin as (r & -> & Hr).
    rewrite merge_sort_Permutation in Hr.
    apply list_elem_of_filter in Hr as [_ Hr]. eauto. }
  assert (Hfirst : forall (P : RuleRow -> Prop) `{!forall x, Decision (P x)},
             match filter P tbl with
             | [] => None
             | r :: _ => Some (mapRuleRow LocalTZA (rowObject isSupabase r))
             end = Some rule ->
             exists r, r ∈ tbl /\ rule = mapRuleRow LocalTZA (rowObject isSupabase r)).
  { intros P HP Hget.
    destruct (filter P tbl) as [| r rest] eqn:Hf; [discriminate |].
    injection Hget as <-. exists r. split; [| reflexivity].
    assert (Hr : r ∈ filter P tbl) by (rewrite Hf; left).
    apply list_elem_of_filter in Hr as [_ Hr]. exact Hr. }
  intros [[u H] | [[u H] | [[i H] | [[u H] | [[n H] | (i & u & H)]]]]].
  - exact (Hsorted _ _ _ _ H).
  - exact (Hsorted _ _ _ _ H).
  - exact (Hfirst _ _ H).
  - exact (Hsorted _ _ _ _ H).
  - exact (Hsorted _ _ _ _ H).
  - exact (Hfirst _ _ H).
Qed.

(** C10. Every rule a read operation of the storage returns is
    [mapRuleRow] of a stored row [r], and it is normalized, field by field:
    [priority] is [column || 0], [executionCount] [column || 0],
    [acceptedTriggers] [column || []], [executionSteps] [column || []],
    [activationMode] [column || 'trigger'] and [outputConfig]
    [column || {platform: 'none', format: 'summary'}], so that a stored
    value that is truthy is returned as it is stored and a null column
    gives the default; these fields are never null; [isActive] and
    [scheduleEnabled] are the booleans [Boolean(column)], [false] for a
    null column. *)
Theorem read_rules_normalized (isSupabase : bool) (LocalTZA : Z -> bool -> Z)
    (tbl : RuleTable) (rule : ExecutionRule.t) :
  returned_by_read isSupabase LocalTZA tbl rule ->
  exists r, r ∈ tbl
    /\ rule = mapRuleRow LocalTZA (rowObject isSupabase r)
    /\ ExecutionRule.priority rule = js_or (r c_priority) (JNum 0)
    /\ ExecutionRule.executionCount rule = js_or (r c_executionCount) (JNum 0)
    /\ ExecutionRule.acceptedTriggers rule = js_or (r c_acceptedTriggers) (JArr [])
    /\ ExecutionRule.executionSteps rule = js_or (r c_executionSteps) (JArr [])
    /\ ExecutionRule.activationMode rule
       = js_or (r c_activationMode) (JStr "trigger")
    /\ ExecutionRule.outputConfig rule
       = js_or (r c_outputConfig)
           (JObj [("platform", JStr "none"); ("format", JStr "summary")])
    /\ (forall c field default,
          (c, field, default)
          ∈ [ (c_priority, ExecutionRule.priority, JNum 0);
              (c_executionCount, ExecutionRule.executionCount, JNum 0);
              (c_acceptedTriggers, ExecutionRule.acceptedTriggers, JArr []);
              (c_executionSteps, ExecutionRule.executionSteps, JArr []);
              (c_activationMode, ExecutionRule.activationMode, JStr "trigger");
              (c_outputConfig, ExecutionRule.outputConfig,
               JObj [("platform", JStr "none"); ("format", JStr "summary")]) ] ->
          (truthy (r c) = true -> field rule = r c)
          /\ (truthy (r c) = false -> field rule = default))
    /\ (nullish (r c_priority) -> ExecutionRule.priority rule = JNum 0)
    /\ (nullish (r c_executionCount) -> ExecutionRule.executionCount rule = JNum 0)
    /\ (nullish (r c_acceptedTriggers) -> ExecutionRule.acceptedTriggers rule = JArr [])
    /\ (nullish (r c_executionSteps) -> ExecutionRule.executionSteps rule = JArr [])
    /\ (nullish (r c_activationMode) ->
        ExecutionRule.activationMode rule = JStr "trigger")
    /\ (nullish (r c_outputConfig) ->
        ExecutionRule.outputConfig rule
        = JObj [("platform", JStr "none"); ("format", JStr "summary")])
    /\ ExecutionRule.isActive rule = Boolean (r c_isActive)
    /\ ExecutionRule.scheduleEnabled rule = Boolean (r c_scheduleEnabled)
    /\ (nullish (r c_isActive) -> ExecutionRule.isActive rule = false)
    /\ (nullish (r c_scheduleEnabled) -> ExecutionRule.scheduleEnabled rule = false)
    /\ ~ nullish (ExecutionRule.priority rule)
    /\ ~ nullish (ExecutionRule.executionCount rule)
    /\ ~ nullish (ExecutionRule.acceptedTriggers rule)
    /\ ~ nullish (ExecutionRule.executionSteps rule)
    /\ ~ nullish (ExecutionRule.activationMode rule)
    /\ ~ nullish (ExecutionRule.outputConfig rule).
Proof.
  intros Hread.
  destruct (read_is_mapped _ _ _ _ Hread) as (r & Hin & ->).
  exists r. split; [exact Hin |]. split; [reflexivity |].
  split; [apply mapped_priority |].
  split; [apply mapped_executionCount |].
  split; [apply mapped_acceptedTriggers |].
  split; [apply mapped_executionSteps |].
  split; [apply mapped_activationMode |].
  split; [apply mapped_outputConfig |].
  split.
  { intros c field default Hfield.
    repeat (apply elem_of_cons in Hfield as [[= -> -> ->] | Hfield];
            [first [rewrite mapped_priority | rewrite mapped_executionCount
                   | rewrite mapped_acceptedTriggers | rewrite mapped_executionSteps
                   | rewrite mapped_activationMode | rewrite mapped_outputConfig];
             unfold js_or; split; intros ->; reflexivity |]).
    apply elem_of_nil in Hfield. destruct Hfield. }
  rewrite mapped_priority, mapped_executionCount, mapped_acceptedTriggers,
    mapped_executionSteps, mapped_activationMode, mapped_outputConfig,
    mapped_isActive, mapped_scheduleEnabled.
  assert (Hnn : forall d, d <> JNull -> d <> JUndefined -> ~ nullish d)
    by (intros d ? ? [? | ?]; congruence).
  repeat split;
    try (apply js_or_nullish);
    try (intros [-> | ->]; reflexivity);
    try (apply js_or_not_nullish, Hnn; discriminate).
Qed.

(** The hypothesis above holds for the rule [get] reads from a row of
    NULLs, which gets the default priority. *)
Lemma read_rules_normalized_witness :
  returned_by_read true zone_utc [null_row "rule_1" "user_1"]
    (mapRuleRow zone_utc (rowObject true (null_row "rule_1" "user_1")))
  /\ ExecutionRule.priority
       (mapRuleRow zone_utc (rowObject true (null_row "rule_1" "user_1"))) = JNum 0.
Proof.
  assert (Hread : returned_by_read true zone_utc [null_row "rule_1" "user_1"]
            (mapRuleRow zone_utc (rowObject true (null_row "rule_1" "user_1")))).
  { right. right. left. exists "rule_1". reflexivity. }
  split; [exact Hread |].
  destruct (read_rules_normalized _ _ _ _ Hread) as (r & Hin & _ & Hpriority & _).
  apply list_elem_of_singleton in Hin. subst r. exact Hpriority.
Defined.

(* ===================================================================== *)
(** ** The order of the rules handed out *)
(* ===================================================================== *)

(** Decides the comparisons of a goal about the sort orders. *)
Ltac order_cases :=
  repeat match goal with
         | |- context [sql_int ?v] => destruct (sql_int v)
         | |- context [sql_timestamp ?v] => destruct (sql_timestamp v)
         end;
  cbn;
  repeat match goal with
         | |- context [Z.leb ?a ?b] => destruct (Z.leb_spec a b)
         end;
  cbn; try tauto; try lia; try discriminate; intros; try discriminate; try lia.

#[global] Instance by_priority_desc_total : Total by_priority_desc.
Proof.
  intros r1 r2. unfold by_priority_desc, null_leb. order_cases; auto.
Qed.

#[global] Instance by_priority_desc_trans : Transitive by_priority_desc.
Proof.
  intros r1 r2 r3. unfold by_priority_desc, null_leb. order_cases.
Qed.

#[global] Instance by_priority_desc_updatedAt_desc_total :
  Total by_priority_desc_updatedAt_desc.
Proof.
  intros r1 r2. unfold by_priority_desc_updatedAt_desc, null_ltb, null_leb.
  order_cases; auto.
Qed.

#[global] Instance by_priority_desc_updatedAt_desc_trans :
  Transitive by_priority_desc_updatedAt_desc.
Proof.
  intros r1 r2 r3. unfold by_priority_desc_updatedAt_desc, null_ltb, null_leb.
  order_cases.
Qed.

(** The priority [mapRuleRow] reports for a stored integer is that integer. *)
Lemma mapped_priority_int (isSupabase : bool) (LocalTZA : Z -> bool -> Z)
    (r : RuleRow) (p : Z) :
  r c_priority = JNum p ->
  ExecutionRule.priority (mapRuleRow LocalTZA (rowObject isSupabase r)) = JNum p.
Proof.
  intros Hp. rewrite mapped_priority, Hp. unfold js_or. cbn.
  destruct (Z.eqb_spec p 0) as [-> | _]; reflexivity.
Qed.

(** Rows sorted by the priority column stay sorted by the priority of the
    rules they map to, when no stored priority is NULL. *)
Lemma mapRows_sorted (isSupabase : bool) (LocalTZA : Z -> bool -> Z)
    (R : relation RuleRow) (rows : list RuleRow) :
  (forall r1 r2, R r1 r2 -> by_priority_desc r1 r2) ->
  Forall (fun r => exists p, r c_priority = JNum p) rows ->
  StronglySorted R rows ->
  StronglySorted rule_priority_ge (mapRows isSupabase LocalTZA rows).
Proof.
  intros HR Hint Hsorted.
  induction Hsorted as [| r rows Hs IH Hall]; cbn; [constructor |].
  apply Forall_cons in Hint as [[p Hp] Hint].
  constructor; [exact (IH Hint) |].
  unfold mapRows. apply Forall_fmap.
  rewrite Forall_forall in Hall, Hint |- *.
  intros r' Hr'. destruct (Hint r' Hr') as [q Hq].
  pose proof (HR _ _ (Hall r' Hr')) as Hle.
  unfold by_priority_desc in Hle. rewrite Hp, Hq in Hle. cbn in Hle.
  change (rule_priority_ge (mapRuleRow LocalTZA (rowObject isSupabase r))
            (mapRuleRow LocalTZA (rowObject isSupabase r'))).
  unfold rule_priority_ge.
  rewrite (mapped_priority_int _ _ _ _ Hp), (mapped_priority_int _ _ _ _ Hq).
  apply Z.leb_le. exact Hle.
Qed.

Lemma by_priority_desc_updatedAt_desc_weaken (r1 r2 : RuleRow) :
  by_priority_desc_updatedAt_desc r1 r2 -> by_priority_desc r1 r2.
Proof.
  unfold by_priority_desc_updatedAt_desc, by_priority_desc, null_ltb, null_leb.
  order_cases.
Qed.

(** C2 (as it holds). [getActiveByUserId] returns the rows of the user whose
    [isActive] is true, whatever their activation mode, no other row and
    each once, sorted by priority descending; the rules it returns are all
    active. [getByUserId] returns all rows of the user, active or not,
    sorted by priority descending and, among equal priorities, by
    [updatedAt] descending. When no stored priority is NULL the returned
    rules themselves descend in priority. *)
Theorem candidates_by_priority (isSupabase : bool) (LocalTZA : Z -> bool -> Z)
    (userId : string) (tbl : RuleTable) :
  executionRulesStorage.getActiveByUserId_rows userId tbl
    ≡ₚ filter (fun r => owned_by userId r /\ is_active r) tbl
  /\ StronglySorted by_priority_desc
      (executionRulesStorage.getActiveByUserId_rows userId tbl)
  /\ (forall rule,
        rule ∈ executionRulesStorage.getActiveByUserId isSupabase LocalTZA userId tbl ->
        ExecutionRule.isActive rule = true)
  /\ executionRulesStorage.getByUserId_rows userId tbl ≡ₚ filter (owned_by userId) tbl
  /\ StronglySorted by_priority_desc_updatedAt_desc
      (executionRulesStorage.getByUserId_rows userId tbl)
  /\ ((forall r, r ∈ tbl -> exists p, r c_priority = JNum p) ->
        StronglySorted rule_priority_ge
            (executionRulesStorage.getActiveByUserId isSupabase LocalTZA userId tbl)
        /\ StronglySorted rule_priority_ge
            (executionRulesStorage.getByUserId isSupabase LocalTZA userId tbl)).
Proof.
  assert (Hact : StronglySorted by_priority_desc
                   (executionRulesStorage.getActiveByUserId_rows userId tbl))
    by (apply StronglySorted_merge_sort; apply _).
  assert (Hall : StronglySorted by_priority_desc_updatedAt_desc
                   (executionRulesStorage.getByUserId_rows userId tbl))
    by (apply StronglySorted_merge_sort; apply _).
  split; [apply merge_sort_Permutation |].
  split; [exact Hact |].
  split.
  { intros rule Hin. unfold executionRulesStorage.getActiveByUserId, mapRows in Hin.
    apply list_elem_of_fmap in Hin as (r & -> & Hr).
    unfold executionRulesStorage.getActiveByUserId_rows in Hr.
    rewrite merge_sort_Permutation in Hr.
    apply list_elem_of_filter in Hr as [[_ Hactive] _].
    rewrite mapped_isActive. unfold is_active in Hactive.
    destruct (r c_isActive); try discriminate. exact Hactive. }
  split; [apply merge_sort_Permutation |].
  split; [exact Hall |].
  intros Hint.
  assert (Hsub : forall (R : relation RuleRow) `{!forall x y, Decision (R x y)}
                   (P : RuleRow -> Prop) `{!forall x, Decision (P x)},
             Forall (fun r => exists p, r c_priority = JNum p)
               (merge_sort R (filter P tbl))).
  { intros R HR P HP. apply Forall_forall. intros r Hr.
    rewrite merge_sort_Permutation in Hr.
    apply list_elem_of_filter in Hr as [_ Hr]. exact (Hint r Hr). }
  split.
  - apply (mapRows_sorted _ _ by_priority_desc); [auto | apply Hsub | exact Hact].
  - apply (mapRows_sorted _ _ by_priority_desc_updatedAt_desc);
      [apply by_priority_desc_updatedAt_desc_weaken | apply Hsub | exact Hall].
Qed.

(** The inner hypothesis above holds on the sample table, whose priorities
    are all integers. *)
Lemma candidates_by_priority_witness :
  (forall r, r ∈ sample_rules -> exists p, r c_priority = JNum p)
  /\ StronglySorted rule_priority_ge
      (executionRulesStorage.getActiveByUserId false zone_utc "user_1" sample_rules).
Proof.
  assert (Hint : forall r, r ∈ sample_rules -> exists p, r c_priority = JNum p).
  { intros r Hr. unfold sample_rules in Hr.
    repeat (apply elem_of_cons in Hr as [-> | Hr]; [cbn; eauto |]).
    apply elem_of_nil in Hr. destruct Hr. }
  split; [exact Hint |].
  destruct (candidates_by_priority false zone_utc "user_1" sample_rules)
    as (_ & _ & _ & _ & _ & Hsorted).
  exact (proj1 (Hsorted Hint)).
Defined.

(** C2 (as stated) fails for both lists of candidates. [getActiveByUserId]
    hands out a rule whose activation mode is ['manual'] only;
    [getByUserId] hands out an inactive rule. *)
Lemma candidates_not_filtered :
  (exists rule,
     rule ∈ executionRulesStorage.getActiveByUserId false zone_utc "user_1" sample_rules
     /\ ExecutionRule.id rule = JStr "r_manual"
     /\ ExecutionRule.activationMode rule = JStr "manual"
     /\ ~ trigger_eligible rule)
  /\ (exists rule,
        rule ∈ executionRulesStorage.getByUserId false zone_utc "user_1" sample_rules
        /\ ExecutionRule.id rule = JStr "r_off"
        /\ ExecutionRule.isActive rule = false
        /\ ~ trigger_eligible rule).
Proof.
  split.
  - exists (mapRuleRow zone_utc
              (rowObject false
                  (sample_row "r_manual" "user_1" 9 true "manual" 1700000150000))).
    split; [vm_compute; left |].
    split; [reflexivity |]. split; [reflexivity |].
    intros [_ [H | H]]; vm_compute in H; discriminate.
  - exists (mapRuleRow zone_utc
              (rowObject false
                  (sample_row "r_off" "user_1" 7 false "trigger" 1700000120000))).
    split; [vm_compute; right; left |].
    split; [reflexivity |]. split; [reflexivity |].
    intros [H _]; vm_compute in H; discriminate.
Qed.

(** Rules of equal priority come out of [getActiveByUserId] in an order
    that does not look at [updatedAt]: here the one updated earlier is
    first. *)
Lemma candidates_tie_not_by_recency :
  map ExecutionRule.id
      (executionRulesStorage.getActiveByUserId false zone_utc "user_1" sample_rules)
  = [JStr "r_manual"; JStr "r_old"; JStr "r_new"]
  /\ map ExecutionRule.updatedAt
      (executionRulesStorage.getActiveByUserId false zone_utc "user_1" sample_rules)
     = ["2023-11-14T22:15:50.000Z"; "2023-11-14T22:15:00.000Z";
         "2023-11-14T22:16:40.000Z"].
Proof. split; vm_compute; reflexivity. Qed.

(* ===================================================================== *)
(** ** Advancing a schedule *)
(* ===================================================================== *)

Lemma set_col_eq (c : Column) (v : JSVal) (r : RuleRow) : set_col c v r c = v.
Proof. unfold set_col. rewrite decide_True; reflexivity. Qed.

Lemma set_col_ne (c c' : Column) (v : JSVal) (r : RuleRow) :
  c' <> c -> set_col c v r c' = r c'.
Proof. intros Hne. unfold set_col. rewrite decide_False; [reflexivity | exact Hne]. Qed.

(** [UPDATE ... WHERE id] changes the rows of that id by [f] and no other. *)
Lemma updateWhereId_Forall2 (id : string) (f : RuleRow -> RuleRow) (tbl : RuleTable) :
  Forall2 (fun r r' => (has_id id r -> r' = f r) /\ (~ has_id id r -> r' = r))
    tbl (updateWhereId id f tbl).
Proof.
  unfold updateWhereId. induction tbl as [| r tbl IH]; cbn; constructor; [| exact IH].
  destruct (decide (has_id id r)); split; intros; tauto.
Qed.

(** C1 (as it holds). [updateScheduleRun] takes no expected value and has no
    condition on [scheduleNextRun]: whenever the next run is a valid date,
    the update applies to every row of the id, whatever its
    [scheduleNextRun] was, setting [scheduleNextRun] to the next run
    computed from the clock, [scheduleLastRun] and [lastExecutedAt] to the
    database time and adding one to [executionCount]; the other columns and
    the other rows stay as they are. *)
Theorem updateScheduleRun_unconditional (LocalTZA : Z -> bool -> Z)
    (id : string) (interval : ScheduleInterval) (clock dbNow next : Z)
    (tbl : RuleTable) :
  calculateNextRunTime LocalTZA interval None clock = Some next ->
  exists tbl',
    executionRulesStorage.updateScheduleRun LocalTZA id interval clock dbNow tbl
        = Some tbl'
    /\ Forall2 (fun r r' =>
                  (has_id id r -> schedule_advanced next dbNow r r')
                  /\ (~ has_id id r -> r' = r))
         tbl tbl'.
Proof.
  intros Hnext. unfold executionRulesStorage.updateScheduleRun. rewrite Hnext.
  cbn [dateParam fmap option_fmap option_map mbind option_bind].
  eexists. split; [reflexivity |].
  eapply Forall2_impl; [apply updateWhereId_Forall2 |].
  intros r r' [Hyes Hno]. split; [| exact Hno].
  intros Hid. rewrite (Hyes Hid). unfold schedule_advanced. cbv beta.
  split; [reflexivity |]. split; [reflexivity |].
  split; [reflexivity |]. split; [reflexivity |].
  intros c H1 H2 H3 H4. rewrite !set_col_ne by assumption. reflexivity.
Qed.

(** The hypothesis above holds on a UTC host. *)
Lemma updateScheduleRun_unconditional_witness :
  calculateNextRunTime zone_utc Daily None 1700003600000 = Some 1700090000000
  /\ exists tbl',
       executionRulesStorage.updateScheduleRun zone_utc "r_due" Daily 1700003600000
           1700003600005
         [due_row "r_due" "user_1" 1700000000000] = Some tbl'.
Proof.
  assert (H : calculateNextRunTime zone_utc Daily None 1700003600000 = Some 1700090000000)
    by (vm_compute; reflexivity).
  split; [exact H |].
  destruct (updateScheduleRun_unconditional zone_utc "r_due" Daily 1700003600000
              1700003600005 1700090000000 [due_row "r_due" "user_1" 1700000000000] H)
    as (tbl' & Hrun & _).
  exists tbl'. exact Hrun.
Defined.

(** C1 (as stated) fails. Two ticks find the rule due with
    [scheduleNextRun = 1700000000000]. The first advances it. The second
    still holds the value it read, which the row no longer has, and its
    update applies all the same: both claims succeed, the schedule is
    advanced twice and [executionCount] is 2. *)
Lemma updateScheduleRun_claims_twice :
  let tbl0 := [due_row "r_due" "user_1" 1700000000000] in
  exists tbl1 tbl2,
    map ExecutionRule.id
        (executionRulesStorage.getScheduledRulesDue false zone_utc 1700003600000 tbl0)
    = [JStr "r_due"]
    /\ executionRulesStorage.updateScheduleRun zone_utc "r_due" Daily 1700003600000
        1700003600000 tbl0
       = Some tbl1
    /\ map (fun r => (r c_scheduleNextRun, r c_executionCount)) tbl1
       = [(JDate 1700090000000, JNum 1)]
    /\ JDate 1700090000000 <> JDate 1700000000000
    /\ executionRulesStorage.updateScheduleRun zone_utc "r_due" Daily 1700003600400
        1700003600400 tbl1
       = Some tbl2
    /\ map (fun r => (r c_scheduleNextRun, r c_scheduleLastRun, r c_executionCount)) tbl2
       = [(JDate 1700090000400, JDate 1700003600400, JNum 2)].
Proof.
  cbn zeta. eexists _, _.
  split; [vm_compute; reflexivity |].
  split; [vm_compute; reflexivity |].
  split; [vm_compute; reflexivity |].
  split; [discriminate |].
  split; [vm_compute; reflexivity |].
  vm_compute. reflexivity.
Qed.

(* ===================================================================== *)
(** ** [create] and [update]: what a write changes *)
(* ===================================================================== *)

Lemma applySet_app (s1 s2 : list (Column * JSVal)) (r : RuleRow) :
  applySet (s1 ++ s2) r = applySet s2 (applySet s1 r).
Proof. unfold applySet. apply foldl_app. Qed.

Lemma applySet_snoc (s : list (Column * JSVal)) (c : Column) (v : JSVal) (r : RuleRow) :
  applySet (s ++ [(c, v)]) r = set_col c v (applySet s r).
Proof. rewrite applySet_app. reflexivity. Qed.

(** A column no SET clause names keeps its value. *)
Lemma applySet_frame (s : list (Column * JSVal)) (r : RuleRow) (c : Column) :
  c ∉ s.*1 -> applySet s r c = r c.
Proof.
  revert r. induction s as [| [c' v] s IH]; intros r Hc; [reflexivity |].
  cbn in Hc. apply not_elem_of_cons in Hc as [Hne Hc].
  change (applySet ((c', v) :: s) r) with (applySet s (set_col c' v r)).
  rewrite (IH _ Hc). apply set_col_ne. exact Hne.
Qed.

Lemma pushField_columns {A} (field : option A) (c : Column) (value : A -> JSVal)
    (s : list (Column * JSVal)) :
  (pushField field c value s).*1 = s.*1 ++ given field c.
Proof.
  destruct field; cbn; [rewrite fmap_app; reflexivity | rewrite app_nil_r; reflexivity].
Qed.

Lemma given_elem {A} (field : option A) (c c' : Column) : c ∈ given field c' -> c = c'.
Proof.
  destruct field; cbn; [| intros H; apply elem_of_nil in H; destruct H].
  intros H. apply list_elem_of_singleton in H. exact H.
Qed.

(** The clauses of [update]: the ones up to [scheduleEnabled], then the
    tail for the interval, which ends with the next run exactly when the
    input makes [update] recalculate it. *)
Lemma setClausesOf_shape (LocalTZA : Z -> bool -> Z) (input : ExecutionRuleInput.t)
    (clock : Z) (s : list (Column * JSVal)) :
  setClausesOf LocalTZA input clock = Some s ->
  exists s9 tail,
    s = pushField (ExecutionRuleInput.scheduleEnabled input) c_scheduleEnabled JBool s9
          ++ tail
    /\ (c_scheduleEnabled ∉ s9.*1)
    /\ (c_scheduleEnabled ∉ tail.*1)
    /\ (recalculates input ->
        exists tail0 t, tail = tail0 ++ [(c_scheduleNextRun, JDate t)])
    /\ s.*1 = specified input
              ++ (if decide (recalculates input) then [c_scheduleNextRun] else []).
Proof.
  destruct input as [nm ds ac pr tr tc st oc md en iv].
  unfold setClausesOf, recalculates, specified.
  cbn [ExecutionRuleInput.name ExecutionRuleInput.description ExecutionRuleInput.isActive
       ExecutionRuleInput.priority ExecutionRuleInput.acceptedTriggers
       ExecutionRuleInput.topicCondition ExecutionRuleInput.executionSteps
       ExecutionRuleInput.outputConfig ExecutionRuleInput.activationMode
       ExecutionRuleInput.scheduleEnabled ExecutionRuleInput.scheduleInterval].
  cbv zeta.
  set (s9 := pushField md _ _ _).
  assert (Hs9 : s9.*1 = given nm c_name ++ given ds c_description ++ given ac c_isActive
                  ++ given pr c_priority ++ given tr c_acceptedTriggers
                  ++ given tc c_topicCondition ++ given st c_executionSteps
                  ++ given oc c_outputConfig ++ given md c_activationMode).
  { subst s9. rewrite !pushField_columns. cbn [fmap list_fmap app].
    rewrite <- !app_assoc. reflexivity. }
  assert (Hnot : c_scheduleEnabled ∉ s9.*1).
  { rewrite Hs9. rewrite !elem_of_app. intros H.
    repeat (destruct H as [H | H]; [apply given_elem in H; discriminate |]).
    apply given_elem in H. discriminate. }
  clearbody s9.
  destruct iv as [interval |].
  - destruct en as [[|] |]; cbn [negb bool_decide decide_rel].
    + rewrite bool_decide_eq_false_2 by congruence. cbn [negb].
      destruct (calculateNextRunTime LocalTZA interval None clock) as [t |];
        cbn [dateParam fmap option_fmap option_map mbind option_bind]; [| discriminate].
      intros [= <-].
      eexists s9, [(c_scheduleInterval, _); (c_scheduleNextRun, JDate t)].
      rewrite decide_True by (split; congruence).
      split; [rewrite <- app_assoc; reflexivity |].
      split; [exact Hnot |].
      split; [cbn; rewrite !elem_of_cons, elem_of_nil; intuition congruence |].
      split; [intros _; eexists [(c_scheduleInterval, _)], t; reflexivity |].
      rewrite <- !app_assoc, !fmap_app, Hs9. cbn. rewrite <- !app_assoc. reflexivity.
    + rewrite bool_decide_eq_true_2 by congruence. cbn [negb].
      intros [= <-].
      eexists s9, [(c_scheduleInterval, _)].
      rewrite decide_False by (intros [_ H]; congruence).
      split; [reflexivity |].
      split; [exact Hnot |].
      split; [cbn; rewrite !elem_of_cons, elem_of_nil; intuition congruence |].
      split; [intros [_ H]; congruence |].
      rewrite !fmap_app, Hs9. cbn. rewrite <- !app_assoc, app_nil_r. reflexivity.
    + rewrite bool_decide_eq_false_2 by congruence. cbn [negb].
      destruct (calculateNextRunTime LocalTZA interval None clock) as [t |];
        cbn [dateParam fmap option_fmap option_map mbind option_bind]; [| discriminate].
      intros [= <-].
      eexists s9, [(c_scheduleInterval, _); (c_scheduleNextRun, JDate t)].
      rewrite decide_True by (split; congruence).
      split; [rewrite <- app_assoc; reflexivity |].
      split; [exact Hnot |].
      split; [cbn; rewrite !elem_of_cons, elem_of_nil; intuition congruence |].
      split; [intros _; eexists [(c_scheduleInterval, _)], t; reflexivity |].
      rewrite <- !app_assoc, !fmap_app, Hs9. cbn. rewrite <- !app_assoc. reflexivity.
  - intros [= <-].
    exists s9, [].
    rewrite decide_False by (intros [H _]; congruence).
    split; [rewrite app_nil_r; reflexivity |].
    split; [exact Hnot |].
    split; [apply not_elem_of_nil |].
    split; [intros [H _]; congruence |].
    rewrite pushField_columns, Hs9. cbn. rewrite <- !app_assoc, !app_nil_r. reflexivity.
Qed.

(** What [create] does to the table: it appends one row, whose next run is
    a date when the input enables the schedule and names an interval, and
    NULL otherwise. *)
Lemma create_appends (isSupabase : bool) (LocalTZA : Z -> bool -> Z)
    (id userId : string) (input : ExecutionRuleInput.t) (clock dbNow : Z)
    (tbl tbl' : RuleTable) (created : ExecutionRule.t) :
  executionRulesStorage.create isSupabase LocalTZA id userId input clock dbNow tbl
      = Some (tbl', created) ->
  exists nextRun,
    tbl' = tbl ++ [insertedRow id userId input nextRun dbNow]
    /\ (ExecutionRuleInput.scheduleEnabled input = Some true ->
        ExecutionRuleInput.scheduleInterval input <> None ->
        exists t, nextRun = JDate t)
    /\ (~ (ExecutionRuleInput.scheduleEnabled input = Some true
           /\ ExecutionRuleInput.scheduleInterval input <> None) ->
        nextRun = JNull).
Proof.
  unfold executionRulesStorage.create.
  destruct (ExecutionRuleInput.scheduleEnabled input) as [[|] |];
    destruct (ExecutionRuleInput.scheduleInterval input) as [interval |];
    try destruct (calculateNextRunTime LocalTZA interval None clock) as [t |];
    cbn [dateParam fmap option_fmap option_map mbind option_bind];
    try discriminate;
    match goal with
    | |- context [insertedRow id userId input ?nr dbNow] =>
        destruct
            (executionRulesStorage.get isSupabase LocalTZA id
                (tbl ++ [insertedRow id userId input nr dbNow]));
        cbn [mbind option_bind]; [| discriminate];
        intros [= <- <-]; exists nr
    end;
    (split; [reflexivity |]);
    (split; [intros; try congruence; eauto | intros Hn; try reflexivity ]);
    exfalso; apply Hn; split; congruence.
Qed.

(** What [update] does to the table: with no clause nothing, else the
    clauses are applied to the rows of the id. *)
Lemma update_applies (isSupabase : bool) (LocalTZA : Z -> bool -> Z)
    (id : string) (input : ExecutionRuleInput.t) (clock : Z)
    (tbl tbl' : RuleTable) (updated : option ExecutionRule.t) :
  executionRulesStorage.update isSupabase LocalTZA id input clock tbl
      = Some (tbl', updated) ->
  exists s,
    setClausesOf LocalTZA input clock = Some s
    /\ Forall2 (fun r r' => r' = r \/ (has_id id r /\ r' = applySet s r)) tbl tbl'
    /\ (s = [] -> tbl' = tbl).
Proof.
  unfold executionRulesStorage.update.
  destruct (setClausesOf LocalTZA input clock) as [s |];
    cbn [mbind option_bind]; [| discriminate].
  destruct s as [| cv s].
  - intros [= <- <-]. exists []. split; [reflexivity |]. split; [| reflexivity].
    apply Forall2_same_length_lookup_2; [reflexivity |].
    intros i x y Hx Hy. left. congruence.
  - intros [= <- <-]. exists (cv :: s). split; [reflexivity |]. split; [| discriminate].
    eapply Forall2_impl; [apply updateWhereId_Forall2 |].
    intros r r' [Hyes Hno]. cbv beta in *.
    destruct (decide (has_id id r)) as [Hid | Hid]; [right | left]; auto.
Qed.

(** C7 (as it holds). [update] leaves every row of another id as it is, and
    on the rows of the id every column the input does not specify, except
    [scheduleNextRun] when the input gives an interval and does not set
    [scheduleEnabled] to false: then the next run is recalculated. An input
    that specifies nothing leaves the table as it is. *)
Theorem update_frame (isSupabase : bool) (LocalTZA : Z -> bool -> Z)
    (id : string) (input : ExecutionRuleInput.t) (clock : Z)
    (tbl tbl' : RuleTable) (updated : option ExecutionRule.t) :
  executionRulesStorage.update isSupabase LocalTZA id input clock tbl
      = Some (tbl', updated) ->
  Forall2 (fun r r' =>
             (~ has_id id r -> r' = r)
             /\ forall c, c ∉ specified input ->
                          ~ (c = c_scheduleNextRun /\ recalculates input) ->
                          r' c = r c)
    tbl tbl'
  /\ (specified input = [] -> tbl' = tbl).
Proof.
  intros Hupd.
  destruct (update_applies _ _ _ _ _ _ _ _ Hupd) as (s & Hs & Hrows & Hnil).
  destruct (setClausesOf_shape _ _ _ _ Hs) as (_ & _ & _ & _ & _ & _ & Hcols).
  split.
  - eapply Forall2_impl; [exact Hrows |].
    intros r r' [-> | [Hid ->]]; (split; [tauto |]); [reflexivity |].
    intros c Hc Hnr. apply applySet_frame. rewrite Hcols.
    rewrite elem_of_app. intros [Hin | Hin]; [exact (Hc Hin) |].
    destruct (decide (recalculates input)) as [Hre | Hre].
    + apply list_elem_of_singleton in Hin. exact (Hnr (conj Hin Hre)).
    + apply elem_of_nil in Hin. exact Hin.
  - intros Hspec. apply Hnil.
    rewrite Hspec in Hcols.
    destruct (decide (recalculates input)) as [[Hint _] | _].
    + exfalso. unfold specified in Hspec.
      destruct (ExecutionRuleInput.scheduleInterval input); [| congruence].
      apply (f_equal length) in Hspec. rewrite !length_app in Hspec.
      cbn in Hspec. lia.
    + destruct s; [reflexivity | discriminate].
Qed.

(** The hypothesis above holds for an update of the priority, which leaves
    the name as it was. *)
Lemma update_frame_witness :
  exists tbl' updated,
    executionRulesStorage.update false zone_utc "r_old"
      (ExecutionRuleInput.mk None None None (Some 10) None None None None None None None)
      1700003600000 sample_rules = Some (tbl', updated)
    /\ map (fun r => r c_name) tbl' = map (fun r => r c_name) sample_rules.
Proof.
  eexists _, _. split; [reflexivity |].
  destruct (update_frame false zone_utc "r_old"
              (ExecutionRuleInput.mk None None None (Some 10) None None None None None
                 None None)
              1700003600000 sample_rules _ _ eq_refl) as [_ _].
  vm_compute. reflexivity.
Defined.

(** C7 (as stated) fails: an update that specifies only the interval also
    changes [scheduleNextRun], a column the input does not specify. *)
Lemma update_changes_next_run :
  let tbl0 := [sample_row "r_1" "user_1" 5 true "scheduled" 1700000000000] in
  exists tbl1 updated,
    executionRulesStorage.update false zone_utc "r_1" input_daily_only 1700003600000
      tbl0 = Some (tbl1, updated)
    /\ specified input_daily_only = [c_scheduleInterval]
    /\ map (fun r => r c_scheduleNextRun) tbl0 = [JNull]
    /\ map (fun r => r c_scheduleNextRun) tbl1 = [JDate 1700090000000].
Proof.
  cbn zeta. eexists _, _.
  split; [vm_compute; reflexivity |].
  split; [reflexivity |]. split; vm_compute; reflexivity.
Qed.

(* ===================================================================== *)
(** ** The schedule of a stored rule *)
(* ===================================================================== *)

(** [update] keeps [schedule_set] on a row when the input names the interval
    whenever it enables the schedule. *)
Lemma applySet_schedule_set (LocalTZA : Z -> bool -> Z) (input : ExecutionRuleInput.t)
    (clock : Z) (s : list (Column * JSVal)) (r : RuleRow) :
  enables_with_interval input ->
  setClausesOf LocalTZA input clock = Some s ->
  schedule_set r -> schedule_set (applySet s r).
Proof.
  intros Hok Hs Hr.
  destruct (setClausesOf_shape _ _ _ _ Hs) as
      (s9 & tail & -> & Hs9 & Htail & Hre & Hcols).
  unfold schedule_set. intros Hen.
  assert (Henabled : applySet
            (pushField (ExecutionRuleInput.scheduleEnabled input) c_scheduleEnabled
                JBool s9
             ++ tail) r c_scheduleEnabled
          = match ExecutionRuleInput.scheduleEnabled input with
            | Some b => JBool b
            | None => r c_scheduleEnabled
            end).
  { rewrite applySet_app, (applySet_frame tail) by exact Htail.
    destruct (ExecutionRuleInput.scheduleEnabled input) as [b |]; cbn [pushField].
    - rewrite applySet_snoc. apply set_col_eq.
    - apply applySet_frame. exact Hs9. }
  rewrite Henabled in Hen.
  destruct (decide (recalculates input)) as [Hyes | Hno].
  - destruct (Hre Hyes) as (tail0 & t & ->).
    exists t. rewrite app_assoc, applySet_snoc. apply set_col_eq.
  - assert (Hkeep : applySet
              (pushField (ExecutionRuleInput.scheduleEnabled input) c_scheduleEnabled
                 JBool s9 ++ tail) r c_scheduleNextRun = r c_scheduleNextRun).
    { apply applySet_frame. rewrite Hcols, app_nil_r.
      unfold specified. rewrite !elem_of_app. intros H.
      repeat (destruct H as [H | H]; [apply given_elem in H; discriminate |]).
      apply given_elem in H. discriminate. }
    rewrite Hkeep.
    destruct (ExecutionRuleInput.scheduleEnabled input) as [[|] |] eqn:Hin.
    + exfalso. apply Hno. split; [apply Hok; exact Hin | congruence].
    + discriminate.
    + apply Hr. exact Hen.
Qed.

(** C5 (as it holds). In every table reached through [create] and [update]
    calls whose inputs name the interval whenever they set
    [scheduleEnabled] to true, a row with [scheduleEnabled] true has a
    [scheduleNextRun] that is not null. *)
Theorem schedule_set_invariant (isSupabase : bool) (LocalTZA : Z -> bool -> Z)
    (tbl : RuleTable) :
  reachable_with isSupabase LocalTZA enables_with_interval tbl ->
  Forall schedule_set tbl.
Proof.
  induction 1 as [| tbl id userId input clock dbNow tbl' created _ IH Hok Hcreate
                  | tbl id input clock tbl' updated _ IH Hok Hupdate].
  - constructor.
  - destruct (create_appends _ _ _ _ _ _ _ _ _ _ Hcreate) as (nextRun & -> & Hdate & _).
    apply Forall_app. split; [exact IH |].
    constructor; [| constructor].
    unfold schedule_set. cbn [insertedRow]. intros Hen.
    assert (Htrue : ExecutionRuleInput.scheduleEnabled input = Some true).
    { destruct (ExecutionRuleInput.scheduleEnabled input) as [[|] |];
        cbn in Hen; congruence. }
    exact (Hdate Htrue (Hok Htrue)).
  - destruct (update_applies _ _ _ _ _ _ _ _ Hupdate) as (s & Hs & Hrows & _).
    clear Hupdate. induction Hrows as [| r r' tbl tbl' Hr _ IHrows]; [constructor |].
    apply Forall_cons in IH as [Hset IH].
    constructor; [| exact (IHrows IH)].
    destruct Hr as [-> | [_ ->]]; [exact Hset |].
    exact (applySet_schedule_set _ _ _ _ _ Hok Hs Hset).
Qed.

(** The hypothesis above holds for the table with one rule created on a
    daily schedule. *)
Lemma schedule_set_invariant_witness :
  exists tbl,
    reachable_with false zone_utc enables_with_interval tbl
    /\ map (fun r => (r c_scheduleEnabled, r c_scheduleNextRun)) tbl
       = [(JBool true, JDate 1700090000000)]
    /\ Forall schedule_set tbl.
Proof.
  eexists.
  assert (Hreach : reachable_with false zone_utc enables_with_interval
            ([] ++ [insertedRow "rule_1" "user_1" input_daily_rule
                      (JDate 1700090000000) 1700003600002])).
  { apply (reach_create _ _ _ [] "rule_1" "user_1" input_daily_rule
             1700003600000 1700003600002 _
             (mapRuleRow zone_utc
                (rowObject false
                   (insertedRow "rule_1" "user_1" input_daily_rule
                      (JDate 1700090000000) 1700003600002)))).
    - constructor.
    - intros _. discriminate.
    - vm_compute. reflexivity. }
  split; [exact Hreach |].
  split; [reflexivity |].
  exact (schedule_set_invariant false zone_utc _ Hreach).
Defined.

(** C5 (as stated) fails: creating a rule with [scheduleEnabled = true] and
    no interval stores it enabled with a null [scheduleNextRun]. *)
Lemma schedule_enabled_without_next_run :
  exists tbl,
    reachable_with false zone_utc (fun _ => True) tbl
    /\ map (fun r => (r c_scheduleEnabled, r c_scheduleNextRun)) tbl
       = [(JBool true, JNull)]
    /\ ~ Forall schedule_set tbl.
Proof.
  exists ([] ++ [insertedRow "rule_1" "user_1" input_enable_only JNull 1700003600002]).
  split.
  { apply (reach_create _ _ _ [] "rule_1" "user_1" input_enable_only
             1700003600000 1700003600002 _
             (mapRuleRow zone_utc
                (rowObject false
                   (insertedRow "rule_1" "user_1" input_enable_only JNull
                       1700003600002))));
      [constructor | exact I | vm_compute; reflexivity]. }
  split; [reflexivity |].
  intros Hall. apply Forall_inv in Hall.
  destruct (Hall eq_refl) as [t Ht]. discriminate.
Qed.

(** The same through [update]: enabling the schedule of a rule that was
    created with the schedule off leaves its [scheduleNextRun] null. *)
Lemma schedule_enabled_by_update_without_next_run :
  exists tbl0 created tbl1 updated,
    executionRulesStorage.create false zone_utc "rule_1" "user_1" input_schedule_off
        1700003600000
      1700003600002 [] = Some (tbl0, created)
    /\ executionRulesStorage.update false zone_utc "rule_1" input_enable_only
        1700007200000 tbl0
       = Some (tbl1, updated)
    /\ map (fun r => (r c_scheduleEnabled, r c_scheduleInterval, r c_scheduleNextRun))
        tbl1
       = [(JBool true, JStr "weekly", JNull)]
    /\ (ExecutionRule.scheduleEnabled <$> updated) = Some true
    /\ (ExecutionRule.scheduleNextRun <$> updated) = Some JUndefined.
Proof.
  eexists _, _, _, _.
  split; [vm_compute; reflexivity |].
  split; [vm_compute; reflexivity |].
  split; [vm_compute; reflexivity |].
  split; vm_compute; reflexivity.
Qed.

(* ===================================================================== *)
(** ** Manual invocation *)
(* ===================================================================== *)

(** A lookup by id and user finds a row of that id owned by that user. *)
Lemma getByIdAndUser_Some (isSupabase : bool) (LocalTZA : Z -> bool -> Z)
    (id userId : string) (tbl : RuleTable) (rule : ExecutionRule.t) :
  executionRulesStorage.getByIdAndUser isSupabase LocalTZA id userId tbl = Some rule ->
  exists r, r ∈ tbl /\ has_id id r /\ owned_by userId r
            /\ rule = mapRuleRow LocalTZA (rowObject isSupabase r).
Proof.
  unfold executionRulesStorage.getByIdAndUser.
  destruct (filter _ tbl) as [| r rest] eqn:Hf; [discriminate |].
  intros [= <-]. exists r.
  assert (Hr : r ∈ filter (fun r => has_id id r /\ owned_by userId r) tbl)
    by (rewrite Hf; left).
  apply list_elem_of_filter in Hr as [[Hid Hown] Hin]. auto.
Qed.

Lemma getByIdAndUser_None (isSupabase : bool) (LocalTZA : Z -> bool -> Z)
    (id userId : string) (tbl : RuleTable) :
  (forall r, r ∈ tbl -> has_id id r -> ~ owned_by userId r) ->
  executionRulesStorage.getByIdAndUser isSupabase LocalTZA id userId tbl = None.
Proof.
  intros Hother. unfold executionRulesStorage.getByIdAndUser.
  destruct (filter _ tbl) as [| r rest] eqn:Hf; [reflexivity |].
  assert (Hr : r ∈ filter (fun r => has_id id r /\ owned_by userId r) tbl)
    by (rewrite Hf; left).
  apply list_elem_of_filter in Hr as [[Hid Hown] Hin].
  destruct (Hother r Hin Hid Hown).
Qed.

(** A non-empty string passes the validation of [ruleId]. *)
Lemma ruleId_valid (ruleId : string) :
  ruleId <> "" -> negb (truthy (JStr ruleId)) || not_a_string (JStr ruleId) = false.
Proof.
  intros Hne. cbn. destruct (String.eqb_spec ruleId ""); [contradiction | reflexivity].
Qed.

(** C6. For an authenticated request that names a rule of the user: if the
    rule is inactive the answer is 400 "Rule is not active"; if it is
    active and its activation mode is neither ['manual'] nor ['all'] the
    answer is 400 "Rule does not support manual invocation". In both cases
    [processManual] is not called, so no step runs, and the database, with
    its log, is as before. *)
Theorem manual_invocation_rejected (isSupabase : bool) (LocalTZA : Z -> bool -> Z)
    (processManual : string -> ExecutionRule.t -> string ->
                     option (list (string * string)) -> DB -> option ProcessResult.t * DB)
    (session : Session) (request : InvokeRequest.t) (clock : Z) (db : DB)
    (ruleId : string) (rule : ExecutionRule.t) :
  InvokeRequest.ruleId request = JStr ruleId ->
  ruleId <> "" ->
  executionRulesStorage.getByIdAndUser isSupabase LocalTZA ruleId
      (session_userId session) (rules db) = Some rule ->
  (ExecutionRule.isActive rule = false ->
   POST isSupabase LocalTZA processManual (Some session) (BodyValue request) clock
     db
   = mkOutcome (mkResponse 400 (ErrorBody "Rule is not active")) db [])
  /\ (ExecutionRule.isActive rule = true ->
      ExecutionRule.activationMode rule <> JStr "manual" ->
      ExecutionRule.activationMode rule <> JStr "all" ->
      POST isSupabase LocalTZA processManual (Some session) (BodyValue request)
        clock db
      = mkOutcome (mkResponse 400 (ErrorBody "Rule does not support manual invocation"))
          db []).
Proof.
  intros Hid Hne Hrule. unfold POST; cbv beta iota.
  rewrite Hid, (ruleId_valid _ Hne), Hrule.
  split.
  - intros ->. reflexivity.
  - intros -> Hmanual Hall. cbn [negb].
    assert (Hne_lit : forall s, ExecutionRule.activationMode rule <> JStr s ->
                                js_strict_ne (ExecutionRule.activationMode rule) s
                                    = true).
    { intros s Hs. unfold js_strict_ne.
      destruct (ExecutionRule.activationMode rule) as [| | | | x | | |]; try reflexivity.
      destruct (String.eqb_spec x s) as [-> | _]; [contradiction | reflexivity]. }
    rewrite (Hne_lit _ Hmanual), (Hne_lit _ Hall). reflexivity.
Qed.

(** The hypotheses above hold for the owner of a sample rule of activation
    mode ['trigger']. *)
Lemma manual_invocation_rejected_witness :
  exists rule,
    executionRulesStorage.getByIdAndUser false zone_utc "r_old" "user_1"
        (rules sample_db) = Some rule
    /\ ExecutionRule.isActive rule = true
    /\ ExecutionRule.activationMode rule = JStr "trigger"
    /\ POST false zone_utc processManual_stub (Some (mkSession "user_1"))
         (BodyValue (InvokeRequest.mk (JStr "r_old") None None)) 1700003600000
         sample_db
       = mkOutcome (mkResponse 400 (ErrorBody "Rule does not support manual invocation"))
           sample_db [].
Proof.
  eexists. split; [vm_compute; reflexivity |].
  split; [reflexivity |]. split; [reflexivity |].
  refine (proj2 (manual_invocation_rejected false zone_utc processManual_stub
                   (mkSession "user_1") (InvokeRequest.mk (JStr "r_old") None None)
                   1700003600000 sample_db "r_old" _ eq_refl _ _) _ _ _).
  - discriminate.
  - vm_compute. reflexivity.
  - reflexivity.
  - discriminate.
  - discriminate.
Defined.

(** C9. The rule a manual invocation runs is looked up by id and by the user
    of the session: every call of [processManual] is for a stored row of
    the requested id that this user owns. When the rows of the requested id
    belong to another user, the answer is 404 "Rule not found",
    [processManual] is not called and the database, with its log, is as
    before. *)
Theorem manual_invocation_scoped (isSupabase : bool) (LocalTZA : Z -> bool -> Z)
    (processManual : string -> ExecutionRule.t -> string ->
                     option (list (string * string)) -> DB -> option ProcessResult.t * DB)
    (session : Session) (request : InvokeRequest.t) (clock : Z) (db : DB) :
  (forall call,
     call ∈ invocations (POST isSupabase LocalTZA processManual (Some session)
                           (BodyValue request) clock db) ->
     inv_userId call = session_userId session
     /\ exists ruleId r,
          InvokeRequest.ruleId request = JStr ruleId
          /\ r ∈ rules db /\ has_id ruleId r /\ owned_by (session_userId session) r
          /\ inv_rule call = mapRuleRow LocalTZA (rowObject isSupabase r))
  /\ (forall ruleId owner,
        InvokeRequest.ruleId request = JStr ruleId ->
        ruleId <> "" ->
        owner <> session_userId session ->
        (exists r, r ∈ rules db /\ has_id ruleId r) ->
        (forall r, r ∈ rules db -> has_id ruleId r -> owned_by owner r) ->
        POST isSupabase LocalTZA processManual (Some session) (BodyValue request)
          clock db
        = mkOutcome (mkResponse 404 (ErrorBody "Rule not found")) db []).
Proof.
  split.
  - intros call. unfold POST; cbv beta iota.
    destruct (negb (truthy (InvokeRequest.ruleId request))
              || not_a_string (InvokeRequest.ruleId request)) eqn:Hvalid;
      [intros H; apply elem_of_nil in H; destruct H |].
    destruct (InvokeRequest.ruleId request) as [| | | | ruleId | | |] eqn:Hreq;
      try discriminate;
      try (cbn [not_a_string] in Hvalid; rewrite orb_true_r in Hvalid; discriminate).
    destruct
        (executionRulesStorage.getByIdAndUser isSupabase LocalTZA ruleId
            (session_userId session) (rules db))
      as [rule |] eqn:Hrule; [| intros H; apply elem_of_nil in H; destruct H].
    destruct (negb (ExecutionRule.isActive rule));
      [intros H; apply elem_of_nil in H; destruct H |].
    destruct (js_strict_ne (ExecutionRule.activationMode rule) "manual"
              && js_strict_ne (ExecutionRule.activationMode rule) "all");
      [intros H; apply elem_of_nil in H; destruct H |].
    apply getByIdAndUser_Some in Hrule as (r & Hin & Hid & Hown & ->).
    destruct (processManual _ _ _ _ db) as [[result |] db']; cbn [invocations];
      intros H; apply list_elem_of_singleton in H; subst call; cbn;
      (split; [reflexivity |]); exists ruleId, r; auto.
  - intros ruleId owner Hreq Hne Howner _ Hrows. unfold POST; cbv beta iota.
    rewrite Hreq, (ruleId_valid _ Hne).
    rewrite getByIdAndUser_None; [reflexivity |].
    intros r Hin Hid Hmine. specialize (Hrows r Hin Hid).
    unfold owned_by, sql_eq_text in Hrows, Hmine.
    destruct (r c_userId) as [| | | | u | | |]; try discriminate.
    apply String.eqb_eq in Hrows, Hmine. congruence.
Qed.

(** The hypotheses above hold when user_1 asks for the sample rule of
    user_2. *)
Lemma manual_invocation_scoped_witness :
  "user_2" <> "user_1"
  /\ (exists r, r ∈ rules sample_db /\ has_id "r_other" r)
  /\ POST false zone_utc processManual_stub (Some (mkSession "user_1"))
       (BodyValue (InvokeRequest.mk (JStr "r_other") None None)) 1700003600000
       sample_db
     = mkOutcome (mkResponse 404 (ErrorBody "Rule not found")) sample_db [].
Proof.
  assert (Hex : exists r, r ∈ rules sample_db /\ has_id "r_other" r).
  { exists (sample_row "r_other" "user_2" 8 true "all" 1700000010000).
    split; [| reflexivity]. cbn. do 4 right. left. }
  split; [discriminate |]. split; [exact Hex |].
  apply (proj2 (manual_invocation_scoped false zone_utc processManual_stub
                  (mkSession "user_1") (InvokeRequest.mk (JStr "r_other") None None)
                  1700003600000 sample_db) "r_other" "user_2");
    [reflexivity | discriminate | discriminate | exact Hex |].
  intros r Hr Hid. cbn in Hr.
  repeat (apply elem_of_cons in Hr as [-> | Hr]; [first [reflexivity | discriminate] |]).
  apply elem_of_nil in Hr. destruct Hr.
Defined.

(* ===================================================================== *)
(** ** Deleting a rule *)
(* ===================================================================== *)

(** C8. Deleting a rule leaves the log table as it is: every entry stays,
    with its rule id and rule name, and the statistics are the same. The
    rule table loses exactly the rows of the id, so no read of the rule
    storage (the lists for the dispatcher, the due rules of the scheduler,
    the lookups) returns the rule any more. *)
Theorem delete_keeps_logs (isSupabase : bool) (LocalTZA : Z -> bool -> Z)
    (id : string) (db : DB) :
  logs (deleteRule id db).1 = logs db
  /\ (forall entry, entry ∈ logs db -> entry ∈ logs (deleteRule id db).1)
  /\ (forall userId,
        executionLogStorage.getStats userId (logs (deleteRule id db).1)
            = executionLogStorage.getStats userId (logs db))
  /\ (forall ruleId,
        executionLogStorage.getStatsByRuleId ruleId (logs (deleteRule id db).1)
        = executionLogStorage.getStatsByRuleId ruleId (logs db))
  /\ (forall r, r ∈ rules (deleteRule id db).1 <-> r ∈ rules db /\ ~ has_id id r)
  /\ (forall rule,
        returned_by_read isSupabase LocalTZA (rules (deleteRule id db).1) rule ->
        ExecutionRule.id rule <> JStr id).
Proof.
  assert (Hrules : forall r,
             r ∈ rules (deleteRule id db).1 <-> r ∈ rules db /\ ~ has_id id r).
  { intros r. unfold deleteRule, executionRulesStorage.delete. cbn.
    rewrite list_elem_of_filter. tauto. }
  split; [reflexivity |]. split; [auto |].
  split; [reflexivity |]. split; [reflexivity |].
  split; [exact Hrules |].
  intros rule Hread.
  destruct (read_is_mapped _ _ _ _ Hread) as (r & Hin & ->).
  apply Hrules in Hin as [_ Hnot].
  rewrite mapped_id. intros Hid. apply Hnot.
  unfold has_id. rewrite Hid. cbn. apply String.eqb_refl.
Qed.

(** A run is logged for a rule, then the rule is deleted: the entry is
    still there, with the id and the name of the rule, and counts in the
    statistics of the rule id. *)
Example delete_after_log :
  let db0 := {| rules := [due_row "r_1" "user_1" 1700000000000]; logs := [] |} in
  let db1 := {| rules := rules db0; logs := logged_runs 1 [3200] (logs db0) |} in
  let db2 := (deleteRule "r_1" db1).1 in
  rules db2 = []
  /\ map (fun e => (log_id e, log_ruleId e, log_ruleName e)) (logs db2)
     = [("log_1", "r_1", "Daily Email Digest")]
  /\ totalRuns (executionLogStorage.getStatsByRuleId "r_1" (logs db2)) = 1.
Proof. cbn zeta. split; [| split]; vm_compute; reflexivity. Qed.

(* ===================================================================== *)
(** ** Doubles *)
(* ===================================================================== *)

(** Powers of two. *)
Lemma pow2_pos (e : Z) : (0 < Double.pow2 e)%Q.
Proof. apply Qpower_0_lt. reflexivity. Qed.

Lemma pow2_add (a b : Z) : (Double.pow2 (a + b) == Double.pow2 a * Double.pow2 b)%Q.
Proof. apply Qpower_plus. discriminate. Qed.

Lemma pow2_le (a b : Z) : a <= b -> (Double.pow2 a <= Double.pow2 b)%Q.
Proof. intros H. apply Qpower_le_compat_l; [exact H | discriminate]. Qed.

Lemma pow2_lt (a b : Z) : a < b -> (Double.pow2 a < Double.pow2 b)%Q.
Proof. intros H. apply Qpower_lt_compat_l; [exact H | reflexivity]. Qed.

Lemma pow2_lt_inv (a b : Z) : (Double.pow2 a < Double.pow2 b)%Q -> a < b.
Proof.
  intros H. apply (Qpower_lt_compat_l_inv (inject_Z 2)); [exact H | reflexivity].
Qed.

Lemma pow2_Z (e : Z) : 0 <= e -> (Double.pow2 e == inject_Z (2 ^ e))%Q.
Proof. intros H. symmetry. apply Zpower_Qpower. exact H. Qed.

Lemma pow2_opp (e : Z) : (Double.pow2 (- e) * Double.pow2 e == 1)%Q.
Proof.
  rewrite <- pow2_add. replace (- e + e) with 0 by lia. reflexivity.
Qed.

(** A quotient lies where its numerator and its denominator put it. *)
Lemma quotient_below (X D N U L T : Q) :
  (0 <= X)%Q -> (X * D == N)%Q -> (N < U)%Q -> (0 < L)%Q -> (L <= D)%Q ->
  (T * L == U)%Q -> (X < T)%Q.
Proof.
  intros HX HXD HN HL HLD HT.
  apply (Qmult_lt_r _ _ L HL).
  assert ((L * X <= D * X)%Q) by (apply Qmult_le_compat_r; assumption).
  lra.
Qed.

Lemma quotient_above (X D N Lo Up T : Q) :
  (0 < X)%Q -> (X * D == N)%Q -> (Lo <= N)%Q -> (0 < D)%Q -> (D < Up)%Q ->
  (T * Up == Lo)%Q -> (T < X)%Q.
Proof.
  intros HX HXD HN HD HDU HT.
  assert (HUp : (0 < Up)%Q) by lra.
  apply (Qmult_lt_r _ _ Up HUp).
  assert ((X * D < X * Up)%Q) by (apply Qmult_lt_l; assumption).
  lra.
Qed.

(** [ilog2] is the exponent of a positive number, and the only one. *)
Lemma ilog2_spec (x : Q) :
  (0 < x)%Q ->
  (Double.pow2 (Double.ilog2 x) <= x)%Q /\ (x < Double.pow2 (Double.ilog2 x + 1))%Q.
Proof.
  intros Hx. destruct x as [n d]. unfold Double.ilog2. cbn [Qnum Qden].
  assert (Hn : 0 < n) by (unfold Qlt in Hx; cbn in Hx; lia).
  set (a := Z.log2 n). set (b := Z.log2 (Z.pos d)).
  destruct (Z.log2_spec n Hn) as [Ha1 Ha2]. fold a in Ha1, Ha2.
  destruct (Z.log2_spec (Z.pos d) ltac:(lia)) as [Hb1 Hb2]. fold b in Hb1, Hb2.
  assert (Ha0 : 0 <= a) by apply Z.log2_nonneg.
  assert (Hb0 : 0 <= b) by apply Z.log2_nonneg.
  assert (Hd : (0 < inject_Z (Z.pos d))%Q) by reflexivity.
  assert (Hxd : ((n # d) * inject_Z (Z.pos d) == inject_Z n)%Q).
  { rewrite (Qmake_Qdiv n d). field. discriminate. }
  assert (Qa1 : (Double.pow2 a <= inject_Z n)%Q)
    by (rewrite pow2_Z by lia; rewrite <- Zle_Qle; exact Ha1).
  assert (Qa2 : (inject_Z n < Double.pow2 (a + 1))%Q).
  { rewrite pow2_Z by lia. rewrite <- Zlt_Qlt. replace (a + 1) with (Z.succ a) by lia.
    exact Ha2. }
  assert (Qb1 : (Double.pow2 b <= inject_Z (Z.pos d))%Q)
    by (rewrite pow2_Z by lia; rewrite <- Zle_Qle; exact Hb1).
  assert (Qb2 : (inject_Z (Z.pos d) < Double.pow2 (b + 1))%Q).
  { rewrite pow2_Z by lia. rewrite <- Zlt_Qlt. replace (b + 1) with (Z.succ b) by lia.
    exact Hb2. }
  assert (Hup : (n # d < Double.pow2 (a - b + 1))%Q).
  { apply (quotient_below _ _ _ _ _ _ (Qlt_le_weak _ _ Hx) Hxd Qa2 (pow2_pos b) Qb1).
    rewrite <- pow2_add. f_equiv. lia. }
  assert (Hlow : (Double.pow2 (a - b - 1) < n # d)%Q).
  { apply (quotient_above _ _ _ _ _ _ Hx Hxd Qa1 Hd Qb2).
    rewrite <- pow2_add. f_equiv. lia. }
  destruct (Qle_bool (Double.pow2 (a - b)) (n # d)) eqn:Htest.
  - apply Qle_bool_iff in Htest. split; [exact Htest | exact Hup].
  - assert (Hlt : (n # d < Double.pow2 (a - b))%Q).
    { apply Qnot_le_lt. intros Hle. apply Qle_bool_iff in Hle. congruence. }
    replace (a - b - 1 + 1) with (a - b) by lia.
    split; [apply Qlt_le_weak; exact Hlow | exact Hlt].
Qed.

Lemma ilog2_unique (x : Q) (e : Z) :
  (Double.pow2 e <= x)%Q -> (x < Double.pow2 (e + 1))%Q -> Double.ilog2 x = e.
Proof.
  intros H1 H2.
  assert (Hx : (0 < x)%Q) by (pose proof (pow2_pos e); lra).
  destruct (ilog2_spec x Hx) as [H3 H4].
  assert (Double.ilog2 x < e + 1) by (apply pow2_lt_inv; lra).
  assert (e < Double.ilog2 x + 1) by (apply pow2_lt_inv; lra).
  lia.
Qed.

(** ** Rounding to the Double.nearest integer *)

Lemma nearest_even_cases (x : Q) :
  let f := Qfloor x in
  (inject_Z f <= x)%Q /\ (x < inject_Z f + 1)%Q
  /\ ((Double.nearest_even x = f /\ (x - inject_Z f <= 1 # 2)%Q)
      \/ (Double.nearest_even x = f + 1 /\ (1 # 2 <= x - inject_Z f)%Q)).
Proof.
  intros f. pose proof (Qfloor_le x) as Hle. pose proof (Qlt_floor x) as Hlt.
  fold f in Hle, Hlt. rewrite inject_Z_plus in Hlt.
  split; [exact Hle |]. split; [exact Hlt |].
  unfold Double.nearest_even. fold f.
  destruct (Qcompare_spec (x - inject_Z f) (1 # 2)) as [Heq | Hl | Hg].
  - destruct (Z.even f); [left | right]; (split; [reflexivity | lra]).
  - left. split; [reflexivity | lra].
  - right. split; [reflexivity | lra].
Qed.

Lemma nearest_even_le (x : Q) (K : Z) : (x <= inject_Z K)%Q -> Double.nearest_even x <= K.
Proof.
  intros Hx. destruct (nearest_even_cases x) as (Hle & Hlt & [[-> Hr] | [-> Hr]]).
  - rewrite Zle_Qle. lra.
  - assert (Qfloor x < K); [| lia]. rewrite Zlt_Qlt. lra.
Qed.

Lemma nearest_even_ge (x : Q) (K : Z) : (inject_Z K <= x)%Q -> K <= Double.nearest_even x.
Proof.
  intros Hx. destruct (nearest_even_cases x) as (Hle & Hlt & [[-> Hr] | [-> Hr]]).
  - assert (K < Qfloor x + 1); [| lia]. rewrite Zlt_Qlt, inject_Z_plus.
    change (inject_Z 1) with 1%Q. lra.
  - assert (K < Qfloor x + 1); [| lia]. rewrite Zlt_Qlt, inject_Z_plus.
    change (inject_Z 1) with 1%Q. lra.
Qed.

Lemma nearest_even_exact (K : Z) : Double.nearest_even (inject_Z K) = K.
Proof.
  pose proof (nearest_even_le (inject_Z K) K (Qle_refl _)).
  pose proof (nearest_even_ge (inject_Z K) K (Qle_refl _)). lia.
Qed.

Lemma nearest_even_below_half (x : Q) (K : Z) :
  (x < inject_Z K - (1 # 2))%Q -> Double.nearest_even x <= K - 1.
Proof.
  intros Hx. destruct (nearest_even_cases x) as (Hle & Hlt & [[-> Hr] | [-> Hr]]).
  - assert (Qfloor x < K); [| lia]. rewrite Zlt_Qlt. lra.
  - assert (Qfloor x + 1 < K); [| lia]. rewrite Zlt_Qlt, inject_Z_plus.
    change (inject_Z 1) with 1%Q. lra.
Qed.

Lemma nearest_even_error (x : Q) :
  (- (1 # 2) <= inject_Z (Double.nearest_even x) - x)%Q
  /\ (inject_Z (Double.nearest_even x) - x <= 1 # 2)%Q.
Proof.
  destruct (nearest_even_cases x) as (Hle & Hlt & [[-> Hr] | [-> Hr]]).
  - split; lra.
  - rewrite inject_Z_plus. change (inject_Z 1) with 1%Q. split; lra.
Qed.

#[global] Instance nearest_even_comp : Proper (Qeq ==> eq) Double.nearest_even.
Proof.
  intros x y Hxy. unfold Double.nearest_even. rewrite (Qfloor_comp _ _ Hxy).
  assert (H : (x - inject_Z (Qfloor y) == y - inject_Z (Qfloor y))%Q)
    by (rewrite Hxy; reflexivity).
  rewrite (Qcompare_comp _ _ H _ _ (Qeq_refl (1 # 2))). reflexivity.
Qed.

(** ** Rounding to the Double.nearest double *)

(** The rounding does not depend on how the fraction is written. *)
Lemma ilog2_comp (x y : Q) : (0 < x)%Q -> (x == y)%Q -> Double.ilog2 x = Double.ilog2 y.
Proof.
  intros Hx Hxy. destruct (ilog2_spec x Hx) as [H1 H2].
  symmetry. apply ilog2_unique; rewrite <- Hxy; assumption.
Qed.

Lemma nearest_pos_comp (x y : Q) :
  (0 < x)%Q -> (x == y)%Q -> (Double.nearest_pos x == Double.nearest_pos y)%Q.
Proof.
  intros Hx Hxy. unfold Double.nearest_pos, Double.ulp_exponent.
  rewrite (ilog2_comp x y Hx Hxy).
  assert (H : (x / Double.pow2 (Z.max (Double.ilog2 y - 52) (-1074))
               == y / Double.pow2 (Z.max (Double.ilog2 y - 52) (-1074)))%Q)
    by (rewrite Hxy; reflexivity).
  rewrite (nearest_even_comp _ _ H). reflexivity.
Qed.

#[global] Instance nearest_comp : Proper (Qeq ==> Qeq) Double.nearest.
Proof.
  intros x y Hxy. unfold Double.nearest.
  rewrite <- (Qcompare_comp _ _ Hxy _ _ (Qeq_refl 0)).
  destruct (Qcompare_spec x 0) as [H0 | Hneg | Hpos].
  - reflexivity.
  - apply Qopp_comp. apply nearest_pos_comp; [lra | rewrite Hxy; reflexivity].
  - apply nearest_pos_comp; assumption.
Qed.

(** The ulp and the scaled value of a positive number. *)
Lemma ulp_exponent_le (x : Q) (K v : Z) :
  (0 < x)%Q -> K < 2 ^ 53 -> -1074 <= v -> (x <= inject_Z K * Double.pow2 v)%Q ->
  Double.ulp_exponent x <= v.
Proof.
  intros Hx HK Hv Hle. unfold Double.ulp_exponent.
  destruct (ilog2_spec x Hx) as [H1 _].
  assert (Hlt : (Double.pow2 (Double.ilog2 x) < Double.pow2 (v + 53))%Q).
  { rewrite pow2_add. rewrite (pow2_Z 53) by lia.
    pose proof (pow2_pos v).
    assert ((inject_Z K * Double.pow2 v < Double.pow2 v * inject_Z (2 ^ 53))%Q); [| lra].
    rewrite (Qmult_comm (Double.pow2 v)). apply Qmult_lt_compat_r; [assumption |].
    rewrite <- Zlt_Qlt. exact HK. }
  apply pow2_lt_inv in Hlt. lia.
Qed.

Lemma scaled_integer (K v u : Z) :
  u <= v -> (inject_Z K * Double.pow2 v / Double.pow2 u == inject_Z (K * 2 ^ (v - u)))%Q.
Proof.
  intros Huv. rewrite inject_Z_mult, <- (pow2_Z (v - u)) by lia.
  replace v with ((v - u) + u) at 1 by lia. rewrite pow2_add.
  field. pose proof (pow2_pos u). lra.
Qed.

(** Rounding does not cross a double: at most [K * 2^v], the nearest double
    is at most [K * 2^v]. *)
Lemma nearest_pos_le (x : Q) (K v : Z) :
  (0 < x)%Q -> K < 2 ^ 53 -> -1074 <= v -> (x <= inject_Z K * Double.pow2 v)%Q ->
  (Double.nearest_pos x <= inject_Z K * Double.pow2 v)%Q.
Proof.
  intros Hx HK Hv Hle.
  pose proof (ulp_exponent_le x K v Hx HK Hv Hle) as Hu.
  unfold Double.nearest_pos. set (u := Double.ulp_exponent x) in *.
  pose proof (pow2_pos u) as Hpu.
  assert (Hm : Double.nearest_even (x / Double.pow2 u) <= K * 2 ^ (v - u)).
  { apply nearest_even_le. rewrite <- (scaled_integer K v u Hu).
    apply Qmult_le_compat_r; [exact Hle |].
    apply Qlt_le_weak, Qinv_lt_0_compat, Hpu. }
  rewrite Zle_Qle in Hm. rewrite <- (scaled_integer K v u Hu) in Hm.
  apply (Qmult_le_compat_r _ _ (Double.pow2 u)) in Hm; [| lra].
  assert (E : (inject_Z K * Double.pow2 v / Double.pow2 u * Double.pow2 u
               == inject_Z K * Double.pow2 v)%Q)
    by (field; lra).
  rewrite E in Hm. exact Hm.
Qed.

Lemma nearest_pos_nonneg (x : Q) : (0 < x)%Q -> (0 <= Double.nearest_pos x)%Q.
Proof.
  intros Hx. unfold Double.nearest_pos. set (u := Double.ulp_exponent x).
  pose proof (pow2_pos u) as Hpu.
  apply Qmult_le_0_compat; [| lra].
  change 0%Q with (inject_Z 0). rewrite <- Zle_Qle. apply nearest_even_ge.
  change (inject_Z 0) with 0%Q.
  apply Qlt_le_weak. apply Qlt_shift_div_l; [exact Hpu | lra].
Qed.

(** A double is its own nearest double. *)
Lemma nearest_pos_exact (x : Q) (K v : Z) :
  0 < K < 2 ^ 53 -> -1074 <= v -> (x == inject_Z K * Double.pow2 v)%Q ->
  (Double.nearest_pos x == x)%Q.
Proof.
  intros HK Hv Hx.
  pose proof (pow2_pos v) as Hpv.
  assert (HK0 : (0 < inject_Z K)%Q)
    by (change 0%Q with (inject_Z 0); rewrite <- Zlt_Qlt; lia).
  assert (Hpos : (0 < x)%Q) by (rewrite Hx; apply Qmult_lt_0_compat; assumption).
  assert (Hu : Double.ulp_exponent x <= v).
  { apply (ulp_exponent_le x K v); [exact Hpos | lia | exact Hv |].
    rewrite Hx. apply Qle_refl. }
  unfold Double.nearest_pos. set (u := Double.ulp_exponent x) in *.
  pose proof (pow2_pos u) as Hpu.
  assert (E : (x / Double.pow2 u == inject_Z (K * 2 ^ (v - u)))%Q)
    by (rewrite Hx; apply scaled_integer; exact Hu).
  rewrite (nearest_even_comp _ _ E), nearest_even_exact, <- E.
  field. lra.
Qed.

(** Below the middle of two neighbours the lower one is the Double.nearest. *)
Lemma nearest_pos_below (x : Q) (K v : Z) :
  (0 < x)%Q -> 2 ^ 52 < K < 2 ^ 53 -> -1074 <= v ->
  (x < (inject_Z K - (1 # 2)) * Double.pow2 v)%Q ->
  (Double.nearest_pos x <= inject_Z (K - 1) * Double.pow2 v)%Q.
Proof.
  intros Hx HK Hv Hlt.
  pose proof (pow2_pos v) as Hpv.
  destruct (Qlt_le_dec x (Double.pow2 (v + 52))) as [Hsmall | Hbig].
  - (* a binade below: at most 2^52 * 2^v *)
    apply Qle_trans with (inject_Z (2 ^ 52) * Double.pow2 v)%Q.
    + apply nearest_pos_le; [exact Hx | lia | exact Hv |].
      rewrite <- (pow2_Z 52) by lia. rewrite <- pow2_add.
      replace (52 + v) with (v + 52) by lia. lra.
    + apply Qmult_le_compat_r; [| lra]. rewrite <- Zle_Qle. lia.
  - (* the binade of K * 2^v *)
    assert (Hup : (x < Double.pow2 (v + 52 + 1))%Q).
    { replace (v + 52 + 1) with (53 + v) by lia.
      rewrite pow2_add, (pow2_Z 53) by lia.
      assert ((inject_Z K - (1 # 2)) * Double.pow2 v
              < inject_Z (2 ^ 53) * Double.pow2 v)%Q; [| lra].
      apply Qmult_lt_compat_r; [exact Hpv |].
      assert (inject_Z K < inject_Z (2 ^ 53))%Q by (rewrite <- Zlt_Qlt; lia). lra. }
    assert (He : Double.ilog2 x = v + 52) by (apply ilog2_unique; assumption).
    unfold Double.nearest_pos, Double.ulp_exponent. rewrite He.
    replace (Z.max (v + 52 - 52) (-1074)) with v by lia.
    apply Qmult_le_compat_r; [| lra]. rewrite <- Zle_Qle.
    apply nearest_even_below_half.
    apply Qlt_shift_div_r; [exact Hpv | exact Hlt].
Qed.

(** The Double.nearest double is within half an ulp. *)
Lemma nearest_pos_error (x : Q) (K v : Z) :
  (0 < x)%Q -> K < 2 ^ 53 -> -1074 <= v -> (x <= inject_Z K * Double.pow2 v)%Q ->
  (- Double.pow2 (v - 1) <= Double.nearest_pos x - x)%Q
  /\ (Double.nearest_pos x - x <= Double.pow2 (v - 1))%Q.
Proof.
  intros Hx HK Hv Hle.
  pose proof (ulp_exponent_le x K v Hx HK Hv Hle) as Hu.
  unfold Double.nearest_pos. set (u := Double.ulp_exponent x) in *.
  pose proof (pow2_pos u) as Hpu.
  destruct (nearest_even_error (x / Double.pow2 u)) as [E1 E2].
  set (m := inject_Z (Double.nearest_even (x / Double.pow2 u))) in *.
  assert (Hhalf : (Double.pow2 (u - 1) * 2 == Double.pow2 u)%Q).
  { replace u with ((u - 1) + 1) at 2 by lia. rewrite pow2_add. reflexivity. }
  assert (Hmono : (Double.pow2 (u - 1) <= Double.pow2 (v - 1))%Q) by (apply pow2_le; lia).
  assert (Ex : (x == x / Double.pow2 u * Double.pow2 u)%Q) by (field; lra).
  assert (H1 : ((m - x / Double.pow2 u) * Double.pow2 u <= (1 # 2) * Double.pow2 u)%Q)
    by (apply Qmult_le_compat_r; lra).
  assert (H2 : (- (1 # 2) * Double.pow2 u <= (m - x / Double.pow2 u) * Double.pow2 u)%Q)
    by (apply Qmult_le_compat_r; lra).
  assert (Hd : ((m - x / Double.pow2 u) * Double.pow2 u == m * Double.pow2 u - x)%Q)
    by (field; lra).
  rewrite Hd in H1, H2. split; lra.
Qed.

(** ** Arithmetic of JavaScript numbers *)

(** A result below 2^1024 is finite. *)
Lemma round_finite (x q : Q) :
  (Double.nearest x == q)%Q -> (Qabs q < Double.pow2 1024)%Q ->
  Double.round x = Finite (Qred q).
Proof.
  intros Hq Hsmall. unfold Double.round.
  destruct (Qle_bool (Double.pow2 1024) (Qabs (Double.nearest x))) eqn:Hbig.
  - apply Qle_bool_iff in Hbig. rewrite Hq in Hbig. lra.
  - f_equal. apply Qred_complete. exact Hq.
Qed.

Lemma nearest_0 (x : Q) : (x == 0)%Q -> Double.nearest x = 0%Q.
Proof.
  intros Hx. unfold Double.nearest. rewrite (proj1 (Qeq_alt x 0) Hx). reflexivity.
Qed.

Lemma nearest_pos_eq (x : Q) : (0 < x)%Q -> Double.nearest x = Double.nearest_pos x.
Proof.
  intros Hx. unfold Double.nearest. rewrite (proj1 (Qgt_alt x 0) Hx). reflexivity.
Qed.

(** Rounding does not cross a double: a number between 0 and the double
    [K * 2^v] has its Double.nearest double there. *)
Lemma nearest_bounds (x : Q) (K v : Z) :
  0 <= K < 2 ^ 53 -> -1074 <= v ->
  (0 <= x)%Q -> (x <= inject_Z K * Double.pow2 v)%Q ->
  (0 <= Double.nearest x)%Q /\ (Double.nearest x <= inject_Z K * Double.pow2 v)%Q.
Proof.
  intros HK Hv H0 Hle.
  destruct (Qeq_dec x 0) as [Hz | Hnz].
  - rewrite (nearest_0 x Hz). split; [lra |]. rewrite <- Hz. exact Hle.
  - assert (Hx : (0 < x)%Q) by (destruct (Qlt_le_dec 0 x); [assumption |];
                                exfalso; apply Hnz; lra).
    rewrite (nearest_pos_eq x Hx).
    split; [apply nearest_pos_nonneg, Hx | apply nearest_pos_le; [| lia | |]; assumption].
Qed.

(** Integers below 2^53 are doubles. *)
Lemma nearest_exact (k : Z) :
  0 <= k < 2 ^ 53 -> (Double.nearest (inject_Z k) == inject_Z k)%Q.
Proof.
  intros Hk. destruct (Z.eq_dec k 0) as [-> | Hnz]; [reflexivity |].
  assert (Hpos : (0 < inject_Z k)%Q)
    by (change 0%Q with (inject_Z 0); rewrite <- Zlt_Qlt; lia).
  rewrite (nearest_pos_eq _ Hpos).
  apply (nearest_pos_exact _ k 0); [lia | lia |].
  change (Double.pow2 0) with 1%Q. ring.
Qed.

Lemma js_number_exact (k : Z) :
  0 <= k < 2 ^ 53 -> js_number k = Finite (Qred (inject_Z k)).
Proof.
  intros Hk. apply round_finite; [apply nearest_exact, Hk |].
  rewrite Qabs_pos by (change 0%Q with (inject_Z 0); rewrite <- Zle_Qle; lia).
  rewrite (pow2_Z 1024) by lia. rewrite <- Zlt_Qlt.
  apply Z.lt_trans with (2 ^ 53); [lia |]. apply Z.pow_lt_mono_r; lia.
Qed.

(** The percentage of [s] out of [t] as the code computes it: finite,
    from 0 to 100, 100 for [s = t] only, and within 2^-45 of the exact
    percentage. *)
Lemma percentage_spec (s t : Z) :
  0 <= s <= t -> 0 < t < 2 ^ 53 ->
  let q := Double.nearest (Double.nearest (inject_Z s / inject_Z t) * 100) in
  js_mul (js_div (js_number s) (js_number t)) (js_number 100) = Finite (Qred q)
  /\ (0 <= q)%Q /\ (q <= 100)%Q
  /\ ((q == 100)%Q <-> s = t)
  /\ (Qabs (q - inject_Z s / inject_Z t * 100) <= Double.pow2 (-45))%Q.
Proof.
  intros Hs Ht q.
  set (x := (inject_Z s / inject_Z t)%Q) in *.
  assert (Ht0 : (0 < inject_Z t)%Q)
    by (change 0%Q with (inject_Z 0); rewrite <- Zlt_Qlt; lia).
  assert (Hs0 : (0 <= inject_Z s)%Q)
    by (change 0%Q with (inject_Z 0); rewrite <- Zle_Qle; lia).
  assert (Hst : (inject_Z s <= inject_Z t)%Q) by (rewrite <- Zle_Qle; lia).
  assert (Hx0 : (0 <= x)%Q) by (apply Qle_shift_div_l; lra).
  assert (Hx1 : (x <= 1)%Q) by (apply Qle_shift_div_r; lra).
  set (r := Double.nearest x) in *.
  destruct (nearest_bounds x 1 0 ltac:(lia) ltac:(lia) Hx0) as [Hr0 Hr1];
    [change (inject_Z 1 * Double.pow2 0)%Q with (1 * 1)%Q; lra |].
  change (inject_Z 1 * Double.pow2 0)%Q with (1 * 1)%Q in Hr1. fold r in Hr0, Hr1.
  assert (Hy0 : (0 <= r * 100)%Q) by lra.
  assert (Hy1 : (r * 100 <= 100)%Q) by lra.
  destruct (nearest_bounds (r * 100) 100 0 ltac:(lia) ltac:(lia) Hy0) as [Hq0 Hq1];
    [change (inject_Z 100 * Double.pow2 0)%Q with (100 * 1)%Q; lra |].
  change (inject_Z 100 * Double.pow2 0)%Q with (100 * 1)%Q in Hq1. fold q in Hq0, Hq1.
  assert (Hbig : (100 < Double.pow2 1024)%Q).
  { rewrite (pow2_Z 1024) by lia. change 100%Q with (inject_Z 100).
    rewrite <- Zlt_Qlt. apply Z.lt_trans with (2 ^ 7); [lia |].
    apply Z.pow_lt_mono_r; lia. }
  split.
  { rewrite (js_number_exact s) by lia. rewrite (js_number_exact t) by lia.
    assert (H100 : js_number 100 = Finite 100) by (vm_compute; reflexivity).
    rewrite H100. unfold js_div.
    assert (Htnz : Qeq_bool (Qred (inject_Z t)) 0 = false).
    { destruct (Qeq_bool (Qred (inject_Z t)) 0) eqn:E; [| reflexivity].
      apply Qeq_bool_eq in E. rewrite Qred_correct in E. lra. }
    rewrite Htnz.
    assert (Hdiv : (Qred (inject_Z s) / Qred (inject_Z t) == x)%Q)
      by (rewrite !Qred_correct; reflexivity).
    rewrite (round_finite _ r).
    - unfold js_mul. apply round_finite.
      + unfold q. apply nearest_comp. rewrite Qred_correct. reflexivity.
      + rewrite Qabs_pos by exact Hq0. lra.
    - unfold r. apply nearest_comp. exact Hdiv.
    - rewrite Qabs_pos by exact Hr0. lra. }
  split; [exact Hq0 |]. split; [lra |].
  split.
  - split.
    + (* below 100 unless all succeeded *)
      intros Hq. destruct (Z.eq_dec s t) as [| Hne]; [assumption | exfalso].
      assert (Hlt : s <= t - 1) by lia.
      (* x <= 1 - 2^-53 *)
      assert (Hx : (x <= inject_Z (2 ^ 53 - 1) * Double.pow2 (-53))%Q).
      { assert (E : (inject_Z (2 ^ 53 - 1) * Double.pow2 (-53) == 1 - (1 # 2 ^ 53))%Q)
          by reflexivity.
        rewrite E. apply Qle_shift_div_r; [exact Ht0 |].
        assert (H1 : (inject_Z (s + 1) <= inject_Z t)%Q) by (rewrite <- Zle_Qle; lia).
        rewrite inject_Z_plus in H1. change (inject_Z 1) with 1%Q in H1.
        assert (H2 : (inject_Z t <= inject_Z (2 ^ 53))%Q) by (rewrite <- Zle_Qle; lia).
        change (inject_Z (2 ^ 53)) with (9007199254740992 # 1)%Q in H2.
        change (1 # 2 ^ 53)%Q with (1 # 9007199254740992)%Q.
        lra. }
      destruct (nearest_bounds x (2 ^ 53 - 1) (-53) ltac:(lia) ltac:(lia) Hx0 Hx)
        as [_ Hr]. fold r in Hr.
      assert (E : (inject_Z (2 ^ 53 - 1) * Double.pow2 (-53)
                   == 9007199254740991 # 9007199254740992)%Q) by reflexivity.
      rewrite E in Hr.
      destruct (Qeq_dec (r * 100) 0) as [Hz | Hnz].
      * unfold q in Hq. rewrite (nearest_0 _ Hz) in Hq. discriminate.
      * assert (Hy : (0 < r * 100)%Q) by (destruct (Qlt_le_dec 0 (r * 100));
                                          [assumption | exfalso; apply Hnz; lra]).
        assert (Hbelow : (Double.nearest_pos (r * 100)
                          <= inject_Z (100 * 2 ^ 46 - 1) * Double.pow2 (-46))%Q).
        { apply nearest_pos_below; [exact Hy | lia | lia |].
          assert (E' : ((inject_Z (100 * 2 ^ 46) - (1 # 2)) * Double.pow2 (-46)
                        == 100 - (1 # 2 ^ 47))%Q) by reflexivity.
          rewrite E'. change (1 # 2 ^ 47)%Q with (1 # 140737488355328)%Q. lra. }
        unfold q in Hq. rewrite (nearest_pos_eq _ Hy) in Hq.
        assert (E' : (inject_Z (100 * 2 ^ 46 - 1) * Double.pow2 (-46)
                      == 100 - (1 # 2 ^ 46))%Q) by reflexivity.
        rewrite E' in Hbelow. change (1 # 2 ^ 46)%Q with (1 # 70368744177664)%Q in Hbelow.
        lra.
    + intros ->.
      assert (Hx : (x == 1)%Q) by (unfold x; field; lra).
      assert (Hr : (r == 1)%Q).
      { unfold r. rewrite (nearest_comp _ _ Hx). exact (nearest_exact 1 ltac:(lia)). }
      unfold q. assert (Hy : (r * 100 == inject_Z 100)%Q) by (rewrite Hr; reflexivity).
      rewrite (nearest_comp _ _ Hy). exact (nearest_exact 100 ltac:(lia)).
  - (* the error of the two roundings *)
    assert (Er : (- Double.pow2 (-53) <= r - x)%Q /\ (r - x <= Double.pow2 (-53))%Q).
    { destruct (Qeq_dec x 0) as [Hz | Hnz].
      - unfold r. rewrite (nearest_0 _ Hz), Hz. split; discriminate.
      - assert (Hx : (0 < x)%Q) by (destruct (Qlt_le_dec 0 x);
                                    [assumption | exfalso; apply Hnz; lra]).
        unfold r. rewrite (nearest_pos_eq _ Hx).
        apply (nearest_pos_error x (2 ^ 52) (-52)); [exact Hx | lia | lia |].
        assert (E : (inject_Z (2 ^ 52) * Double.pow2 (-52) == 1)%Q) by reflexivity.
        rewrite E. exact Hx1. }
    assert (Eq : (- Double.pow2 (-47) <= q - r * 100)%Q
                 /\ (q - r * 100 <= Double.pow2 (-47))%Q).
    { destruct (Qeq_dec (r * 100) 0) as [Hz | Hnz].
      - unfold q. rewrite (nearest_0 _ Hz), Hz. split; discriminate.
      - assert (Hy : (0 < r * 100)%Q) by (destruct (Qlt_le_dec 0 (r * 100));
                                          [assumption | exfalso; apply Hnz; lra]).
        unfold q. rewrite (nearest_pos_eq _ Hy).
        apply (nearest_pos_error (r * 100) (100 * 2 ^ 46) (-46));
          [exact Hy | lia | lia |].
        assert (E : (inject_Z (100 * 2 ^ 46) * Double.pow2 (-46) == 100)%Q)
          by reflexivity.
        rewrite E. exact Hy1. }
    destruct Er as [Er1 Er2]. destruct Eq as [Eq1 Eq2].
    change (Double.pow2 (-53)) with (1 # 9007199254740992)%Q in Er1, Er2.
    change (Double.pow2 (-47)) with (1 # 140737488355328)%Q in Eq1, Eq2.
    change (Double.pow2 (-45)) with (1 # 35184372088832)%Q.
    apply Qabs_Qle_condition. split; lra.
Qed.

(* ===================================================================== *)
(** ** Statistics *)
(* ===================================================================== *)






(** Without history the statistics are all zero. *)
Example stats_without_history : executionLogStorage.getStats "user_1" []
  = mkStats 0 (Finite 0) 0.
Proof. reflexivity. Qed.

(** Three successful runs of 100, 200 and 300 ms: 3 runs, 100 percent,
    200 ms on average. *)
Example stats_three_runs :
  let tbl := logged_runs 1 [100; 200; 300] [] in
  totalRuns (executionLogStorage.getStats "user_1" tbl) = 3
  /\ avgDurationMs (executionLogStorage.getStats "user_1" tbl) = 200
  /\ successRate (executionLogStorage.getStats "user_1" tbl) = Finite 100.
Proof.
  cbn zeta. split; [vm_compute; reflexivity |]. split; vm_compute; reflexivity.
Qed.

(** One success in three runs: the rate is the double that prints as
    33.33333333333333, the product of the double nearest to 1/3 and 100,
    and neither 100/3 nor the double nearest to it, 33.333333333333336. *)
Example stats_rate_of_one_in_three :
  let tbl :=
    [ mkLogRow "log_1" "r_1" "Digest" "user_1" "scheduled" StatusSuccess None None None
        None 1700000000000;
      mkLogRow "log_2" "r_1" "Digest" "user_1" "scheduled" StatusFailure None None None
        None 1700000100000;
      mkLogRow "log_3" "r_1" "Digest" "user_1" "scheduled" StatusPartial None None None
        None 1700000200000 ] in
  successRate (executionLogStorage.getStatsByRuleId "r_1" tbl)
  = Finite (2345624805922133 # 70368744177664)
  /\ Double.round (100 # 3) = Finite (4691249611844267 # 140737488355328)
  /\ js_div (js_number 1) (js_number 3)
     = Finite (6004799503160661 # 18014398509481984).
Proof. cbn zeta. split; [| split]; vm_compute; reflexivity. Qed.

(** The products and the quotients of [Double] are those of the binary64
    operations of the kernel, on ordinary operands, on ties, and where the
    result is subnormal, underflows or overflows. *)
Example arithmetic_agrees_with_binary64 :
  forallb (fun '(m1, e1, m2, e2) =>
             let x := (inject_Z m1 * Double.pow2 e1)%Q in
             let y := (inject_Z m2 * Double.pow2 e2)%Q in
             same_number (Double.round x) (binary64 m1 e1)
             && same_number (Double.round y) (binary64 m2 e2)
             && same_number (js_mul (Finite x) (Finite y))
                  (PrimFloat.mul (binary64 m1 e1) (binary64 m2 e2))
             && same_number (js_div (Finite x) (Finite y))
                  (PrimFloat.div (binary64 m1 e1) (binary64 m2 e2)))
    operand_samples = true.
Proof. vm_compute. reflexivity. Qed.

(** The arithmetic of [Double] gives the rates the binary64 operations of
    the kernel give, here for every share of up to 64 runs. *)
Example rates_agree_with_binary64 :
  forallb (fun '(s, t) =>
             match js_mul (js_div (js_number s) (js_number t)) (js_number 100),
                   binary64_percentage s t with
             | Finite q, Some q' => Qeq_bool q q'
             | _, _ => false
             end)
    (shares 64) = true.
Proof. vm_compute. reflexivity. Qed.


(** A duration of 0 is stored as NULL and does not count in the average:
    runs of 0 ms and 100 ms average to 100. *)
Lemma stats_zero_duration_skipped :
  let tbl := logged_runs 1 [0; 100] [] in
  map log_durationMs tbl = [None; Some 100]
  /\ totalRuns (executionLogStorage.getStats "user_1" tbl) = 2
  /\ avgDurationMs (executionLogStorage.getStats "user_1" tbl) = 100.
Proof. cbn zeta. split; [| split]; vm_compute; reflexivity. Qed.


(* ===================================================================== *)
(** * Further properties of the storage and the routes *)
(* ===================================================================== *)

(** ** Counting runs *)

Lemma Forall2_same {A} (R : A -> A -> Prop) (l : list A) :
  (forall x, R x x) -> Forall2 R l l.
Proof. intros HR. induction l; constructor; auto. Qed.

(** X1. Calling [incrementExecutionCount] [k] times adds [k] to the counter
    of the rows of the id and leaves every other row as it is. *)
Theorem incrementExecutionCount_adds (id : string) (dbNow : Z) (k : nat)
    (tbl : RuleTable) :
  Forall2 (fun r r' =>
             (has_id id r -> forall n, r c_executionCount = JNum n ->
                r' c_executionCount = JNum (n + Z.of_nat k))
             /\ (has_id id r <-> has_id id r')
             /\ (~ has_id id r -> r' = r))
    tbl (Nat.iter k (executionRulesStorage.incrementExecutionCount id dbNow) tbl).
Proof.
  induction k as [| k IH].
  - cbn. apply Forall2_same. intros r. split; [| tauto].
    intros _ n ->. f_equal. lia.
  - change (Nat.iter (S k) (executionRulesStorage.incrementExecutionCount id dbNow) tbl)
      with (executionRulesStorage.incrementExecutionCount id dbNow
              (Nat.iter k (executionRulesStorage.incrementExecutionCount id dbNow) tbl)).
    revert IH.
    generalize (Nat.iter k (executionRulesStorage.incrementExecutionCount id dbNow) tbl).
    intros t1 H1.
    unfold executionRulesStorage.incrementExecutionCount, updateWhereId.
    induction H1 as [| r r1 tbl t1 (Hn & Hid & Hno) _ IH]; cbn [map];
      constructor; [| exact IH].
    destruct (decide (has_id id r1)) as [Hr1 | Hr1].
    + split; [| split].
      * intros Hr n Hcount.
        rewrite set_col_ne by discriminate. rewrite set_col_eq.
        rewrite (Hn Hr n Hcount). cbn. f_equal. lia.
      * rewrite Hid. unfold has_id.
        rewrite !set_col_ne by discriminate. tauto.
      * intros Hr. apply Hid in Hr1. contradiction.
    + split; [| split].
      * intros Hr. apply Hid in Hr. contradiction.
      * exact Hid.
      * exact Hno.
Qed.

(** ** Rules that are due *)

#[global] Instance by_scheduleNextRun_asc_total : Total by_scheduleNextRun_asc.
Proof.
  intros r1 r2. unfold by_scheduleNextRun_asc, null_leb. order_cases; auto.
Qed.

#[global] Instance by_scheduleNextRun_asc_trans : Transitive by_scheduleNextRun_asc.
Proof.
  intros r1 r2 r3. unfold by_scheduleNextRun_asc, null_leb. order_cases.
Qed.

(** X2. [getScheduledRulesDue] returns exactly the rows that are active,
    have the schedule enabled, an activation mode ['scheduled'] or ['all']
    and a next run that is not NULL and not after [NOW()], each once,
    earliest next run first; the rules it returns are active and enabled. *)
Theorem scheduled_rules_due (isSupabase : bool) (LocalTZA : Z -> bool -> Z)
    (dbNow : Z) (tbl : RuleTable) :
  executionRulesStorage.getScheduledRulesDue_rows dbNow tbl
    ≡ₚ filter (fun r => sql_is_true (r c_scheduleEnabled) = true
                        /\ due_at dbNow r /\ is_active r
                        /\ mode_in "scheduled" "all" r) tbl
  /\ StronglySorted by_scheduleNextRun_asc
       (executionRulesStorage.getScheduledRulesDue_rows dbNow tbl)
  /\ (forall r,
        r ∈ executionRulesStorage.getScheduledRulesDue_rows dbNow tbl ->
        exists t, r c_scheduleNextRun = JDate t /\ t <= dbNow)
  /\ (forall rule,
        rule ∈ executionRulesStorage.getScheduledRulesDue isSupabase LocalTZA dbNow tbl ->
        ExecutionRule.isActive rule = true
        /\ ExecutionRule.scheduleEnabled rule = true
        /\ (ExecutionRule.activationMode rule = JStr "scheduled"
            \/ ExecutionRule.activationMode rule = JStr "all")).
Proof.
  assert (Hin : forall r,
             r ∈ executionRulesStorage.getScheduledRulesDue_rows dbNow tbl ->
             sql_is_true (r c_scheduleEnabled) = true /\ due_at dbNow r
             /\ is_active r /\ mode_in "scheduled" "all" r).
  { intros r Hr. unfold executionRulesStorage.getScheduledRulesDue_rows in Hr.
    rewrite merge_sort_Permutation in Hr.
    apply list_elem_of_filter in Hr as [Hr _]. exact Hr. }
  split; [apply merge_sort_Permutation |].
  split; [apply StronglySorted_merge_sort; apply _ |].
  split.
  - intros r Hr. destruct (Hin r Hr) as (_ & Hdue & _).
    unfold due_at, sql_timestamp in Hdue.
    destruct (r c_scheduleNextRun) as [| | | | | t | |]; try discriminate.
    exists t. split; [reflexivity | apply Z.leb_le; exact Hdue].
  - intros rule Hrule.
    unfold executionRulesStorage.getScheduledRulesDue, mapRows in Hrule.
    apply list_elem_of_fmap in Hrule as (r & -> & Hr).
    destruct (Hin r Hr) as (Hen & _ & Hact & Hmode).
    rewrite mapped_isActive, mapped_scheduleEnabled, mapped_activationMode.
    unfold is_active, sql_is_true in Hact, Hen.
    unfold mode_in, sql_eq_text in Hmode.
    destruct (r c_isActive) as [| | [|] | | | | |]; try discriminate.
    destruct (r c_scheduleEnabled) as [| | [|] | | | | |]; try discriminate.
    destruct (r c_activationMode) as [| | | | m | | |]; try discriminate.
    split; [reflexivity |]. split; [reflexivity |].
    apply orb_true_iff in Hmode as [Hm | Hm]; apply String.eqb_eq in Hm; subst m;
      [left | right]; reflexivity.
Qed.

(** X3. After [updateScheduleRun] the rule is not due again before the next
    run it has set: at no time before it does [getScheduledRulesDue] return
    a row of the id. *)
Theorem updateScheduleRun_not_due_before_next (LocalTZA : Z -> bool -> Z)
    (id : string) (interval : ScheduleInterval) (clock dbNow next : Z)
    (tbl tbl' : RuleTable) :
  calculateNextRunTime LocalTZA interval None clock = Some next ->
  executionRulesStorage.updateScheduleRun LocalTZA id interval clock dbNow tbl
  = Some tbl' ->
  forall later r,
    later < next ->
    r ∈ executionRulesStorage.getScheduledRulesDue_rows later tbl' ->
    ~ has_id id r.
Proof.
  intros Hnext Hrun later r Hlater Hr Hid.
  unfold executionRulesStorage.updateScheduleRun in Hrun. rewrite Hnext in Hrun.
  cbn [dateParam fmap option_fmap option_map mbind option_bind] in Hrun.
  injection Hrun as <-.
  unfold executionRulesStorage.getScheduledRulesDue_rows in Hr.
  rewrite merge_sort_Permutation in Hr.
  apply list_elem_of_filter in Hr as [(_ & Hdue & _) Hr].
  unfold updateWhereId in Hr. apply list_elem_of_fmap in Hr as (r0 & -> & _).
  destruct (decide (has_id id r0)) as [H0 | H0]; [| contradiction].
  unfold due_at in Hdue. rewrite !set_col_ne in Hdue by discriminate.
  rewrite set_col_eq in Hdue. cbn in Hdue. apply Z.leb_le in Hdue. lia.
Qed.

(** The hypotheses above hold on a UTC host for the due sample rule. *)
Lemma updateScheduleRun_not_due_before_next_witness :
  exists tbl',
    calculateNextRunTime zone_utc Daily None 1700003600000 = Some 1700090000000
    /\ executionRulesStorage.updateScheduleRun zone_utc "r_due" Daily 1700003600000
         1700003600005 [due_row "r_due" "user_1" 1700000000000] = Some tbl'
    /\ forall r,
         r ∈ executionRulesStorage.getScheduledRulesDue_rows 1700089999999 tbl' ->
         ~ has_id "r_due" r.
Proof.
  assert (Hnext : calculateNextRunTime zone_utc Daily None 1700003600000
                  = Some 1700090000000) by (vm_compute; reflexivity).
  destruct (executionRulesStorage.updateScheduleRun zone_utc "r_due" Daily
              1700003600000 1700003600005 [due_row "r_due" "user_1" 1700000000000])
    as [tbl' |] eqn:Hrun; [| vm_compute in Hrun; discriminate].
  exists tbl'. split; [exact Hnext |]. split; [reflexivity |].
  intros r.
  apply (updateScheduleRun_not_due_before_next _ _ _ _ _ _ _ _ Hnext Hrun). lia.
Defined.

(** X4. [updateScheduleRun] counts the run the way [incrementExecutionCount]
    does: the two leave the same table except for [scheduleLastRun] and
    [scheduleNextRun]. *)
Theorem updateScheduleRun_counts_run (LocalTZA : Z -> bool -> Z)
    (id : string) (interval : ScheduleInterval) (clock dbNow : Z)
    (tbl tbl' : RuleTable) :
  executionRulesStorage.updateScheduleRun LocalTZA id interval clock dbNow tbl
  = Some tbl' ->
  Forall2 (fun counted advanced =>
             forall c, c <> c_scheduleLastRun -> c <> c_scheduleNextRun ->
                       advanced c = counted c)
    (executionRulesStorage.incrementExecutionCount id dbNow tbl) tbl'.
Proof.
  unfold executionRulesStorage.updateScheduleRun.
  destruct (calculateNextRunTime LocalTZA interval None clock) as [next |];
    cbn [dateParam fmap option_fmap option_map mbind option_bind]; [| discriminate].
  intros [= <-].
  unfold executionRulesStorage.incrementExecutionCount, updateWhereId.
  induction tbl as [| r tbl IH]; cbn [map]; constructor; [| exact IH].
  intros c H1 H2.
  destruct (decide (has_id id r)); [| reflexivity].
  unfold set_col. repeat case_decide; subst; try reflexivity; congruence.
Qed.

(** The hypothesis above holds on a UTC host for the due sample rule. *)
Lemma updateScheduleRun_counts_run_witness :
  exists tbl',
    executionRulesStorage.updateScheduleRun zone_utc "r_due" Daily 1700003600000
      1700003600005 [due_row "r_due" "user_1" 1700000000000] = Some tbl'
    /\ Forall2 (fun counted advanced =>
                  forall c, c <> c_scheduleLastRun -> c <> c_scheduleNextRun ->
                            advanced c = counted c)
         (executionRulesStorage.incrementExecutionCount "r_due" 1700003600005
            [due_row "r_due" "user_1" 1700000000000]) tbl'.
Proof.
  destruct (executionRulesStorage.updateScheduleRun zone_utc "r_due" Daily
              1700003600000 1700003600005 [due_row "r_due" "user_1" 1700000000000])
    as [tbl' |] eqn:Hrun; [| vm_compute in Hrun; discriminate].
  exists tbl'. split; [reflexivity |].
  exact (updateScheduleRun_counts_run _ _ _ _ _ _ _ Hrun).
Defined.

(** ** Writing and reading back *)

Lemma applySet_pushField_ne {A} (field : option A) (c c' : Column) (value : A -> JSVal)
    (s : list (Column * JSVal)) (r : RuleRow) :
  c <> c' -> applySet (pushField field c' value s) r c = applySet s r c.
Proof.
  intros Hne. destruct field; cbn [pushField]; [| reflexivity].
  rewrite applySet_snoc. apply set_col_ne. exact Hne.
Qed.

Lemma applySet_pushField_eq {A} (x : A) (c : Column) (value : A -> JSVal)
    (s : list (Column * JSVal)) (r : RuleRow) :
  applySet (pushField (Some x) c value s) r c = value x.
Proof. cbn [pushField]. rewrite applySet_snoc. apply set_col_eq. Qed.

(** Applying the clauses of [update] gives every column the input specifies
    the value of the input. *)
Lemma setClausesOf_value (LocalTZA : Z -> bool -> Z) (input : ExecutionRuleInput.t)
    (clock : Z) (s : list (Column * JSVal)) (r : RuleRow) (c : Column) (v : JSVal) :
  setClausesOf LocalTZA input clock = Some s ->
  input_value input c = Some v ->
  applySet s r c = v.
Proof.
  destruct input as [nm ds ac pr tr tc st oc md en iv].
  unfold setClausesOf, input_value.
  cbn [ExecutionRuleInput.name ExecutionRuleInput.description ExecutionRuleInput.isActive
       ExecutionRuleInput.priority ExecutionRuleInput.acceptedTriggers
       ExecutionRuleInput.topicCondition ExecutionRuleInput.executionSteps
       ExecutionRuleInput.outputConfig ExecutionRuleInput.activationMode
       ExecutionRuleInput.scheduleEnabled ExecutionRuleInput.scheduleInterval].
  cbv zeta.
  intros Hs Hv.
  assert (Htail : exists s10 tail,
             s = s10 ++ tail
             /\ s10 = pushField en c_scheduleEnabled JBool
                        (pushField md c_activationMode
                           (fun m => JStr (ActivationMode_str m))
                           (pushField oc c_outputConfig (fun config => config)
                              (pushField st c_executionSteps JArr
                                 (pushField tc c_topicCondition JStr
                                    (pushField tr c_acceptedTriggers
                                       (fun l => JArr (map JStr l))
                                       (pushField pr c_priority JNum
                                          (pushField ac c_isActive JBool
                                             (pushField ds c_description JStr
                                                (pushField nm c_name JStr [])))))))))
             /\ ((iv = None /\ tail = [])
                 \/ exists i,
                      iv = Some i
                      /\ (tail = [(c_scheduleInterval, JStr (ScheduleInterval_str i))]
                          \/ exists t,
                               tail = [(c_scheduleInterval, JStr (ScheduleInterval_str i));
                                       (c_scheduleNextRun, JDate t)]))).
  { destruct iv as [i |].
    - destruct (negb (bool_decide (en = Some false))).
      + destruct (calculateNextRunTime LocalTZA i None clock) as [t |];
          cbn [dateParam fmap option_fmap option_map mbind option_bind] in Hs;
          [| discriminate].
        injection Hs as <-. eexists _, _. split; [rewrite <- app_assoc; reflexivity |].
        split; [reflexivity |]. right. exists i. split; [reflexivity |].
        right. exists t. reflexivity.
      + injection Hs as <-. eexists _, _. split; [reflexivity |].
        split; [reflexivity |]. right. exists i. split; [reflexivity |].
        left. reflexivity.
    - injection Hs as <-. eexists _, []. split; [rewrite app_nil_r; reflexivity |].
      split; [reflexivity |]. left. split; reflexivity. }
  clear Hs. destruct Htail as (s10 & tail & -> & -> & Htail).
  rewrite applySet_app.
  destruct c; try discriminate;
    match type of Hv with
    | _ <$> ?f = Some _ => destruct f as [x |]; [| discriminate]
    | ?f = Some _ => destruct f as [x |]; [| discriminate]
    end;
    cbn [fmap option_fmap option_map] in Hv; injection Hv as <-;
    (destruct Htail as [[Hi ->] | (i & Hi & [-> | (t & ->)])];
     [ change (applySet [] ?r') with r'
     | change (applySet [?a] ?r') with (set_col a.1 a.2 r'); cbn [fst snd]
     | change (applySet [?a; ?b] ?r') with (set_col b.1 b.2 (set_col a.1 a.2 r'));
       cbn [fst snd] ]);
    try discriminate; try (injection Hi as <-);
    rewrite ?set_col_eq; rewrite ?set_col_ne by discriminate;
    try reflexivity;
    repeat rewrite applySet_pushField_ne by discriminate;
    rewrite applySet_pushField_eq; reflexivity.
Qed.

(** A filter that every row passes keeps the table; one that no row passes
    leaves nothing. *)
Lemma filter_all {A} (P : A -> Prop) `{!forall x, Decision (P x)} (l : list A) :
  (forall x, x ∈ l -> P x) -> filter P l = l.
Proof.
  induction l as [| x l IH]; intros Hall; [reflexivity |].
  rewrite filter_cons_True by (apply Hall; left).
  f_equal. apply IH. intros y Hy. apply Hall. right. exact Hy.
Qed.

Lemma filter_none {A} (P : A -> Prop) `{!forall x, Decision (P x)} (l : list A) :
  (forall x, x ∈ l -> ~ P x) -> filter P l = [].
Proof.
  induction l as [| x l IH]; intros Hnone; [reflexivity |].
  rewrite filter_cons_False by (apply Hnone; left).
  apply IH. intros y Hy. apply Hnone. right. exact Hy.
Qed.

Lemma updateWhereId_missing (id : string) (f : RuleRow -> RuleRow) (tbl : RuleTable) :
  (forall r, r ∈ tbl -> ~ has_id id r) -> updateWhereId id f tbl = tbl.
Proof.
  unfold updateWhereId. induction tbl as [| r tbl IH]; intros Hnone; [reflexivity |].
  cbn [map]. rewrite decide_False by (apply Hnone; left).
  f_equal. apply IH. intros y Hy. apply Hnone. right. exact Hy.
Qed.

(** What [update] does, with the rule it returns. *)
Lemma update_result (isSupabase : bool) (LocalTZA : Z -> bool -> Z)
    (id : string) (input : ExecutionRuleInput.t) (clock : Z)
    (tbl tbl' : RuleTable) (updated : option ExecutionRule.t) :
  executionRulesStorage.update isSupabase LocalTZA id input clock tbl
  = Some (tbl', updated) ->
  exists s,
    setClausesOf LocalTZA input clock = Some s
    /\ Forall2 (fun r r' => (has_id id r -> r' = applySet s r)
                            /\ (~ has_id id r -> r' = r)) tbl tbl'
    /\ updated = executionRulesStorage.get isSupabase LocalTZA id tbl'.
Proof.
  unfold executionRulesStorage.update.
  destruct (setClausesOf LocalTZA input clock) as [s |];
    cbn [mbind option_bind]; [| discriminate].
  destruct s as [| cv s]; intros [= <- <-]; eexists; (split; [reflexivity |]);
    (split; [| reflexivity]).
  - apply Forall2_same. intros r. split; reflexivity.
  - apply updateWhereId_Forall2.
Qed.

(** X5. [update] writes what it was given: on the rows of the id, every
    column the input specifies holds the value of the input afterwards. *)
Theorem update_writes_input (isSupabase : bool) (LocalTZA : Z -> bool -> Z)
    (id : string) (input : ExecutionRuleInput.t) (clock : Z)
    (tbl tbl' : RuleTable) (updated : option ExecutionRule.t) :
  executionRulesStorage.update isSupabase LocalTZA id input clock tbl
  = Some (tbl', updated) ->
  Forall2 (fun r r' =>
             has_id id r ->
             forall c v, input_value input c = Some v -> r' c = v)
    tbl tbl'.
Proof.
  intros Hupd.
  destruct (update_result _ _ _ _ _ _ _ _ Hupd) as (s & Hs & Hrows & _).
  eapply Forall2_impl; [exact Hrows |].
  intros r r' [Hyes _] Hid c v Hv. rewrite (Hyes Hid).
  exact (setClausesOf_value _ _ _ _ _ _ _ Hs Hv).
Qed.

(** The hypothesis above holds for an update of name and priority of a
    sample rule. *)
Lemma update_writes_input_witness :
  exists tbl' updated,
    executionRulesStorage.update false zone_utc "r_old"
      (ExecutionRuleInput.mk (Some "Renamed") None None (Some 10) None None None None
         None None None)
      1700003600000 sample_rules = Some (tbl', updated)
    /\ Forall2 (fun r r' =>
                  has_id "r_old" r ->
                  forall c v,
                    input_value
                      (ExecutionRuleInput.mk (Some "Renamed") None None (Some 10) None
                         None None None None None None) c = Some v ->
                    r' c = v)
         sample_rules tbl'.
Proof.
  destruct (executionRulesStorage.update false zone_utc "r_old"
              (ExecutionRuleInput.mk (Some "Renamed") None None (Some 10) None None None
                 None None None None)
              1700003600000 sample_rules) as [[tbl' updated] |] eqn:Hupd;
    [| vm_compute in Hupd; discriminate].
  exists tbl', updated. split; [reflexivity |].
  exact (update_writes_input _ _ _ _ _ _ _ _ Hupd).
Defined.

(** X6. [update] of an id that no row has changes nothing and returns
    [undefined]. *)
Theorem update_missing_id (isSupabase : bool) (LocalTZA : Z -> bool -> Z)
    (id : string) (input : ExecutionRuleInput.t) (clock : Z)
    (tbl tbl' : RuleTable) (updated : option ExecutionRule.t) :
  (forall r, r ∈ tbl -> ~ has_id id r) ->
  executionRulesStorage.update isSupabase LocalTZA id input clock tbl
  = Some (tbl', updated) ->
  tbl' = tbl /\ updated = None.
Proof.
  intros Hnone. unfold executionRulesStorage.update.
  destruct (setClausesOf LocalTZA input clock) as [s |];
    cbn [mbind option_bind]; [| discriminate].
  assert (Hget : executionRulesStorage.get isSupabase LocalTZA id tbl = None).
  { unfold executionRulesStorage.get. rewrite (filter_none _ _ Hnone). reflexivity. }
  destruct s as [| cv s]; intros [= <- <-].
  - split; [reflexivity | exact Hget].
  - rewrite (updateWhereId_missing _ _ _ Hnone). split; [reflexivity | exact Hget].
Qed.

(** The hypotheses above hold for an id that is not among the sample
    rules. *)
Lemma update_missing_id_witness :
  (forall r, r ∈ sample_rules -> ~ has_id "r_none" r)
  /\ executionRulesStorage.update false zone_utc "r_none" input_daily_only
       1700003600000 sample_rules = Some (sample_rules, None).
Proof.
  assert (Hnone : forall r, r ∈ sample_rules -> ~ has_id "r_none" r).
  { intros r Hr. unfold sample_rules in Hr.
    repeat (apply elem_of_cons in Hr as [-> | Hr]; [discriminate |]).
    apply elem_of_nil in Hr. destruct Hr. }
  split; [exact Hnone |].
  destruct (executionRulesStorage.update false zone_utc "r_none" input_daily_only
              1700003600000 sample_rules) as [[tbl' updated] |] eqn:Hupd;
    [| vm_compute in Hupd; discriminate].
  destruct (update_missing_id _ _ _ _ _ _ _ _ Hnone Hupd) as [-> ->]. reflexivity.
Defined.

(** X7. [delete] reports whether a row of the id existed; if none did the
    table is as it was; afterwards no row of the id is left and deleting
    again reports [false] and changes nothing. *)
Theorem delete_reports (id : string) (tbl : RuleTable) :
  ((executionRulesStorage.delete id tbl).2 = true <-> exists r, r ∈ tbl /\ has_id id r)
  /\ ((executionRulesStorage.delete id tbl).2 = false ->
      (executionRulesStorage.delete id tbl).1 = tbl)
  /\ (forall r, r ∈ (executionRulesStorage.delete id tbl).1 -> ~ has_id id r)
  /\ executionRulesStorage.delete id (executionRulesStorage.delete id tbl).1
     = ((executionRulesStorage.delete id tbl).1, false).
Proof.
  unfold executionRulesStorage.delete. cbn [fst snd].
  assert (Hex : filter (has_id id) tbl <> [] <-> exists r, r ∈ tbl /\ has_id id r).
  { split.
    - destruct (filter (has_id id) tbl) as [| r rest] eqn:Hf; [congruence |].
      intros _. exists r.
      assert (Hr : r ∈ filter (has_id id) tbl) by (rewrite Hf; left).
      apply list_elem_of_filter in Hr. tauto.
    - intros (r & Hin & Hid) Hf.
      assert (Hr : r ∈ filter (has_id id) tbl) by (apply list_elem_of_filter; tauto).
      rewrite Hf in Hr. apply elem_of_nil in Hr. exact Hr. }
  assert (Hgone : forall r, r ∈ filter (fun r => ~ has_id id r) tbl -> ~ has_id id r).
  { intros r Hr. apply list_elem_of_filter in Hr. tauto. }
  split; [rewrite bool_decide_eq_true; exact Hex |].
  split.
  { rewrite bool_decide_eq_false. intros Hno. apply filter_all.
    intros r Hr Hid. apply Hno, Hex. eauto. }
  split; [exact Hgone |].
  f_equal.
  - apply filter_all. exact Hgone.
  - apply bool_decide_eq_false. intros Hne. apply Hne. apply filter_none.
    intros r Hr Hid. exact (Hgone r Hr Hid).
Qed.

(** The timestamps [mapRuleRow] reports for a stored date are its ISO
    strings. *)
Lemma mapped_createdAt_date (isSupabase : bool) (LocalTZA : Z -> bool -> Z)
    (r : RuleRow) (t : Z) :
  r c_createdAt = JDate t ->
  ExecutionRule.createdAt (mapRuleRow LocalTZA (rowObject isSupabase r))
  = JSDate.toISOString t.
Proof.
  intros Ht.
  assert (H1 : prop (rowObject isSupabase r) "createdAt"
               = if isSupabase then JUndefined else r c_createdAt)
    by (destruct isSupabase; reflexivity).
  assert (H2 : prop (rowObject isSupabase r) "created_at"
               = if isSupabase then r c_createdAt else JUndefined)
    by (destruct isSupabase; reflexivity).
  unfold mapRuleRow. cbn [ExecutionRule.createdAt]. rewrite H1, H2, Ht.
  destruct isSupabase; reflexivity.
Qed.

Lemma mapped_updatedAt_date (isSupabase : bool) (LocalTZA : Z -> bool -> Z)
    (r : RuleRow) (t : Z) :
  r c_updatedAt = JDate t ->
  ExecutionRule.updatedAt (mapRuleRow LocalTZA (rowObject isSupabase r))
  = JSDate.toISOString t.
Proof.
  intros Ht.
  assert (H1 : prop (rowObject isSupabase r) "updatedAt"
               = if isSupabase then JUndefined else r c_updatedAt)
    by (destruct isSupabase; reflexivity).
  assert (H2 : prop (rowObject isSupabase r) "updated_at"
               = if isSupabase then r c_updatedAt else JUndefined)
    by (destruct isSupabase; reflexivity).
  unfold mapRuleRow. cbn [ExecutionRule.updatedAt]. rewrite H1, H2, Ht.
  destruct isSupabase; reflexivity.
Qed.

(** X8. A rule created under a fresh id is read back as it was written:
    [get] finds the rule [create] returns, with the id, the name and the
    triggers of the input, the defaults for what the input leaves out
    (active, priority 0, mode ['trigger'], schedule off), a run count of 0
    and both timestamps at [NOW()]. *)
Theorem create_reads_back (isSupabase : bool) (LocalTZA : Z -> bool -> Z)
    (id userId : string) (input : ExecutionRuleInput.t) (clock dbNow : Z)
    (tbl tbl' : RuleTable) (created : ExecutionRule.t) :
  (forall r, r ∈ tbl -> ~ has_id id r) ->
  executionRulesStorage.create isSupabase LocalTZA id userId input clock dbNow tbl
  = Some (tbl', created) ->
  executionRulesStorage.get isSupabase LocalTZA id tbl' = Some created
  /\ ExecutionRule.id created = JStr id
  /\ ExecutionRule.name created = textParam (ExecutionRuleInput.name input)
  /\ ExecutionRule.isActive created = default true (ExecutionRuleInput.isActive input)
  /\ ExecutionRule.priority created
     = JNum (default 0 (ExecutionRuleInput.priority input))
  /\ ExecutionRule.acceptedTriggers created
     = JArr (map JStr (default [] (ExecutionRuleInput.acceptedTriggers input)))
  /\ ExecutionRule.executionCount created = JNum 0
  /\ ExecutionRule.activationMode created
     = JStr (ActivationMode_str
               (default ModeTrigger (ExecutionRuleInput.activationMode input)))
  /\ ExecutionRule.scheduleEnabled created
     = default false (ExecutionRuleInput.scheduleEnabled input)
  /\ ExecutionRule.createdAt created = JSDate.toISOString dbNow
  /\ ExecutionRule.updatedAt created = JSDate.toISOString dbNow.
Proof.
  intros Hfresh Hcreate.
  destruct (create_appends _ _ _ _ _ _ _ _ _ _ Hcreate) as (nextRun & -> & _).
  assert (Hget : executionRulesStorage.get isSupabase LocalTZA id
                   (tbl ++ [insertedRow id userId input nextRun dbNow])
                 = Some (mapRuleRow LocalTZA
                           (rowObject isSupabase
                              (insertedRow id userId input nextRun dbNow)))).
  { unfold executionRulesStorage.get.
    rewrite filter_app, (filter_none _ _ Hfresh).
    rewrite filter_cons_True by (unfold has_id; cbn; apply String.eqb_refl).
    reflexivity. }
  assert (Hcreated : created = mapRuleRow LocalTZA
                       (rowObject isSupabase
                          (insertedRow id userId input nextRun dbNow))).
  { unfold executionRulesStorage.create in Hcreate.
    destruct (match ExecutionRuleInput.scheduleEnabled input,
                    ExecutionRuleInput.scheduleInterval input with
              | Some true, Some interval =>
                  dateParam (calculateNextRunTime LocalTZA interval None clock)
              | _, _ => Some JNull
              end) as [nr |]; cbn [mbind option_bind] in Hcreate; [| discriminate].
    destruct (executionRulesStorage.get isSupabase LocalTZA id
                (tbl ++ [insertedRow id userId input nr dbNow])) as [c |] eqn:Hg;
      cbn [mbind option_bind] in Hcreate; [| discriminate].
    injection Hcreate as Htbl <-.
    apply app_inj_tail in Htbl as [_ Hrow]. rewrite <- Hrow in Hget.
    congruence. }
  subst created. split; [exact Hget |].
  rewrite mapped_id, mapped_name, mapped_isActive, mapped_acceptedTriggers,
    mapped_executionCount, mapped_activationMode, mapped_scheduleEnabled.
  rewrite (mapped_priority_int _ _ _ _ eq_refl).
  rewrite (mapped_createdAt_date _ _ _ dbNow eq_refl),
    (mapped_updatedAt_date _ _ _ dbNow eq_refl).
  cbn [insertedRow].
  repeat split; try reflexivity.
  destruct (default ModeTrigger (ExecutionRuleInput.activationMode input)); reflexivity.
Qed.

(** The hypotheses above hold for the first rule of a table. *)
Lemma create_reads_back_witness :
  exists tbl' created,
    (forall r : RuleRow, r ∈ [] -> ~ has_id "rule_1" r)
    /\ executionRulesStorage.create false zone_utc "rule_1" "user_1" input_daily_rule
         1700003600000 1700003600002 [] = Some (tbl', created)
    /\ executionRulesStorage.get false zone_utc "rule_1" tbl' = Some created.
Proof.
  assert (Hfresh : forall r : RuleRow, r ∈ [] -> ~ has_id "rule_1" r)
    by (intros r Hr; apply elem_of_nil in Hr; destruct Hr).
  destruct (executionRulesStorage.create false zone_utc "rule_1" "user_1"
              input_daily_rule 1700003600000 1700003600002 [])
    as [[tbl' created] |] eqn:Hcreate; [| vm_compute in Hcreate; discriminate].
  exists tbl', created. split; [exact Hfresh |]. split; [reflexivity |].
  exact (proj1 (create_reads_back _ _ _ _ _ _ _ _ _ _ Hfresh Hcreate)).
Defined.

(** ** Reads for one user *)

(** X9. [hasActiveRules] is true exactly when the user owns an active row,
    that is when [getActiveByUserId] returns a rule. *)
Theorem hasActiveRules_iff (isSupabase : bool) (LocalTZA : Z -> bool -> Z)
    (userId : string) (tbl : RuleTable) :
  (executionRulesStorage.hasActiveRules userId tbl = true
   <-> exists r, r ∈ tbl /\ owned_by userId r /\ is_active r)
  /\ (executionRulesStorage.hasActiveRules userId tbl = true
      <-> executionRulesStorage.getActiveByUserId isSupabase LocalTZA userId tbl <> []).
Proof.
  unfold executionRulesStorage.hasActiveRules,
    executionRulesStorage.getActiveByUserId,
    executionRulesStorage.getActiveByUserId_rows, mapRows.
  set (rows := filter (fun r => owned_by userId r /\ is_active r) tbl).
  assert (Hrows : forall r, r ∈ rows <-> r ∈ tbl /\ owned_by userId r /\ is_active r).
  { intros r. subst rows. rewrite list_elem_of_filter. tauto. }
  pose proof (merge_sort_Permutation by_priority_desc rows) as Hperm.
  split.
  - destruct rows as [| r rest].
    + split; [discriminate |]. intros (r & Hr). apply Hrows in Hr.
      apply elem_of_nil in Hr. destruct Hr.
    + split; [| reflexivity]. intros _. exists r. apply Hrows. left.
  - destruct rows as [| r rest].
    + apply Permutation_nil_r in Hperm. rewrite Hperm. cbn. split; congruence.
    + split; [| reflexivity]. intros _ Hnil.
      apply fmap_nil_inv in Hnil. rewrite Hnil in Hperm.
      apply Permutation_nil_l in Hperm. discriminate.
Qed.

(** X10. The reads for a user never return a row of another user, and they
    nest: the rules for manual invocation are among the active rules, the
    active rules among all rules of the user, and a lookup by id and user
    finds one of the rules of the user. *)
Theorem reads_of_a_user (isSupabase : bool) (LocalTZA : Z -> bool -> Z)
    (userId : string) (tbl : RuleTable) :
  (forall r, r ∈ executionRulesStorage.getByUserId_rows userId tbl <->
             r ∈ tbl /\ owned_by userId r)
  /\ (forall r, r ∈ executionRulesStorage.getActiveByUserId_rows userId tbl ->
                r ∈ executionRulesStorage.getByUserId_rows userId tbl)
  /\ (forall r, r ∈ executionRulesStorage.getManualRules_rows userId tbl ->
                r ∈ executionRulesStorage.getActiveByUserId_rows userId tbl)
  /\ (forall id rule,
        executionRulesStorage.getByIdAndUser isSupabase LocalTZA id userId tbl
        = Some rule ->
        exists r, r ∈ executionRulesStorage.getByUserId_rows userId tbl
                  /\ has_id id r
                  /\ rule = mapRuleRow LocalTZA (rowObject isSupabase r)).
Proof.
  assert (Hall : forall r, r ∈ executionRulesStorage.getByUserId_rows userId tbl <->
                           r ∈ tbl /\ owned_by userId r).
  { intros r. unfold executionRulesStorage.getByUserId_rows.
    rewrite merge_sort_Permutation, list_elem_of_filter. tauto. }
  assert (Hact : forall r, r ∈ executionRulesStorage.getActiveByUserId_rows userId tbl <->
                           r ∈ tbl /\ owned_by userId r /\ is_active r).
  { intros r. unfold executionRulesStorage.getActiveByUserId_rows.
    rewrite merge_sort_Permutation, list_elem_of_filter. tauto. }
  split; [exact Hall |].
  split; [intros r Hr; apply Hall; apply Hact in Hr; tauto |].
  split.
  - intros r Hr. apply Hact.
    unfold executionRulesStorage.getManualRules_rows in Hr.
    rewrite merge_sort_Permutation in Hr. apply list_elem_of_filter in Hr. tauto.
  - intros id rule Hrule.
    apply getByIdAndUser_Some in Hrule as (r & Hin & Hid & Hown & ->).
    exists r. split; [apply Hall; tauto |]. split; [exact Hid | reflexivity].
Qed.

(** ** Manual invocation, from the list to the call *)

(** X11. A rule that [getManualRules] lists for a user is accepted when
    this user invokes it by its id, provided the id is a non-empty string
    that no other row carries: [processManual] is called exactly once, for
    this rule and with the context of the request (the empty string when
    there is none), the database is what this call leaves, and the answer
    is 200 or, when the call rejects, 500. *)
Theorem manual_rules_invocable (isSupabase : bool) (LocalTZA : Z -> bool -> Z)
    (processManual : string -> ExecutionRule.t -> string ->
                     option (list (string * string)) -> DB -> option ProcessResult.t * DB)
    (session : Session) (request : InvokeRequest.t) (clock : Z) (db : DB)
    (ruleId : string) (r : RuleRow) :
  r ∈ executionRulesStorage.getManualRules_rows (session_userId session) (rules db) ->
  has_id ruleId r ->
  ruleId <> "" ->
  (forall r', r' ∈ rules db -> has_id ruleId r' -> r' = r) ->
  InvokeRequest.ruleId request = JStr ruleId ->
  let rule := mapRuleRow LocalTZA (rowObject isSupabase r) in
  let context := default "" (InvokeRequest.context request) in
  let history := InvokeRequest.conversationHistory request in
  let run := processManual (session_userId session) rule context history db in
  let out := POST isSupabase LocalTZA processManual (Some session) (BodyValue request)
               clock db in
  invocations out = [mkInvocation (session_userId session) rule context history]
  /\ db_after out = run.2
  /\ (status (response out) = 200 <-> is_Some run.1)
  /\ (status (response out) = 500 <-> run.1 = None).
Proof.
  intros Hlisted Hid Hne Hkey Hreq rule context history run out.
  unfold executionRulesStorage.getManualRules_rows in Hlisted.
  rewrite merge_sort_Permutation in Hlisted.
  apply list_elem_of_filter in Hlisted as [(Hown & Hact & Hmode) Hin].
  assert (Hrule : executionRulesStorage.getByIdAndUser isSupabase LocalTZA ruleId
                    (session_userId session) (rules db) = Some rule).
  { unfold executionRulesStorage.getByIdAndUser.
    destruct (filter _ (rules db)) as [| r' rest] eqn:Hf.
    - assert (Hr : r ∈ filter (fun r => has_id ruleId r
                                         /\ owned_by (session_userId session) r)
                          (rules db))
        by (apply list_elem_of_filter; auto).
      rewrite Hf in Hr. apply elem_of_nil in Hr. destruct Hr.
    - assert (Hr : r' ∈ filter (fun r => has_id ruleId r
                                          /\ owned_by (session_userId session) r)
                           (rules db))
        by (rewrite Hf; left).
      apply list_elem_of_filter in Hr as [[Hid' _] Hin'].
      rewrite (Hkey r' Hin' Hid'). reflexivity. }
  assert (Hactive : ExecutionRule.isActive rule = true).
  { subst rule. rewrite mapped_isActive. unfold is_active, sql_is_true in Hact.
    destruct (r c_isActive) as [| | b | | | | |]; try discriminate.
    subst b. reflexivity. }
  assert (Hmanual : js_strict_ne (ExecutionRule.activationMode rule) "manual"
                    && js_strict_ne (ExecutionRule.activationMode rule) "all" = false).
  { subst rule. rewrite mapped_activationMode. unfold mode_in, sql_eq_text in Hmode.
    destruct (r c_activationMode) as [| | | | m | | |]; try discriminate.
    apply orb_true_iff in Hmode as [Hm | Hm]; apply String.eqb_eq in Hm; subst m;
      reflexivity. }
  subst out. unfold POST; cbv beta iota.
  rewrite Hreq, (ruleId_valid _ Hne), Hrule, Hactive. cbn [negb].
  rewrite Hmanual.
  fold context history. fold run.
  destruct run as [[result |] db']; cbn.
  - split; [reflexivity |]. split; [reflexivity |].
    split; [split; [eauto | reflexivity] |].
    split; [discriminate | discriminate].
  - split; [reflexivity |]. split; [reflexivity |].
    split; [split; [discriminate | intros [? [=]]] |].
    split; reflexivity.
Qed.

(** The hypotheses above hold for user_1 and the sample rule of mode
    ['manual']. *)
Lemma manual_rules_invocable_witness :
  let r := sample_row "r_manual" "user_1" 9 true "manual" 1700000150000 in
  let out := POST false zone_utc processManual_stub (Some (mkSession "user_1"))
               (BodyValue (InvokeRequest.mk (JStr "r_manual") (Some "now") None))
               1700003600000 sample_db in
  r ∈ executionRulesStorage.getManualRules_rows "user_1" (rules sample_db)
  /\ has_id "r_manual" r
  /\ invocations out
     = [mkInvocation "user_1" (mapRuleRow zone_utc (rowObject false r)) "now" None]
  /\ status (response out) = 200.
Proof.
  intros r out.
  assert (Hlisted : r ∈ executionRulesStorage.getManualRules_rows "user_1"
                          (rules sample_db)).
  { unfold executionRulesStorage.getManualRules_rows.
    rewrite merge_sort_Permutation. apply list_elem_of_filter.
    split; [repeat split |]. cbn. do 2 right. left. }
  assert (Hkey : forall r', r' ∈ rules sample_db -> has_id "r_manual" r' -> r' = r).
  { intros r' Hr Hid. cbn in Hr.
    repeat (apply elem_of_cons in Hr as [-> | Hr]; [first [reflexivity | discriminate] |]).
    apply elem_of_nil in Hr. destruct Hr. }
  pose proof (manual_rules_invocable false zone_utc processManual_stub
                (mkSession "user_1")
                (InvokeRequest.mk (JStr "r_manual") (Some "now") None)
                1700003600000 sample_db "r_manual" r Hlisted eq_refl
                ltac:(discriminate) Hkey eq_refl) as (Hcalls & _ & Hok & _).
  split; [exact Hlisted |]. split; [reflexivity |].
  split; [exact Hcalls |]. apply Hok. cbn. eauto.
Defined.

(** X12. Whatever the session and the body of the request, [POST] calls
    [processManual] at most once. Without a call the database is as before
    and the answer is an error: 401 exactly when there is no session; 500
    "Failed to invoke execution rule" exactly when there is a session and
    the body is no JSON text or is [null]; 400 or 404 otherwise. With a
    call the database is what the call leaves, and the answer is 500 when
    the call rejects and otherwise 200 with the outcome of the call, the id
    and the name of the rule, and the time of the clock. *)
Theorem POST_outcome (isSupabase : bool) (LocalTZA : Z -> bool -> Z)
    (processManual : string -> ExecutionRule.t -> string ->
                     option (list (string * string)) -> DB -> option ProcessResult.t * DB)
    (session : option Session) (json : RequestBody) (clock : Z) (db : DB) :
  let out := POST isSupabase LocalTZA processManual session json clock db in
  (invocations out = []
   /\ db_after out = db
   /\ (exists e, body (response out) = ErrorBody e)
   /\ (status (response out) = 401 <-> session = None)
   /\ (status (response out) = 500 <->
       is_Some session /\ (json = BodyNotJson \/ json = BodyNull))
   /\ (status (response out) = 500 ->
       response out = mkResponse 500 (ErrorBody "Failed to invoke execution rule"))
   /\ (status (response out) = 401 \/ status (response out) = 500
       \/ status (response out) = 400 \/ status (response out) = 404))
  \/ (exists call request,
        let run := processManual (inv_userId call) (inv_rule call) (inv_context call)
                     (inv_conversationHistory call) db in
        json = BodyValue request
        /\ invocations out = [call]
        /\ db_after out = run.2
        /\ match run.1 with
           | None =>
               response out
               = mkResponse 500 (ErrorBody "Failed to invoke execution rule")
           | Some result =>
               response out
               = mkResponse 200
                   (InvokedBody
                      (ManualInvocationResult.mk (ProcessResult.success result)
                         (ExecutionRule.id (inv_rule call))
                         (ExecutionRule.name (inv_rule call))
                         (ProcessResult.output result) (ProcessResult.error result)
                         (JSDate.toISOString clock)))
           end).
Proof.
  intros out. subst out. unfold POST.
  assert (Hbody : forall request, BodyValue request = BodyNotJson
                                  \/ BodyValue request = BodyNull -> False)
    by (intros request [? | ?]; discriminate).
  destruct session as [session |];
    [| left; cbn; split; [reflexivity |]; split; [reflexivity |];
       split; [eauto |]; split; [tauto |];
       split; [split; [discriminate | intros [[? [=]] _]] |];
       split; [discriminate | auto]].
  destruct json as [| | request];
    [left; cbn; split; [reflexivity |]; split; [reflexivity |];
     split; [eauto |]; split; [split; discriminate |];
     split; [split; [eauto | reflexivity] |]; split; [reflexivity | auto] ..
    |].
  assert (Hreject : forall (st : Z) (e : string),
             st = 400 \/ st = 404 ->
             let out := mkOutcome (mkResponse st (ErrorBody e)) db [] in
             invocations out = []
             /\ db_after out = db
             /\ (exists e, body (response out) = ErrorBody e)
             /\ (status (response out) = 401 <-> Some session = None)
             /\ (status (response out) = 500 <->
                 is_Some (Some session)
                 /\ (BodyValue request = BodyNotJson \/ BodyValue request = BodyNull))
             /\ (status (response out) = 500 ->
                 response out
                 = mkResponse 500 (ErrorBody "Failed to invoke execution rule"))
             /\ (status (response out) = 401 \/ status (response out) = 500
                 \/ status (response out) = 400 \/ status (response out) = 404)).
  { intros st e Hst. cbn.
    split; [reflexivity |]. split; [reflexivity |]. split; [eauto |].
    split; [split; [lia | discriminate] |].
    split; [split; [lia | intros [_ H]; destruct (Hbody _ H)] |].
    split; [lia | tauto]. }
  destruct (negb (truthy (InvokeRequest.ruleId request))
            || not_a_string (InvokeRequest.ruleId request));
    [left; apply Hreject; auto |].
  destruct (executionRulesStorage.getByIdAndUser isSupabase LocalTZA _ _ (rules db))
    as [rule |]; [| left; apply Hreject; auto].
  destruct (negb (ExecutionRule.isActive rule)); [left; apply Hreject; auto |].
  destruct (js_strict_ne (ExecutionRule.activationMode rule) "manual"
            && js_strict_ne (ExecutionRule.activationMode rule) "all");
    [left; apply Hreject; auto |].
  right.
  exists (mkInvocation (session_userId session) rule
            (default "" (InvokeRequest.context request))
            (InvokeRequest.conversationHistory request)), request.
  cbn [inv_userId inv_rule inv_context inv_conversationHistory].
  split; [reflexivity |].
  destruct (processManual _ _ _ _ db) as [[result |] db']; cbn;
    (split; [reflexivity |]); split; reflexivity.
Qed.

(* ===================================================================== *)
(** ** The log: entries, pages and statistics *)
(* ===================================================================== *)

#[global] Instance by_createdAt_desc_total : Total by_createdAt_desc.
Proof. intros r1 r2. unfold by_createdAt_desc. lia. Qed.

#[global] Instance by_createdAt_desc_trans : Transitive by_createdAt_desc.
Proof. intros r1 r2 r3. unfold by_createdAt_desc. lia. Qed.

(** A value stored under the key of the naming convention in use is found
    by [row.camelCase || row.snake_case] when it is truthy. *)
Lemma js_or_either_key (b : bool) (v : JSVal) :
  truthy v = true ->
  js_or (if b then JUndefined else v) (if b then v else JUndefined) = v.
Proof. intros Hv. destruct b; unfold js_or; cbn; [| rewrite Hv]; reflexivity. Qed.

Lemma truthy_JStr (s : string) : s <> "" -> truthy (JStr s) = true.
Proof. intros Hs. cbn. destruct (String.eqb_spec s ""); [contradiction | reflexivity]. Qed.

Section MappedLogFields.

Variable isSupabase : bool.
Variable LocalTZA : Z -> bool -> Z.
Variable r : LogRow.

Let entry := mapLogRow LocalTZA (logRowObject isSupabase r).

(** Rewrites the two lookups of a column of the row object. *)
Ltac log_lookups camel snake v :=
  replace (prop (logRowObject isSupabase r) camel)
    with (if isSupabase then JUndefined else v) by (destruct isSupabase; reflexivity);
  replace (prop (logRowObject isSupabase r) snake)
    with (if isSupabase then v else JUndefined) by (destruct isSupabase; reflexivity).

Lemma mapped_log_id : ExecutionLogEntry.id entry = JStr (log_id r).
Proof. subst entry. destruct isSupabase; reflexivity. Qed.

Lemma mapped_log_status :
  ExecutionLogEntry.status entry = JStr (LogStatus_str (log_status r)).
Proof. subst entry. destruct isSupabase; reflexivity. Qed.

Lemma mapped_log_ruleId :
  log_ruleId r <> "" -> ExecutionLogEntry.ruleId entry = JStr (log_ruleId r).
Proof.
  intros Hs. subst entry. unfold mapLogRow. cbn [ExecutionLogEntry.ruleId].
  log_lookups "ruleId" "rule_id" (JStr (log_ruleId r)).
  apply js_or_either_key, truthy_JStr, Hs.
Qed.

Lemma mapped_log_ruleName :
  log_ruleName r <> "" -> ExecutionLogEntry.ruleName entry = JStr (log_ruleName r).
Proof.
  intros Hs. subst entry. unfold mapLogRow. cbn [ExecutionLogEntry.ruleName].
  log_lookups "ruleName" "rule_name" (JStr (log_ruleName r)).
  apply js_or_either_key, truthy_JStr, Hs.
Qed.

Lemma mapped_log_userId :
  log_userId r <> "" -> ExecutionLogEntry.userId entry = JStr (log_userId r).
Proof.
  intros Hs. subst entry. unfold mapLogRow. cbn [ExecutionLogEntry.userId].
  log_lookups "userId" "user_id" (JStr (log_userId r)).
  apply js_or_either_key, truthy_JStr, Hs.
Qed.

Lemma mapped_log_triggerSlug :
  log_triggerSlug r <> "" ->
  ExecutionLogEntry.triggerSlug entry = JStr (log_triggerSlug r).
Proof.
  intros Hs. subst entry. unfold mapLogRow. cbn [ExecutionLogEntry.triggerSlug].
  log_lookups "triggerSlug" "trigger_slug" (JStr (log_triggerSlug r)).
  apply js_or_either_key, truthy_JStr, Hs.
Qed.

Lemma mapped_log_outputText :
  ExecutionLogEntry.outputText entry
  = js_or (textParam (log_outputText r)) JUndefined.
Proof.
  subst entry. unfold mapLogRow. cbn [ExecutionLogEntry.outputText].
  log_lookups "outputText" "output_text" (textParam (log_outputText r)).
  destruct isSupabase, (log_outputText r) as [s |]; try reflexivity;
    unfold js_or; cbn; destruct (String.eqb s "") eqn:Hs; cbn; rewrite ?Hs;
    reflexivity.
Qed.

Lemma mapped_log_errorText :
  ExecutionLogEntry.errorText entry
  = js_or (textParam (log_errorText r)) JUndefined.
Proof.
  subst entry. unfold mapLogRow. cbn [ExecutionLogEntry.errorText].
  log_lookups "errorText" "error_text" (textParam (log_errorText r)).
  destruct isSupabase, (log_errorText r) as [s |]; try reflexivity;
    unfold js_or; cbn; destruct (String.eqb s "") eqn:Hs; cbn; rewrite ?Hs;
    reflexivity.
Qed.

Lemma mapped_log_durationMs :
  ExecutionLogEntry.durationMs entry
  = match log_durationMs r with
    | Some n => if n =? 0 then JUndefined else JNum n
    | None => JUndefined
    end.
Proof.
  subst entry. unfold mapLogRow. cbn [ExecutionLogEntry.durationMs].
  log_lookups "durationMs" "duration_ms"
    (match log_durationMs r with Some n => JNum n | None => JNull end).
  destruct isSupabase, (log_durationMs r) as [n |]; try reflexivity;
    unfold js_or; cbn; destruct (n =? 0) eqn:Hn; cbn; rewrite ?Hn; reflexivity.
Qed.

Lemma mapped_log_createdAt :
  ExecutionLogEntry.createdAt entry = JSDate.toISOString (log_createdAt r).
Proof.
  subst entry. unfold mapLogRow. cbn [ExecutionLogEntry.createdAt].
  log_lookups "createdAt" "created_at" (JDate (log_createdAt r)).
  destruct isSupabase; reflexivity.
Qed.

End MappedLogFields.

(** A fresh id and a duration that fits the column are what the INSERT of
    [create] needs. *)
Lemma log_create_Some (id : string) (log : NewLog.t) (dbNow : Z) (tbl : LogTable) :
  (forall r, r ∈ tbl -> log_id r <> id) ->
  (forall d, NewLog.durationMs log = Some d -> int4_min <= d <= int4_max) ->
  executionLogStorage.create id log dbNow tbl
  = Some (tbl ++ [insertedLog id log dbNow]).
Proof.
  intros Hfresh Hfits. unfold executionLogStorage.create.
  destruct (decide (Exists (fun r => log_id r = id) tbl)) as [Hdup | _].
  - apply Exists_exists in Hdup as (r & Hin & Hid). destruct (Hfresh r Hin Hid).
  - replace (is_int4 (numberOrNull (NewLog.durationMs log))) with true; [reflexivity |].
    symmetry. unfold numberOrNull.
    destruct (NewLog.durationMs log) as [d |]; [| reflexivity].
    destruct (d =? 0); [reflexivity |]. cbn.
    specialize (Hfits d eq_refl). apply andb_true_iff. split; apply Z.leb_le; lia.
Qed.

(** When the INSERT of [create] succeeds it has appended the row, the id
    was fresh and the duration fits the column. *)
Lemma log_create_inv (id : string) (log : NewLog.t) (dbNow : Z) (tbl tbl' : LogTable) :
  executionLogStorage.create id log dbNow tbl = Some tbl' ->
  tbl' = tbl ++ [insertedLog id log dbNow]
  /\ (forall r, r ∈ tbl -> log_id r <> id)
  /\ is_int4 (numberOrNull (NewLog.durationMs log)) = true.
Proof.
  unfold executionLogStorage.create.
  destruct (decide (Exists (fun r => log_id r = id) tbl)) as [| Hfresh]; [discriminate |].
  destruct (is_int4 _) eqn:Hfits; [| discriminate].
  intros [= <-]. split; [reflexivity |]. split; [| reflexivity].
  intros r Hin Hid. apply Hfresh, Exists_exists. eauto.
Qed.

(** X13. A log entry written under a fresh id, with a duration that fits
    the [INTEGER] column, is returned as it was written: the id, the rule
    id, the rule name, the user, the trigger and the status of the argument
    (the four texts not empty), the time of [NOW()] as an ISO string, and
    the optional fields when they hold something: an empty text and a
    duration of 0 come back as [undefined]. Under an id that is taken, and
    for a duration outside the column, [create] throws. *)
Theorem log_create_reads_back (isSupabase : bool) (LocalTZA : Z -> bool -> Z)
    (id : string) (log : NewLog.t) (dbNow : Z) (tbl : LogTable) :
  NewLog.ruleId log <> "" ->
  NewLog.ruleName log <> "" ->
  NewLog.userId log <> "" ->
  NewLog.triggerSlug log <> "" ->
  ((forall r, r ∈ tbl -> log_id r <> id) ->
   (forall d, NewLog.durationMs log = Some d -> int4_min <= d <= int4_max) ->
   exists entry,
     executionLogStorage.create_returns isSupabase LocalTZA id log dbNow tbl
     = Some entry
     /\ ExecutionLogEntry.id entry = JStr id
     /\ ExecutionLogEntry.ruleId entry = JStr (NewLog.ruleId log)
     /\ ExecutionLogEntry.ruleName entry = JStr (NewLog.ruleName log)
     /\ ExecutionLogEntry.userId entry = JStr (NewLog.userId log)
     /\ ExecutionLogEntry.triggerSlug entry = JStr (NewLog.triggerSlug log)
     /\ ExecutionLogEntry.status entry = JStr (LogStatus_str (NewLog.status log))
     /\ ExecutionLogEntry.outputText entry
        = match textOrNull (NewLog.outputText log) with
          | Some s => JStr s
          | None => JUndefined
          end
     /\ ExecutionLogEntry.errorText entry
        = match textOrNull (NewLog.errorText log) with
          | Some s => JStr s
          | None => JUndefined
          end
     /\ ExecutionLogEntry.durationMs entry
        = match numberOrNull (NewLog.durationMs log) with
          | Some n => JNum n
          | None => JUndefined
          end
     /\ ExecutionLogEntry.createdAt entry = JSDate.toISOString dbNow)
  /\ ((exists r, r ∈ tbl /\ log_id r = id) ->
      executionLogStorage.create_returns isSupabase LocalTZA id log dbNow tbl = None
      /\ executionLogStorage.create id log dbNow tbl = None)
  /\ (forall d,
        NewLog.durationMs log = Some d -> d < int4_min \/ int4_max < d ->
        executionLogStorage.create_returns isSupabase LocalTZA id log dbNow tbl = None
        /\ executionLogStorage.create id log dbNow tbl = None).
Proof.
  intros HruleId HruleName HuserId Hslug.
  split; [| split].
  - intros Hfresh Hfits.
    unfold executionLogStorage.create_returns.
    rewrite (log_create_Some _ _ _ _ Hfresh Hfits). cbn [mbind option_bind].
    rewrite filter_app, (filter_none _ _ Hfresh).
    rewrite filter_cons_True by reflexivity. cbn [app].
    eexists. split; [reflexivity |].
    rewrite mapped_log_id, mapped_log_status, mapped_log_outputText,
      mapped_log_errorText, mapped_log_durationMs, mapped_log_createdAt.
    rewrite mapped_log_ruleId, mapped_log_ruleName, mapped_log_userId,
      mapped_log_triggerSlug by assumption.
    unfold insertedLog.
    cbn [log_id log_ruleId log_ruleName log_userId log_triggerSlug log_status
         log_outputText log_errorText log_durationMs log_createdAt].
    repeat (split; [reflexivity |]).
    split; [| split; [| split; [| reflexivity]]].
    + unfold textOrNull. destruct (NewLog.outputText log) as [s |]; [| reflexivity].
      destruct (String.eqb s "") eqn:Hs; [reflexivity |].
      unfold js_or. cbn. rewrite Hs. reflexivity.
    + unfold textOrNull. destruct (NewLog.errorText log) as [s |]; [| reflexivity].
      destruct (String.eqb s "") eqn:Hs; [reflexivity |].
      unfold js_or. cbn. rewrite Hs. reflexivity.
    + unfold numberOrNull. destruct (NewLog.durationMs log) as [n |]; [| reflexivity].
      destruct (n =? 0) eqn:Hn; [reflexivity |]. cbn. rewrite Hn. reflexivity.
  - intros (r & Hin & Hid).
    assert (Hnone : executionLogStorage.create id log dbNow tbl = None).
    { destruct (executionLogStorage.create id log dbNow tbl) as [tbl' |] eqn:Hc;
        [| reflexivity].
      apply log_create_inv in Hc as (_ & Hfresh & _). destruct (Hfresh r Hin Hid). }
    unfold executionLogStorage.create_returns. rewrite Hnone. split; reflexivity.
  - intros d Hd Hout.
    assert (Hnone : executionLogStorage.create id log dbNow tbl = None).
    { destruct (executionLogStorage.create id log dbNow tbl) as [tbl' |] eqn:Hc;
        [| reflexivity].
      apply log_create_inv in Hc as (_ & _ & Hfits).
      unfold numberOrNull in Hfits. rewrite Hd in Hfits.
      replace (d =? 0) with false in Hfits
        by (symmetry; apply Z.eqb_neq; unfold int4_min, int4_max in Hout; lia).
      cbn in Hfits. apply andb_true_iff in Hfits as [H1 H2].
      apply Z.leb_le in H1, H2. lia. }
    unfold executionLogStorage.create_returns. rewrite Hnone. split; reflexivity.
Qed.

(** The hypotheses above hold for the first entry of a log. *)
Lemma log_create_reads_back_witness :
  exists entry,
    executionLogStorage.create_returns false zone_utc "log_1"
      (sample_log StatusSuccess 3200) 1700000000000 [] = Some entry
    /\ ExecutionLogEntry.ruleId entry = JStr "r_1"
    /\ ExecutionLogEntry.durationMs entry = JNum 3200.
Proof.
  destruct (proj1 (log_create_reads_back false zone_utc "log_1"
                     (sample_log StatusSuccess 3200) 1700000000000 []
                     ltac:(discriminate) ltac:(discriminate) ltac:(discriminate)
                     ltac:(discriminate)))
    as (entry & Hentry & _ & HruleId & _ & _ & _ & _ & _ & _ & Hduration & _).
  - intros r Hr. apply elem_of_nil in Hr. destruct Hr.
  - intros d [= <-]. unfold int4_min, int4_max. lia.
  - exists entry. split; [exact Hentry |]. split; [exact HruleId | exact Hduration].
Defined.

(** ** Pages of the log *)

(** Merge sort gives an order PostgreSQL may return, and so it does on the
    reversed rows. *)
Lemma ties_in_table_order_newest_first : newest_first ties_in_table_order.
Proof.
  intros rows. unfold ties_in_table_order.
  split; [apply merge_sort_Permutation | apply StronglySorted_merge_sort; apply _].
Qed.

Lemma ties_reversed_newest_first : newest_first ties_reversed.
Proof.
  intros rows. unfold ties_reversed. split.
  - rewrite merge_sort_Permutation. apply reverse_Permutation.
  - apply StronglySorted_merge_sort; apply _.
Qed.

(** The rows of a page: a window of the matching rows, newest first. *)
Lemma page_rows_Some (order : list LogRow -> list LogRow)
    (P : LogRow -> Prop) `{!forall r, Decision (P r)}
    (limit offset : Z) (tbl : LogTable) (rows : list LogRow) :
  newest_first order ->
  executionLogStorage.page_rows order P limit offset tbl = Some rows ->
  (0 <= limit <= bigint_max /\ 0 <= offset <= bigint_max)
  /\ rows = take (Z.to_nat limit) (drop (Z.to_nat offset) (order (filter P tbl)))
  /\ Z.of_nat (length rows)
     = Z.min limit (Z.max 0 (Z.of_nat (length (filter P tbl)) - offset))
  /\ StronglySorted by_createdAt_desc rows
  /\ (forall r, r ∈ rows -> r ∈ tbl /\ P r).
Proof.
  intros Horder. unfold executionLogStorage.page_rows, row_count.
  destruct (_ && _) eqn:Hok; [| discriminate]. intros [= <-].
  repeat (apply andb_true_iff in Hok as [Hok ?]).
  destruct (Horder (filter P tbl)) as [Hperm Hsorted].
  set (sorted := order (filter P tbl)) in *.
  split; [lia |]. split; [reflexivity |]. split; [| split].
  - rewrite length_take, length_drop, Hperm. lia.
  - rewrite <- (take_drop (Z.to_nat offset) sorted) in Hsorted.
    apply StronglySorted_app_1_r in Hsorted.
    rewrite <- (take_drop (Z.to_nat limit) (drop _ sorted)) in Hsorted.
    apply StronglySorted_app_1_l in Hsorted. exact Hsorted.
  - intros r Hr.
    assert (Hin : r ∈ sorted).
    { rewrite <- (take_drop (Z.to_nat offset) sorted). apply elem_of_app. right.
      rewrite <- (take_drop (Z.to_nat limit) (drop _ sorted)). apply elem_of_app.
      left. exact Hr. }
    rewrite Hperm in Hin. apply list_elem_of_filter in Hin. tauto.
Qed.

Lemma page_rows_accepts (order : list LogRow -> list LogRow)
    (P : LogRow -> Prop) `{!forall r, Decision (P r)}
    (limit offset : Z) (tbl : LogTable) :
  0 <= limit <= bigint_max -> 0 <= offset <= bigint_max ->
  executionLogStorage.page_rows order P limit offset tbl
  = Some (take (Z.to_nat limit) (drop (Z.to_nat offset) (order (filter P tbl)))).
Proof.
  intros Hl Ho. unfold executionLogStorage.page_rows, row_count.
  replace (0 <=? limit) with true by (symmetry; apply Z.leb_le; lia).
  replace (limit <=? bigint_max) with true by (symmetry; apply Z.leb_le; lia).
  replace (0 <=? offset) with true by (symmetry; apply Z.leb_le; lia).
  replace (offset <=? bigint_max) with true by (symmetry; apply Z.leb_le; lia).
  reflexivity.
Qed.

(** What [getByRuleId] returns: the count of the entries of the rule and
    the mapped rows of the page. *)
Lemma getByRuleId_rows (isSupabase : bool) (LocalTZA : Z -> bool -> Z)
    (order : list LogRow -> list LogRow)
    (ruleId : string) (limit offset : option Z) (tbl : LogTable)
    (entries : list ExecutionLogEntry.t) (total : Z) :
  executionLogStorage.getByRuleId isSupabase LocalTZA order ruleId limit offset tbl
  = Some (entries, total) ->
  total = Z.of_nat (length (filter (fun r => log_ruleId r = ruleId) tbl))
  /\ exists rows,
       executionLogStorage.page_rows order (fun r => log_ruleId r = ruleId)
         (default 50 limit) (default 0 offset) tbl = Some rows
       /\ entries = mapLogRows isSupabase LocalTZA rows
       /\ length entries = length rows.
Proof.
  unfold executionLogStorage.getByRuleId.
  destruct (executionLogStorage.page_rows _ _ _ _ tbl) as [rows |] eqn:Hpage;
    cbn [mbind option_bind]; [| discriminate].
  intros [= <- <-]. split; [reflexivity |]. exists rows.
  split; [reflexivity |]. split; [reflexivity |].
  unfold mapLogRows. apply length_map.
Qed.

(** X14. A page of the log of a rule, in whatever order the executor
    returns entries of equal [createdAt]: [total] counts all entries of the
    rule, whatever the page; the page holds min(limit, total - offset)
    entries (none beyond the end), each one an entry of this rule, the
    newest first. The defaults are a limit of 50 and an offset of 0, and a
    page is only returned for a limit and an offset that are not
    negative. *)
Theorem getByRuleId_page (isSupabase : bool) (LocalTZA : Z -> bool -> Z)
    (order : list LogRow -> list LogRow)
    (ruleId : string) (limit offset : option Z) (tbl : LogTable)
    (entries : list ExecutionLogEntry.t) (total : Z) :
  newest_first order ->
  executionLogStorage.getByRuleId isSupabase LocalTZA order ruleId limit offset tbl
  = Some (entries, total) ->
  0 <= default 50 limit /\ 0 <= default 0 offset
  /\ total = Z.of_nat (length (filter (fun r => log_ruleId r = ruleId) tbl))
  /\ Z.of_nat (length entries)
     = Z.min (default 50 limit) (Z.max 0 (total - default 0 offset))
  /\ exists rows,
       entries = mapLogRows isSupabase LocalTZA rows
       /\ StronglySorted by_createdAt_desc rows
       /\ (forall r, r ∈ rows -> r ∈ tbl /\ log_ruleId r = ruleId).
Proof.
  intros Horder Hpage.
  apply getByRuleId_rows in Hpage as (Htotal & rows & Hpage & -> & Hsame).
  apply (page_rows_Some _ _ _ _ _ _ Horder) in Hpage
    as (Hrange & _ & Hlen & Hsorted & Hrows).
  split; [lia |]. split; [lia |]. split; [exact Htotal |].
  split; [rewrite Hsame, Htotal; exact Hlen |].
  exists rows. auto.
Qed.

(** The hypotheses above hold for the second page, of one entry, of the
    two entries of the sample rule. *)
Lemma getByRuleId_page_witness :
  exists entries,
    executionLogStorage.getByRuleId false zone_utc ties_in_table_order "r_manual"
      (Some 1) (Some 1) (logs sample_db_logged) = Some (entries, 2)
    /\ Z.of_nat (length entries) = 1.
Proof.
  destruct (executionLogStorage.getByRuleId false zone_utc ties_in_table_order
              "r_manual" (Some 1) (Some 1) (logs sample_db_logged))
    as [[entries total] |] eqn:Hpage; [| vm_compute in Hpage; discriminate].
  destruct (getByRuleId_page _ _ _ _ _ _ _ _ _ ties_in_table_order_newest_first Hpage)
    as (_ & _ & Htotal & Hlen & _).
  assert (Htwo : total = 2) by (rewrite Htotal; reflexivity).
  subst total. exists entries. split; [reflexivity |]. exact Hlen.
Defined.

(** Rows written at different times have one order only. *)
Lemma newest_first_unique (l1 l2 : list LogRow) :
  l1 ≡ₚ l2 ->
  StronglySorted by_createdAt_desc l1 ->
  StronglySorted by_createdAt_desc l2 ->
  distinct_createdAt l1 ->
  l1 = l2.
Proof.
  revert l2. induction l1 as [| x l1 IH]; intros l2 Hperm H1 H2 Hdistinct.
  - apply Permutation_nil_l in Hperm. congruence.
  - destruct l2 as [| y l2]; [apply Permutation_nil_r in Hperm; discriminate |].
    apply StronglySorted_inv in H1 as [H1 Hx].
    apply StronglySorted_inv in H2 as [H2 Hy].
    rewrite Forall_forall in Hx, Hy.
    assert (Hxy : x = y).
    { assert (Hyin : y ∈ x :: l1) by (rewrite Hperm; left).
      assert (Hxin : x ∈ y :: l2) by (rewrite <- Hperm; left).
      apply Hdistinct; [left | exact Hyin |].
      apply elem_of_cons in Hyin as [-> | Hyin]; [reflexivity |].
      apply elem_of_cons in Hxin as [-> | Hxin]; [reflexivity |].
      pose proof (Hx y Hyin) as Hle1. pose proof (Hy x Hxin) as Hle2.
      unfold by_createdAt_desc in Hle1, Hle2. lia. }
    subst y. f_equal. apply IH; [| exact H1 | exact H2 |].
    + exact (Permutation_cons_inv Hperm).
    + intros r1 r2 Hr1 Hr2. apply Hdistinct; right; assumption.
Qed.

(** Two windows of the matching rows that follow one another make the
    window that covers both, when no two rows were written at the same
    time. *)
Lemma page_rows_tile (order1 order2 order12 : list LogRow -> list LogRow)
    (P : LogRow -> Prop) `{!forall r, Decision (P r)}
    (l1 l2 o : Z) (tbl : LogTable) :
  newest_first order1 -> newest_first order2 -> newest_first order12 ->
  distinct_createdAt tbl ->
  0 <= o -> 0 <= l1 -> 0 <= l2 -> o + l1 + l2 <= bigint_max ->
  exists p1 p2,
    executionLogStorage.page_rows order1 P l1 o tbl = Some p1
    /\ executionLogStorage.page_rows order2 P l2 (o + l1) tbl = Some p2
    /\ executionLogStorage.page_rows order12 P (l1 + l2) o tbl = Some (p1 ++ p2).
Proof.
  intros H1 H2 H12 Hdistinct Ho Hl1 Hl2 Hmax.
  rewrite !page_rows_accepts by lia.
  assert (Hsame : forall order,
             newest_first order -> order (filter P tbl) = order12 (filter P tbl)).
  { intros order Horder.
    destruct (Horder (filter P tbl)) as [Hperm Hsorted].
    destruct (H12 (filter P tbl)) as [Hperm12 Hsorted12].
    apply newest_first_unique; [| exact Hsorted | exact Hsorted12 |].
    - rewrite Hperm, Hperm12. reflexivity.
    - intros r1 r2 Hr1 Hr2. rewrite Hperm in Hr1, Hr2.
      apply list_elem_of_filter in Hr1 as [_ Hr1].
      apply list_elem_of_filter in Hr2 as [_ Hr2].
      apply Hdistinct; assumption. }
  rewrite (Hsame order1 H1), (Hsame order2 H2).
  eexists _, _. split; [reflexivity |]. split; [reflexivity |]. f_equal.
  rewrite !Z2Nat.inj_add by lia. rewrite <- drop_drop.
  symmetry. apply take_take_drop.
Qed.

(** X15. Consecutive pages tile the log when no two entries were written
    at the same time: for a rule as for a user, and whatever the executor
    does in each of the three queries, the page of [l1] entries at offset
    [o] followed by the page of [l2] entries at offset [o + l1] is the page
    of [l1 + l2] entries at offset [o], so that paging through the log
    shows every entry once; the total is the same on every page. *)
Theorem log_pages_tile (isSupabase : bool) (LocalTZA : Z -> bool -> Z)
    (order1 order2 order12 : list LogRow -> list LogRow)
    (key : string) (l1 l2 o : Z) (tbl : LogTable) :
  newest_first order1 -> newest_first order2 -> newest_first order12 ->
  distinct_createdAt tbl ->
  0 <= o -> 0 <= l1 -> 0 <= l2 -> o + l1 + l2 <= bigint_max ->
  (exists p1 p2 total,
     executionLogStorage.getByRuleId isSupabase LocalTZA order1 key (Some l1) (Some o)
       tbl
     = Some (p1, total)
     /\ executionLogStorage.getByRuleId isSupabase LocalTZA order2 key (Some l2)
          (Some (o + l1)) tbl
        = Some (p2, total)
     /\ executionLogStorage.getByRuleId isSupabase LocalTZA order12 key
          (Some (l1 + l2)) (Some o) tbl
        = Some (p1 ++ p2, total))
  /\ (exists p1 p2 total,
        executionLogStorage.getByUserId isSupabase LocalTZA order1 key (Some l1)
          (Some o) tbl
        = Some (p1, total)
        /\ executionLogStorage.getByUserId isSupabase LocalTZA order2 key (Some l2)
             (Some (o + l1)) tbl
           = Some (p2, total)
        /\ executionLogStorage.getByUserId isSupabase LocalTZA order12 key
             (Some (l1 + l2)) (Some o) tbl
           = Some (p1 ++ p2, total)).
Proof.
  intros H1 H2 H12 Hdistinct Ho Hl1 Hl2 Hmax. split.
  - destruct (page_rows_tile order1 order2 order12 (fun r => log_ruleId r = key)
                l1 l2 o tbl H1 H2 H12 Hdistinct Ho Hl1 Hl2 Hmax)
      as (p1 & p2 & Hp1 & Hp2 & Hp12).
    unfold executionLogStorage.getByRuleId. unfold default, from_option, id.
    rewrite Hp1, Hp2, Hp12. cbn [mbind option_bind].
    eexists _, _, _. split; [reflexivity |]. split; [reflexivity |].
    unfold mapLogRows. rewrite map_app. reflexivity.
  - destruct (page_rows_tile order1 order2 order12 (fun r => log_userId r = key)
                l1 l2 o tbl H1 H2 H12 Hdistinct Ho Hl1 Hl2 Hmax)
      as (p1 & p2 & Hp1 & Hp2 & Hp12).
    unfold executionLogStorage.getByUserId. unfold default, from_option, id.
    rewrite Hp1, Hp2, Hp12. cbn [mbind option_bind].
    eexists _, _, _. split; [reflexivity |]. split; [reflexivity |].
    unfold mapLogRows. rewrite map_app. reflexivity.
Qed.

(** The entries of the sample log were written at different times. *)
Lemma sample_db_logged_distinct : distinct_createdAt (logs sample_db_logged).
Proof.
  intros r1 r2 Hr1 Hr2. cbn in Hr1, Hr2.
  repeat (apply elem_of_cons in Hr1 as [-> | Hr1]);
    try (apply elem_of_nil in Hr1; destruct Hr1);
    repeat (apply elem_of_cons in Hr2 as [-> | Hr2]);
    try (apply elem_of_nil in Hr2; destruct Hr2);
    cbn; intros Heq; first [reflexivity | discriminate].
Qed.

(** The hypotheses above hold for two pages of one entry each, read by
    executors that differ on ties. *)
Lemma log_pages_tile_witness :
  exists p1 p2 total,
    executionLogStorage.getByUserId false zone_utc ties_in_table_order "user_1"
      (Some 1) (Some 0) (logs sample_db_logged) = Some (p1, total)
    /\ executionLogStorage.getByUserId false zone_utc ties_reversed "user_1"
         (Some 1) (Some (0 + 1)) (logs sample_db_logged) = Some (p2, total)
    /\ executionLogStorage.getByUserId false zone_utc ties_in_table_order "user_1"
         (Some (1 + 1)) (Some 0) (logs sample_db_logged) = Some (p1 ++ p2, total).
Proof.
  apply (log_pages_tile false zone_utc ties_in_table_order ties_reversed
           ties_in_table_order "user_1" 1 1 0 (logs sample_db_logged)).
  - exact ties_in_table_order_newest_first.
  - exact ties_reversed_newest_first.
  - exact ties_in_table_order_newest_first.
  - exact sample_db_logged_distinct.
  - lia.
  - lia.
  - lia.
  - unfold bigint_max. lia.
Defined.

(** Without that hypothesis the pages need not tile: of two entries written
    at the same time, an executor may return the same one as the first
    entry and, in the next query, as the second. *)
Example log_pages_overlap_on_ties :
  let tbl :=
    [ mkLogRow "log_1" "r_1" "Digest" "user_1" "scheduled" StatusSuccess None None None
        None 1700000000000;
      mkLogRow "log_2" "r_1" "Digest" "user_1" "scheduled" StatusSuccess None None None
        None 1700000000000 ] in
  newest_first ties_in_table_order
  /\ newest_first ties_reversed
  /\ option_map (fun page => map ExecutionLogEntry.id page.1)
       (executionLogStorage.getByRuleId false zone_utc ties_in_table_order "r_1"
          (Some 1) (Some 0) tbl)
     = Some [JStr "log_1"]
  /\ option_map (fun page => map ExecutionLogEntry.id page.1)
       (executionLogStorage.getByRuleId false zone_utc ties_reversed "r_1"
          (Some 1) (Some 1) tbl)
     = Some [JStr "log_1"].
Proof.
  cbn zeta.
  split; [exact ties_in_table_order_newest_first |].
  split; [exact ties_reversed_newest_first |].
  split; vm_compute; reflexivity.
Qed.

(** X16. [getRecent] returns the first page of [getByUserId], for the same
    order of the executor: at most [limit] entries (10 when no limit is
    given), all of the user, and no entry of the user that is left out is
    newer than one that is returned. *)
Theorem getRecent_most_recent (isSupabase : bool) (LocalTZA : Z -> bool -> Z)
    (order : list LogRow -> list LogRow)
    (userId : string) (limit : option Z) (tbl : LogTable)
    (entries : list ExecutionLogEntry.t) :
  newest_first order ->
  executionLogStorage.getRecent isSupabase LocalTZA order userId limit tbl
  = Some entries ->
  fst <$> executionLogStorage.getByUserId isSupabase LocalTZA order userId
            (Some (default 10 limit)) None tbl
  = Some entries
  /\ Z.of_nat (length entries) <= default 10 limit
  /\ exists rows,
       entries = mapLogRows isSupabase LocalTZA rows
       /\ (forall r, r ∈ rows -> r ∈ tbl /\ log_userId r = userId)
       /\ (forall r r',
             r ∈ rows -> r' ∈ tbl -> log_userId r' = userId -> r' ∉ rows ->
             log_createdAt r' <= log_createdAt r).
Proof.
  intros Horder.
  unfold executionLogStorage.getRecent, executionLogStorage.getByUserId.
  change (default 50 (Some (default 10 limit))) with (default 10 limit).
  change (default 0 None) with 0.
  destruct (executionLogStorage.page_rows _ _ _ _ tbl) as [rows |] eqn:Hpage;
    cbn [mbind option_bind]; [| discriminate].
  intros [= <-]. split; [reflexivity |].
  apply (page_rows_Some _ _ _ _ _ _ Horder) in Hpage
    as (Hrange & Hwindow & Hlen & _ & Hrows).
  split; [unfold mapLogRows; rewrite length_map; lia |].
  exists rows. split; [reflexivity |]. split; [exact Hrows |].
  intros r r' Hr Hin' Huser' Hout.
  destruct (Horder (filter (fun r => log_userId r = userId) tbl))
    as [Hperm Hsorted].
  set (sorted := order (filter (fun r => log_userId r = userId) tbl)) in *.
  change (drop (Z.to_nat 0) sorted) with sorted in Hwindow.
  assert (Hin : r' ∈ sorted).
  { rewrite Hperm. apply list_elem_of_filter. auto. }
  rewrite <- (take_drop (Z.to_nat (default 10 limit)) sorted) in Hsorted, Hin.
  rewrite <- Hwindow in Hsorted, Hin.
  apply elem_of_app in Hin as [Hin | Hin]; [contradiction |].
  exact (StronglySorted_app_1_elem_of _ _ _ _ _ Hsorted Hr Hin).
Qed.

(** The hypotheses above hold for the two most recent of the three entries
    of user_1. *)
Lemma getRecent_most_recent_witness :
  exists entries,
    executionLogStorage.getRecent false zone_utc ties_in_table_order "user_1" (Some 2)
      (logs sample_db_logged) = Some entries
    /\ Z.of_nat (length entries) <= 2.
Proof.
  destruct (executionLogStorage.getRecent false zone_utc ties_in_table_order "user_1"
              (Some 2) (logs sample_db_logged)) as [entries |] eqn:Hrecent;
    [| vm_compute in Hrecent; discriminate].
  exists entries. split; [reflexivity |].
  exact (proj1 (proj2 (getRecent_most_recent _ _ _ _ _ _ _
                         ties_in_table_order_newest_first Hrecent))).
Defined.

(** ** Statistics after a run *)

(** All elements satisfy [P] exactly when the filter keeps the length. *)
Lemma length_filter_all {A} (P : A -> Prop) `{!forall x, Decision (P x)} (l : list A) :
  length (filter P l) = length l <-> Forall P l.
Proof.
  induction l as [| x l IH]; [split; [constructor | reflexivity] |].
  destruct (decide (P x)) as [Hx | Hx].
  - rewrite filter_cons_True by exact Hx. cbn [length]. rewrite Forall_cons.
    split; [intros [= Hlen]; split; [exact Hx | apply IH, Hlen] |].
    intros [_ Hall]. f_equal. apply IH, Hall.
  - rewrite filter_cons_False by exact Hx. cbn [length]. rewrite Forall_cons.
    pose proof (length_filter P l). split; [lia | tauto].
Qed.

(** The success rate over some rows is a percentage, 100 exactly when
    there is a run and every run succeeded. *)
Lemma statsOf_rate (rows : list LogRow) :
  Z.of_nat (length rows) < 2 ^ 53 ->
  exists q,
    successRate (statsOf rows) = Finite q
    /\ (0 <= q)%Q /\ (q <= 100)%Q
    /\ ((q == 100)%Q <->
        rows <> [] /\ Forall (fun r => log_status r = StatusSuccess) rows).
Proof.
  intros Hsize. unfold statsOf. cbn [successRate].
  pose proof (length_filter (fun r => log_status r = StatusSuccess) rows) as Hle.
  pose proof (length_filter_all (fun r => log_status r = StatusSuccess) rows) as Hall.
  destruct (decide (rows = [])) as [-> | Hne].
  - exists 0%Q. split; [reflexivity |]. split; [discriminate |].
    split; [discriminate |]. split; [discriminate | intros [[] _]; reflexivity].
  - assert (Hn : (0 < length rows)%nat)
      by (destruct rows; [contradiction | cbn; lia]).
    replace (0 <? Z.of_nat (length rows)) with true by (symmetry; apply Z.ltb_lt; lia).
    assert (Hs : 0 <= Z.of_nat (length (filter (fun r => log_status r = StatusSuccess)
                                         rows))
                 <= Z.of_nat (length rows)) by lia.
    assert (Ht : 0 < Z.of_nat (length rows) < 2 ^ 53) by lia.
    destruct (percentage_spec _ _ Hs Ht) as (Hrate & H0 & H100 & Hfull & _).
    rewrite Hrate. eexists. split; [reflexivity |].
    rewrite !Qred_correct.
    split; [exact H0 |]. split; [exact H100 |].
    rewrite Hfull, <- Hall. split; [intros H; split; [exact Hne | lia] |].
    intros [_ H]. lia.
Qed.

(** X17. Over a log of fewer than 2^53 entries, the success rate of a user
    and of a rule is a percentage: a finite double from 0 to 100, and 100
    exactly when there is a run in scope and every run in scope
    succeeded. *)
Theorem successRate_percentage (tbl : LogTable) :
  Z.of_nat (length tbl) < 2 ^ 53 ->
  (forall userId, exists q,
     successRate (executionLogStorage.getStats userId tbl) = Finite q
     /\ (0 <= q)%Q /\ (q <= 100)%Q
     /\ ((q == 100)%Q <->
         (exists r, r ∈ tbl /\ log_userId r = userId)
         /\ (forall r, r ∈ tbl -> log_userId r = userId ->
                       log_status r = StatusSuccess)))
  /\ (forall ruleId, exists q,
        successRate (executionLogStorage.getStatsByRuleId ruleId tbl) = Finite q
        /\ (0 <= q)%Q /\ (q <= 100)%Q
        /\ ((q == 100)%Q <->
            (exists r, r ∈ tbl /\ log_ruleId r = ruleId)
            /\ (forall r, r ∈ tbl -> log_ruleId r = ruleId ->
                          log_status r = StatusSuccess))).
Proof.
  intros Hsize.
  assert (Hsmall : forall (P : LogRow -> Prop) `{!forall r, Decision (P r)},
             Z.of_nat (length (filter P tbl)) < 2 ^ 53).
  { intros P HP. pose proof (length_filter P tbl). lia. }
  assert (Hscope : forall (P : LogRow -> Prop) `{!forall r, Decision (P r)},
             (filter P tbl <> []
              /\ Forall (fun r => log_status r = StatusSuccess) (filter P tbl))
             <-> (exists r, r ∈ tbl /\ P r)
                 /\ (forall r, r ∈ tbl -> P r -> log_status r = StatusSuccess)).
  { intros P HP. rewrite Forall_forall.
    split; intros [Hsome Hall]; split.
    - destruct (filter P tbl) as [| r rest] eqn:Hf; [contradiction |].
      exists r. assert (Hr : r ∈ filter P tbl) by (rewrite Hf; left).
      apply list_elem_of_filter in Hr. tauto.
    - intros r Hin Hr. apply Hall, list_elem_of_filter. auto.
    - destruct Hsome as (r & Hin & Hr). intros Hnil.
      assert (Hr' : r ∈ filter P tbl) by (apply list_elem_of_filter; auto).
      rewrite Hnil in Hr'. apply elem_of_nil in Hr'. destruct Hr'.
    - intros r Hr. apply list_elem_of_filter in Hr as [Hr Hin]. auto. }
  split.
  - intros userId. unfold executionLogStorage.getStats.
    destruct (statsOf_rate (filter (fun r => log_userId r = userId) tbl)
                (Hsmall _ _))
      as (q & Hq & H0 & H100 & Hall).
    exists q. rewrite <- Hscope. exact (conj Hq (conj H0 (conj H100 Hall))).
  - intros ruleId. unfold executionLogStorage.getStatsByRuleId.
    destruct (statsOf_rate (filter (fun r => log_ruleId r = ruleId) tbl)
                (Hsmall _ _))
      as (q & Hq & H0 & H100 & Hall).
    exists q. rewrite <- Hscope. exact (conj Hq (conj H0 (conj H100 Hall))).
Qed.

(** The hypothesis above holds for the sample log, of which one of the two
    runs of rule r_manual failed. *)
Lemma successRate_percentage_witness :
  Z.of_nat (length (logs sample_db_logged)) < 2 ^ 53
  /\ exists q,
       successRate (executionLogStorage.getStatsByRuleId "r_manual"
                      (logs sample_db_logged)) = Finite q
       /\ (q <= 100)%Q /\ ~ (q == 100)%Q.
Proof.
  assert (Hsize : Z.of_nat (length (logs sample_db_logged)) < 2 ^ 53)
    by (vm_compute; reflexivity).
  split; [exact Hsize |].
  destruct (proj2 (successRate_percentage _ Hsize) "r_manual")
    as (q & Hq & _ & H100 & Hall).
  exists q. split; [exact Hq |]. split; [exact H100 |].
  intros Hfull. apply Hall in Hfull as [_ Hfull].
  specialize (Hfull (mkLogRow "log_2" "r_manual" "rule r_manual" "user_1" "manual"
                       StatusFailure (Some (JArr [])) None (Some "timeout") None
                       1700000500000)).
  assert (Hin : mkLogRow "log_2" "r_manual" "rule r_manual" "user_1" "manual"
                  StatusFailure (Some (JArr [])) None (Some "timeout") None
                  1700000500000 ∈ logs sample_db_logged)
    by (cbn; right; left).
  specialize (Hfull Hin eq_refl). discriminate.
Defined.

(** X18. When a log entry is written (its id is fresh, its duration fits
    the column), one more run is counted for its user and for its rule id,
    the statistics of every other user and of every other rule id are as
    they were, and the entries that were there are all kept. *)
Theorem log_create_counts (id : string) (log : NewLog.t) (dbNow : Z)
    (tbl tbl' : LogTable) :
  executionLogStorage.create id log dbNow tbl = Some tbl' ->
  totalRuns (executionLogStorage.getStats (NewLog.userId log) tbl')
  = totalRuns (executionLogStorage.getStats (NewLog.userId log) tbl) + 1
  /\ totalRuns (executionLogStorage.getStatsByRuleId (NewLog.ruleId log) tbl')
     = totalRuns (executionLogStorage.getStatsByRuleId (NewLog.ruleId log) tbl) + 1
  /\ (forall userId,
        userId <> NewLog.userId log ->
        executionLogStorage.getStats userId tbl'
        = executionLogStorage.getStats userId tbl)
  /\ (forall ruleId,
        ruleId <> NewLog.ruleId log ->
        executionLogStorage.getStatsByRuleId ruleId tbl'
        = executionLogStorage.getStatsByRuleId ruleId tbl)
  /\ (forall r, r ∈ tbl -> r ∈ tbl' /\ log_id r <> id).
Proof.
  intros Hcreate. apply log_create_inv in Hcreate as (-> & Hfresh & _).
  unfold executionLogStorage.getStats, executionLogStorage.getStatsByRuleId.
  rewrite !filter_app.
  split; [| split; [| split; [| split]]].
  - rewrite filter_cons_True by reflexivity.
    unfold statsOf. cbn [totalRuns]. rewrite length_app. cbn. lia.
  - rewrite filter_cons_True by reflexivity.
    unfold statsOf. cbn [totalRuns]. rewrite length_app. cbn. lia.
  - intros userId Hother. rewrite filter_app.
    rewrite filter_cons_False by (cbn; congruence).
    rewrite filter_nil, app_nil_r. reflexivity.
  - intros ruleId Hother. rewrite filter_app.
    rewrite filter_cons_False by (cbn; congruence).
    rewrite filter_nil, app_nil_r. reflexivity.
  - intros r Hin. split; [apply elem_of_app; left; exact Hin | exact (Hfresh r Hin)].
Qed.

(** The hypothesis above holds for a second entry of the sample rule. *)
Lemma log_create_counts_witness :
  exists tbl',
    executionLogStorage.create "log_2" (sample_log StatusFailure 150) 1700000000500
      (logged_runs 1 [3200] []) = Some tbl'
    /\ totalRuns (executionLogStorage.getStatsByRuleId "r_1" tbl') = 2.
Proof.
  destruct (executionLogStorage.create "log_2" (sample_log StatusFailure 150)
              1700000000500 (logged_runs 1 [3200] [])) as [tbl' |] eqn:Hcreate;
    [| vm_compute in Hcreate; discriminate].
  exists tbl'. split; [reflexivity |].
  destruct (log_create_counts _ _ _ _ _ Hcreate) as (_ & Hrule & _).
  exact Hrule.
Defined.

(* ===================================================================== *)
(** ** The logs of a rule over the route *)
(* ===================================================================== *)

(** A lookup by id and user finds a rule exactly when the user owns a row
    of the id. *)
Lemma getByIdAndUser_is_Some (isSupabase : bool) (LocalTZA : Z -> bool -> Z)
    (id userId : string) (tbl : RuleTable) :
  is_Some (executionRulesStorage.getByIdAndUser isSupabase LocalTZA id userId tbl)
  <-> exists r, r ∈ tbl /\ has_id id r /\ owned_by userId r.
Proof.
  split.
  - intros [rule Hrule].
    apply getByIdAndUser_Some in Hrule as (r & Hin & Hid & Hown & _). eauto.
  - intros (r & Hin & Hid & Hown).
    destruct (executionRulesStorage.getByIdAndUser isSupabase LocalTZA id userId tbl)
      as [rule |] eqn:Hrule; [eauto |].
    unfold executionRulesStorage.getByIdAndUser in Hrule.
    destruct (filter _ tbl) as [| r' rest] eqn:Hf; [| discriminate].
    assert (Hr : r ∈ filter (fun r => has_id id r /\ owned_by userId r) tbl)
      by (apply list_elem_of_filter; auto).
    rewrite Hf in Hr. apply elem_of_nil in Hr. destruct Hr.
Qed.

(** [getByRuleId] answers exactly for a limit and an offset that are row
    counts. *)
Lemma getByRuleId_is_Some (isSupabase : bool) (LocalTZA : Z -> bool -> Z)
    (order : list LogRow -> list LogRow)
    (ruleId : string) (limit offset : Z) (tbl : LogTable) :
  is_Some (executionLogStorage.getByRuleId isSupabase LocalTZA order ruleId
             (Some limit) (Some offset) tbl)
  <-> 0 <= limit <= bigint_max /\ 0 <= offset <= bigint_max.
Proof.
  unfold executionLogStorage.getByRuleId. unfold default, from_option, id.
  split.
  - intros [page Hpage].
    unfold executionLogStorage.page_rows, row_count in Hpage.
    destruct (_ && _) eqn:Hok; [| discriminate].
    repeat (apply andb_true_iff in Hok as [Hok ?]). lia.
  - intros [Hl Ho]. rewrite page_rows_accepts by assumption. cbn. eauto.
Qed.

(** X19. A page of logs is served only to the owner of the rule, in
    whatever order the executor returns entries of equal [createdAt]: when
    [GET] answers 200 there is a session, its user owns a stored row of
    the id of the path, and the body holds entries of this rule id only,
    min(limit, total - offset) of them for the limit and the offset of the
    query, with the statistics of the rule id, whose count of runs is the
    total of the body. *)
Theorem logs_route_page (isSupabase : bool) (LocalTZA : Z -> bool -> Z)
    (parseInt : string -> option Z) (order : list LogRow -> list LogRow)
    (session : option Session) (id : string) (query : LogsQuery.t) (db : DB) :
  newest_first order ->
  logs_status (GET isSupabase LocalTZA parseInt order session id query db) = 200 ->
  exists s r limit offset rows total stats,
    session = Some s
    /\ r ∈ rules db /\ has_id id r /\ owned_by (session_userId s) r
    /\ parseInt (paramOr (LogsQuery.limit query) "50") = Some limit
    /\ parseInt (paramOr (LogsQuery.offset query) "0") = Some offset
    /\ logs_body (GET isSupabase LocalTZA parseInt order session id query db)
       = LogsPage (mapLogRows isSupabase LocalTZA rows) total stats
    /\ stats = executionLogStorage.getStatsByRuleId id (logs db)
    /\ total = totalRuns stats
    /\ Z.of_nat (length rows) = Z.min limit (Z.max 0 (total - offset))
    /\ (forall row, row ∈ rows -> row ∈ logs db /\ log_ruleId row = id).
Proof.
  intros Horder.
  unfold GET. destruct session as [s |]; [| discriminate].
  destruct (executionRulesStorage.getByIdAndUser isSupabase LocalTZA id
              (session_userId s) (rules db)) as [rule |] eqn:Hrule; [| discriminate].
  apply getByIdAndUser_Some in Hrule as (r & Hin & Hid & Hown & _).
  destruct (parseInt (paramOr (LogsQuery.limit query) "50")) as [limit |];
    [| discriminate].
  destruct (parseInt (paramOr (LogsQuery.offset query) "0")) as [offset |];
    [| discriminate].
  destruct (executionLogStorage.getByRuleId isSupabase LocalTZA order id (Some limit)
              (Some offset) (logs db)) as [[entries total] |] eqn:Hpage;
    [| discriminate].
  intros _.
  apply getByRuleId_rows in Hpage as (Htotal & rows & Hpage & -> & _).
  apply (page_rows_Some _ _ _ _ _ _ Horder) in Hpage as (_ & _ & Hlen & _ & Hrows).
  exists s, r, limit, offset, rows, total,
    (executionLogStorage.getStatsByRuleId id (logs db)).
  split; [reflexivity |]. split; [exact Hin |]. split; [exact Hid |].
  split; [exact Hown |]. split; [reflexivity |]. split; [reflexivity |].
  split; [reflexivity |]. split; [reflexivity |]. split; [exact Htotal |].
  split; [rewrite Htotal; exact Hlen | exact Hrows].
Qed.

(** The hypotheses above hold when user_1 asks for the first entry of the
    log of the sample rule r_manual. *)
Lemma logs_route_page_witness :
  let response := GET false zone_utc parseInt_decimal ties_in_table_order
                    (Some (mkSession "user_1")) "r_manual"
                    (LogsQuery.mk (Some "1") None) sample_db_logged in
  logs_status response = 200
  /\ exists rows stats,
       logs_body response = LogsPage (mapLogRows false zone_utc rows) 2 stats
       /\ Z.of_nat (length rows) = 1.
Proof.
  intros response.
  assert (Hok : logs_status response = 200) by (vm_compute; reflexivity).
  split; [exact Hok |].
  destruct (logs_route_page _ _ _ _ _ _ _ _ ties_in_table_order_newest_first Hok)
    as (s & r & limit & offset & rows & total & stats & _ & _ & _ & _ & Hlimit
        & Hoffset & Hbody & Hstats & Htotal & Hlen & _).
  assert (Hl : limit = 1) by (vm_compute in Hlimit; congruence).
  assert (Ho : offset = 0) by (vm_compute in Hoffset; congruence).
  assert (Ht : total = 2) by (rewrite Htotal, Hstats; reflexivity).
  subst limit offset. rewrite Ht in Hbody, Hlen.
  exists rows, stats. split; [exact Hbody | exact Hlen].
Defined.

(** X20. The status of the answer of [GET]: 401 exactly without a session;
    with a session, 404 exactly when its user owns no row of the id, 500
    exactly when the user owns one and the limit or the offset of the query
    is no number or no row count, and 200 otherwise. *)
Theorem logs_route_status (isSupabase : bool) (LocalTZA : Z -> bool -> Z)
    (parseInt : string -> option Z) (order : list LogRow -> list LogRow)
    (session : option Session) (id : string) (query : LogsQuery.t) (db : DB) :
  let status :=
    logs_status (GET isSupabase LocalTZA parseInt order session id query db) in
  let owned s := exists r, r ∈ rules db /\ has_id id r /\ owned_by (session_userId s) r in
  let paged :=
    exists limit offset,
      parseInt (paramOr (LogsQuery.limit query) "50") = Some limit
      /\ parseInt (paramOr (LogsQuery.offset query) "0") = Some offset
      /\ 0 <= limit <= bigint_max /\ 0 <= offset <= bigint_max in
  (status = 401 <-> session = None)
  /\ (forall s, session = Some s ->
        (status = 404 <-> ~ owned s)
        /\ (status = 500 <-> owned s /\ ~ paged)
        /\ (status = 200 <-> owned s /\ paged)).
Proof.
  intros status owned paged. subst status. unfold GET.
  destruct session as [s |]; [| split; [tauto | discriminate]].
  assert (Hpage : forall limit offset,
             is_Some (executionLogStorage.getByRuleId isSupabase LocalTZA order id
                        (Some limit) (Some offset) (logs db))
             <-> 0 <= limit <= bigint_max /\ 0 <= offset <= bigint_max)
    by (intros; apply getByRuleId_is_Some).
  pose proof (getByIdAndUser_is_Some isSupabase LocalTZA id (session_userId s)
                (rules db)) as Howned.
  fold (owned s) in Howned.
  destruct (executionRulesStorage.getByIdAndUser isSupabase LocalTZA id
              (session_userId s) (rules db)) as [rule |].
  - assert (Ho : owned s) by (apply Howned; eauto). clear Howned.
    assert (Hpaged :
              paged
              <-> is_Some
                    match parseInt (paramOr (LogsQuery.limit query) "50"),
                          parseInt (paramOr (LogsQuery.offset query) "0") with
                    | Some l, Some o =>
                        executionLogStorage.getByRuleId isSupabase LocalTZA order id
                          (Some l) (Some o) (logs db)
                    | _, _ => None
                    end).
    { subst paged.
      destruct (parseInt (paramOr (LogsQuery.limit query) "50")) as [limit |];
        [| split; [intros (? & ? & [=] & _) | intros [? [=]]]].
      destruct (parseInt (paramOr (LogsQuery.offset query) "0")) as [offset |];
        [| split; [intros (? & ? & _ & [=] & _) | intros [? [=]]]].
      rewrite Hpage. split; [intros (? & ? & [= <-] & [= <-] & ?); tauto |].
      intros ?. exists limit, offset. tauto. }
    destruct (match parseInt (paramOr (LogsQuery.limit query) "50"),
                    parseInt (paramOr (LogsQuery.offset query) "0") with
              | Some l, Some o =>
                  executionLogStorage.getByRuleId isSupabase LocalTZA order id
                    (Some l) (Some o) (logs db)
              | _, _ => None
              end) as [[entries total] |]; cbn [logs_status].
    + assert (Hp : paged) by (apply Hpaged; eauto).
      split; [split; discriminate |]. intros s' [= <-].
      split; [split; [discriminate | tauto] |].
      split; [split; [discriminate | tauto] | tauto].
    + assert (Hp : ~ paged) by (rewrite Hpaged; intros [? [=]]).
      split; [split; discriminate |]. intros s' [= <-].
      split; [split; [discriminate | tauto] |].
      split; [tauto | split; [discriminate | tauto]].
  - assert (Ho : ~ owned s) by (rewrite <- Howned; intros [? [=]]).
    cbn [logs_status].
    split; [split; discriminate |]. intros s' [= <-].
    split; [tauto |].
    split; split; first [discriminate | tauto].
Qed.

(** X21. Once a rule is deleted its log can no longer be read over the
    route, although the entries are still stored: every request with a
    session is answered 404 "Rule not found", while [getByRuleId] returns
    the same pages as before the deletion. *)
Theorem logs_route_after_delete (isSupabase : bool) (LocalTZA : Z -> bool -> Z)
    (parseInt : string -> option Z) (order : list LogRow -> list LogRow)
    (s : Session) (id : string) (query : LogsQuery.t) (db : DB) :
  GET isSupabase LocalTZA parseInt order (Some s) id query (deleteRule id db).1
  = mkLogsResponse 404 (LogsError "Rule not found")
  /\ (forall limit offset,
        executionLogStorage.getByRuleId isSupabase LocalTZA order id limit offset
          (logs (deleteRule id db).1)
        = executionLogStorage.getByRuleId isSupabase LocalTZA order id limit offset
            (logs db)).
Proof.
  split; [| reflexivity].
  unfold GET. rewrite getByIdAndUser_None; [reflexivity |].
  intros r Hin Hid _.
  unfold deleteRule, executionRulesStorage.delete in Hin. cbn in Hin.
  apply list_elem_of_filter in Hin as [Hnot _]. exact (Hnot Hid).
Qed.
